(** * Transaction classification engine of the Base wallet tracker

    A shallow embedding of [src/tokenUtils.js] (class [TokenUtils]):
    the token metadata resolver [getTokenInfo], the transfer log decoder
    [parseTransferEvents], the classifier [detectSwap], the entry point
    [analyzeTransaction] and the formatter [formatTransactionSummary].

    Around it, the code that feeds the engine and uses its answers: the
    wallet registry of [src/tracker.js] ([addWallet], [removeWallet],
    [getWallets], [getChatsForWallet], [getSummary]) with its file
    ([saveWallets] and [loadWallets] of [src/storage.js]), the selection
    of the latest transactions in [src/blockchain.js]
    ([getTransactionHashesFromAlchemy], [getLatestTransactionHashes]), the
    polling loop [checkWalletChanges] and the notification
    [sendWalletNotification] of [src/bot.js].

    JavaScript strings are [string]s, bigints are [Z], objects are records
    whose optional properties are [option]s, [null] is [None].  The token
    cache ([new Map()]) is a [gmap] keyed by the lower-cased address.
    Network reads and the cache are threaded through an explicit state. *)

From Stdlib Require Import ZArith NArith QArith Ascii String List Lia Bool.
From stdpp Require Import base option list strings gmap sorting.

Local Open Scope Z_scope.

(** ** JavaScript string primitives *)

Module JS.

(** [c.toLowerCase()] on one ASCII code unit: only [A]..[Z] change. *)
Definition lower_ascii (c : ascii) : ascii :=
  let n := N_of_ascii c in
  if ((65 <=? n) && (n <=? 90))%N then ascii_of_N (n + 32) else c.

(** [s.toLowerCase()], on the ASCII range (addresses are hexadecimal). *)
Fixpoint toLowerCase (s : string) : string :=
  match s with
  | EmptyString => EmptyString
  | String c r => String (lower_ascii c) (toLowerCase r)
  end.

(** [s.slice(n)] for a non-negative [n]: the suffix starting at index [n]. *)
Fixpoint slice (n : nat) (s : string) : string :=
  match n, s with
  | O, _ => s
  | S m, EmptyString => EmptyString
  | S m, String _ r => slice m r
  end.

(** The decimal digit of a number below ten. *)
Definition digit_char (n : N) : ascii := ascii_of_N (48 + n).

(** Decimal digits of a natural number, most significant first; the
    accumulator receives the digits produced so far. *)
Fixpoint digits_go (fuel : nat) (n : N) (acc : list ascii) : list ascii :=
  let acc' := digit_char (n mod 10) :: acc in
  match fuel with
  | O => acc'
  | S f => if (n / 10 =? 0)%N then acc' else digits_go f (n / 10)%N acc'
  end.

Definition digits (n : N) : list ascii :=
  digits_go (N.to_nat (N.log2 n)) n [].

(** [BigInt.prototype.toString()]. *)
Definition bigint_toString (v : Z) : string :=
  let body := string_of_list_ascii (digits (Z.abs_N v)) in
  if v <? 0 then String "-" body else body.

End JS.

(** ** The ethers library: decimal rendering of fixed-point amounts *)

Module Ethers.

Definition zero_char : ascii := "0"%char.
Definition dot_char : ascii := "."%char.

(** Left-pads with zeros until the text is longer than [decimals]. *)
Definition pad_whole (decimals : nat) (ds : list ascii) : list ascii :=
  replicate (S decimals - length ds) zero_char ++ ds.

(** Drops leading zeros, keeping the last character. *)
Fixpoint trim_leading (ds : list ascii) : list ascii :=
  match ds with
  | c :: (_ :: _) as r => if Ascii.eqb c zero_char then trim_leading r else ds
  | _ => ds
  end.

(** Drops trailing zeros, keeping the first character. *)
Definition trim_trailing (ds : list ascii) : list ascii :=
  rev (trim_leading (rev ds)).

(** Modelled from the spec: the exact decimal division behind
    [ethers.formatUnits], which is library code outside the sources.  The
    digits of a non-negative amount with the decimal point placed
    [decimals] digits from the right: the text is padded to one digit
    before the point, then the zeros that carry no value are dropped on
    both sides. *)
Definition fixed_digits (n : N) (decimals : nat) : list ascii :=
  match decimals with
  | O => JS.digits n
  | S _ =>
      let ds := pad_whole decimals (JS.digits n) in
      let index := (length ds - decimals)%nat in
      trim_leading (take index ds) ++ dot_char :: trim_trailing (drop index ds)
  end.

(** Modelled from the spec: [ethers.formatUnits] belongs to the ethers
    library, which is not part of the sources.  The spec defines the scaled
    value as [rawValue / 10^decimals] computed with exact decimal arithmetic
    and shows it as a decimal string ("1.0", "500.0"): the integer part
    without leading zeros, a point, and the fraction without trailing zeros,
    at least one digit on each side; with zero decimals the integer is
    printed alone.  The range checks of the library are not described by
    the spec; they are [representable], below. *)
Definition formatUnits (value : Z) (decimals : nat) : string :=
  let body := string_of_list_ascii (fixed_digits (Z.abs_N value) decimals) in
  if value <? 0 then String "-" body else body.

(** What [ethers.formatUnits] accepts.  The library (version 6) renders
    the amount through a signed fixed-point number of 512 bits with at most
    80 decimals: it raises for a larger count of decimals and for an amount
    outside [-2^511, 2^511). *)
Definition amountInRange (value : Z) : bool :=
  (- 2 ^ 511 <=? value) && (value <? 2 ^ 511).

Definition representable (value : Z) (decimals : nat) : bool :=
  (decimals <=? 80)%nat && amountInRange value.

(** [ethers.formatEther(v)] is [formatUnits(v, 18)].  It is applied to
    the value of a transaction and to a balance, which the provider reads
    from 256-bit quantities of the chain. *)
Definition formatEther (value : Z) : string := formatUnits value 18.

(** Reading a decimal string back as a rational number. *)
Definition digit_value (c : ascii) : option N :=
  let n := N_of_ascii c in
  if ((48 <=? n) && (n <=? 57))%N then Some (n - 48)%N else None.

Fixpoint number_of (acc : N) (ds : list ascii) : option N :=
  match ds with
  | [] => Some acc
  | c :: r =>
      match digit_value c with
      | Some d => number_of (10 * acc + d)%N r
      | None => None
      end
  end.

Fixpoint split_point (ds : list ascii) : list ascii * option (list ascii) :=
  match ds with
  | [] => ([], None)
  | c :: r =>
      if Ascii.eqb c dot_char then ([], Some r)
      else let '(w, f) := split_point r in (c :: w, f)
  end.

(** The value denoted by an unsigned decimal text ["w"] or ["w.f"]. *)
Definition decimalValue (s : string) : option Q :=
  let '(w, f) := split_point (list_ascii_of_string s) in
  match w, f with
  | [], _ => None
  | _, None =>
      match number_of 0 w with
      | Some a => Some (inject_Z (Z.of_N a))
      | None => None
      end
  | _, Some [] => None
  | _, Some fr =>
      match number_of 0 w, number_of 0 fr with
      | Some a, Some b =>
          Some (Qmake (Z.of_N a * 10 ^ Z.of_nat (length fr) + Z.of_N b)
                      (Z.to_pos (10 ^ Z.of_nat (length fr))))
      | _, _ => None
      end
  end.

End Ethers.

(** ** Data model *)

(** A receipt log entry: [{address, topics, data}]. *)
Module Log.
Record t := mk { address : string; topics : list string; data : string }.
End Log.

(** [{address, symbol, name, decimals}] as built by [getTokenInfo]. *)
Module TokenInfo.
Record t := mk { address : string; symbol : string; name : string; decimals : nat }.
End TokenInfo.

(** One decoded transfer, the object pushed by [parseTransferEvents]. *)
Module Transfer.
Record t := mk {
  tokenAddress : string;
  tokenSymbol : string;
  tokenName : string;
  decimals : nat;
  from : string;
  to : string;
  value : Z;
  valueFormatted : string
}.
End Transfer.

(** The transaction fields the classifier reads: [tx.to] (null for a
    contract creation) and [tx.value]. *)
Module Tx.
Record t := mk { to : option string; value : Z }.
End Tx.

Module Receipt.
Record t := mk { logs : list Log.t; status : option Z; gasUsed : Z }.
End Receipt.

(** The object returned by [detectSwap].  Its shape depends on [type]:
    a property the branch does not set is [undefined], here [None]. *)
Module SwapInfo.
Record t := mk {
  type : string;
  dex : string;
  tokenIn : option Transfer.t;
  tokenOut : option Transfer.t;
  tokenSold : option Transfer.t;
  ethReceived : option string;
  tokenBought : option Transfer.t;
  ethSpent : option string;
  allTransfers : list Transfer.t
}.
End SwapInfo.

(** The object returned by [analyzeTransaction]:
    [{hash, type, ...swapInfo, gasUsed, status}]. *)
Module Analysis.
Record t := mk { hash : string; swap : SwapInfo.t; gasUsed : string; status : string }.
Definition type (a : t) : string := SwapInfo.type (swap a).
End Analysis.

(** Outcome of a call that may raise. *)
Inductive Completion (A : Type) : Type :=
  | Normal (a : A)
  | Throw.
Arguments Normal {A} a.
Arguments Throw {A}.

Definition try_bind {A B} (c : Completion A) (k : A -> Completion B) : Completion B :=
  match c with
  | Normal a => k a
  | Throw => Throw
  end.

(** Outcome of a provider lookup: a value, [null], or a rejected promise. *)
Inductive Fetch (A : Type) : Type :=
  | Found (a : A)
  | Missing
  | Rejected.
Arguments Found {A} a.
Arguments Missing {A}.
Arguments Rejected {A}.

(** ** State: the token cache and the reads issued so far *)

Record World := mkWorld {
  tokenCache : gmap string TokenInfo.t;
  reads : nat
}.

Definition M (A : Type) : Type := World -> A * World.

Definition ret {A} (a : A) : M A := fun w => (a, w).

Definition bind {A B} (m : M A) (k : A -> M B) : M B :=
  fun w => let '(a, w') := m w in k a w'.

Declare Scope tracker_scope.
Delimit Scope tracker_scope with tracker.
Notation "'run!' x ':=' m 'in' k" := (bind m (fun x => k))
  (at level 10, x name, m at level 100, k at level 200) : tracker_scope.
Notation "'try!' x ':=' c 'in' k" := (try_bind c (fun x => k))
  (at level 10, x name, c at level 100, k at level 200) : tracker_scope.
Local Open Scope tracker_scope.

(** Known DEX routers on Base. *)
Definition KNOWN_DEX_ROUTERS : gmap string string :=
  list_to_map [
    ("0x4752ba5dbc23f44d87826276bf6fd6b1c372ad24", "BaseSwap");
    ("0x327df1e6de05895d2ab08513aadd9313fe505d86", "Aerodrome");
    ("0x2626664c2603336e57b271c5c0b26f421741e481", "Uniswap V3 Router");
    ("0xd0dbb1d0b0d4e0e482c1c1a6cf7e6a13b9a7e8c3", "SushiSwap");
    ("0x1b81d678ffb9c0263b24a97847620c99d213eb14", "Balancer");
    ("0x3fc91a3afd70395cd496c647d5a6cc9d4b2b7fad", "Uniswap Universal Router")
  ]%string.

(** ** A sample chain for the closed examples

    Concrete stand-ins for the parameters of the development, used only
    to run the definitions on explicit inputs. *)

Module Sample.

(** The Keccak-256 hash of [Transfer(address,address,uint256)]. *)
Definition transferTopic : string :=
  "0xddf252ad1be2c89b69c2b068fc378daa952ba7f163c4a11628f55a4df523b3ef".

Definition hex_digit (c : ascii) : option Z :=
  let n := Z.of_N (N_of_ascii c) in
  if (48 <=? n) && (n <=? 57) then Some (n - 48)
  else if (97 <=? n) && (n <=? 102) then Some (n - 87)
  else if (65 <=? n) && (n <=? 70) then Some (n - 55)
  else None.

Fixpoint hex_value (acc : Z) (s : string) : option Z :=
  match s with
  | EmptyString => Some acc
  | String c r =>
      match hex_digit c with
      | Some d => hex_value (16 * acc + d) r
      | None => None
      end
  end.

(** [BigInt] on the texts a provider puts in [log.data]: ["0x"] followed
    by one hexadecimal digit or more; any other text is rejected here. *)
Definition BigInt (s : string) : option Z :=
  match s with
  | String "0" (String "x" (String c r)) => hex_value 0 (String c r)
  | _ => None
  end.

(** [getAddress] without the checksum casing: ["0x"] and forty
    hexadecimal digits are accepted and returned as they are. *)
Definition getAddress (s : string) : option string :=
  match s with
  | String "0" (String "x" body) =>
      if bool_decide (String.length body = 40%nat) && bool_decide (is_Some (hex_value 0 body))
      then Some s else None
  | _ => None
  end.

Definition tokenA : string := "0xaaaaaaaaaaaaaaaaaaaaaaaaaaaaaaaaaaaaaaaa".
Definition tokenB : string := "0xbbbbbbbbbbbbbbbbbbbbbbbbbbbbbbbbbbbbbbbb".
Definition wallet : string := "0x1111111111111111111111111111111111111111".
Definition pool : string := "0x2222222222222222222222222222222222222222".
Definition router : string := "0x4752ba5DbC23f44D87826276BF6Fd6b1C372aD24".

(** Token A has 18 decimals, token B has 6; every other read is rejected. *)
Definition readSymbol (n : nat) (a : string) : option string :=
  if bool_decide (a = tokenA) then Some "AAA"%string
  else if bool_decide (a = tokenB) then Some "BBB"%string else None.

Definition readName (n : nat) (a : string) : option string :=
  if bool_decide (a = tokenA) then Some "Token A"%string
  else if bool_decide (a = tokenB) then Some "Token B"%string else None.

Definition readDecimals (n : nat) (a : string) : option N :=
  if bool_decide (a = tokenA) then Some 18%N
  else if bool_decide (a = tokenB) then Some 6%N else None.

Definition newContract (a : string) : bool := true.

(** An address as an indexed topic: left-padded to 32 bytes. *)
Definition topicOf (a : string) : string :=
  "0x000000000000000000000000" +:+ JS.slice 2 a.

Definition transferLog (token sender recipient data : string) : Log.t :=
  Log.mk token [transferTopic; topicOf sender; topicOf recipient] data.

(** 10^18, 5 * 10^18 and 500000000 as 32-byte words. *)
Definition oneEther : string :=
  "0x0000000000000000000000000000000000000000000000000de0b6b3a7640000".
Definition fiveEther : string :=
  "0x0000000000000000000000000000000000000000000000004563918244f40000".
Definition fiveHundred : string :=
  "0x000000000000000000000000000000000000000000000000000000001dcd6500".

Definition w0 : World := mkWorld ∅ 0.

(** The wallet sends token A to the router and receives token B. *)
Definition swapReceipt : Receipt.t :=
  Receipt.mk [transferLog tokenA wallet router oneEther;
              transferLog tokenB router wallet fiveHundred] (Some 1) 150000.


(** The wallet sends token A; the token moves on to the pool. *)
Definition sellReceipt : Receipt.t :=
  Receipt.mk [transferLog tokenA wallet router oneEther;
              transferLog tokenA router pool oneEther] (Some 1) 120000.

(** Token B reaches the wallet through the router. *)
Definition buyReceipt : Receipt.t :=
  Receipt.mk [transferLog tokenB pool router fiveHundred;
              transferLog tokenB router wallet fiveHundred] (Some 1) 120000.

(** A single transfer from the wallet. *)
Definition transferReceipt : Receipt.t :=
  Receipt.mk [transferLog tokenA wallet pool fiveEther] (Some 1) 50000.

(** No log at all: a plain native-currency send. *)
Definition plainReceipt : Receipt.t := Receipt.mk [] (Some 1) 21000.

(** A log with the transfer signature and nothing else: no indexed
    topics, empty data. *)
Definition bareLog : Log.t := Log.mk tokenA [transferTopic] "0x".
Definition bareReceipt : Receipt.t := Receipt.mk [bareLog] (Some 1) 30000.

Definition routerTx : Tx.t := Tx.mk (Some router) 0.
Definition payingTx : Tx.t := Tx.mk (Some router) 250000000000000000.
Definition plainTx : Tx.t := Tx.mk (Some pool) 1000000000000000000.

(** Three providers: one that finds nothing, one whose lookups are
    rejected, and one that serves the plain send for every hash. *)
Definition missingTransaction (h : string) : Fetch Tx.t := Missing.
Definition missingReceipt (h : string) : Fetch Receipt.t := Missing.
Definition rejectedTransaction (h : string) : Fetch Tx.t := Rejected.
Definition rejectedReceipt (h : string) : Fetch Receipt.t := Rejected.
Definition plainTransaction (h : string) : Fetch Tx.t := Found plainTx.
Definition plainReceiptOf (h : string) : Fetch Receipt.t := Found plainReceipt.

(** Integers standing in for doubles: the closed examples do not reach
    the numeric branches of the formatter. *)
Definition parseFloat (s : string) : Z := 0.
Definition float_of_Z (z : Z) : Z := z.
Definition float_mul (a b : Z) : Z := a * b.
Definition float_gt (a b : Z) : bool := b <? a.
Definition toFixed (a : Z) (digits : nat) : string := JS.bigint_toString a.

(** An analysis of a kind the formatter does not render. *)
Definition plainTransferAnalysis : Analysis.t :=
  Analysis.mk "0xabc"
    (SwapInfo.mk "TRANSFER" "Unknown DEX" None None None None None None [])
    "21000" "Success".

End Sample.

(** ** JavaScript collections

    A [Set] and a [Map] iterate in insertion order, so they are lists: a
    set without repetition, a map with one entry for each key. *)

Module JSSet.
Section Ops.
Context {A : Type} `{EqDecision A}.

Definition has (x : A) (s : list A) : bool := bool_decide (x ∈ s).

(** [s.add(x)]: a new element goes last. *)
Definition add (x : A) (s : list A) : list A :=
  if has x s then s else s ++ [x].

(** [s.delete(x)]. *)
Definition delete (x : A) (s : list A) : list A :=
  List.filter (fun y => negb (bool_decide (y = x))) s.

(** [new Set(iterable)]. *)
Definition ofList (l : list A) : list A :=
  fold_left (fun s x => add x s) l [].

End Ops.
End JSSet.

Module JSMap.
Section Ops.
Context {K V : Type} `{EqDecision K}.

Fixpoint get (k : K) (m : list (K * V)) : option V :=
  match m with
  | [] => None
  | (k', v) :: r => if decide (k' = k) then Some v else get k r
  end.

Definition has (k : K) (m : list (K * V)) : bool :=
  bool_decide (is_Some (get k m)).

(** [m.set(k, v)]: an existing key keeps its place, a new key goes last. *)
Fixpoint set (k : K) (v : V) (m : list (K * V)) : list (K * V) :=
  match m with
  | [] => [(k, v)]
  | (k', v') :: r =>
      if decide (k' = k) then (k, v) :: r else (k', v') :: set k v r
  end.

(** [m.delete(k)]. *)
Definition delete (k : K) (m : list (K * V)) : list (K * V) :=
  List.filter (fun e => negb (bool_decide (e.1 = k))) m.

End Ops.
End JSMap.

(** A plain object used as a dictionary.  Its own keys are enumerated
    with the array indices first, in ascending order, then the other keys
    in the order of their creation. *)
Module JSObject.
Section Ops.
Context {V : Type}.

(** The array index a key denotes: the canonical decimal text of an
    integer below [2^32 - 1]. *)
Definition arrayIndex (key : string) : option N :=
  match Ethers.number_of 0 (list_ascii_of_string key) with
  | Some n =>
      if bool_decide (string_of_list_ascii (JS.digits n) = key) && (n <? 4294967295)%N
      then Some n else None
  | None => None
  end.

Definition get (key : string) (o : list (string * V)) : option V :=
  JSMap.get key o.

(** The place of a new array index: before the first key that is not an
    array index or is a larger one. *)
Fixpoint insertIndex (n : N) (key : string) (v : V) (o : list (string * V))
  : list (string * V) :=
  match o with
  | [] => [(key, v)]
  | (k', v') :: r =>
      match arrayIndex k' with
      | Some m => if (m <? n)%N then (k', v') :: insertIndex n key v r
                  else (key, v) :: o
      | None => (key, v) :: o
      end
  end.

(** [o[key] = v] on an object created by [{}].  The key [__proto__] is
    the accessor inherited from [Object.prototype]: assigning to it
    creates no property. *)
Definition set (key : string) (v : V) (o : list (string * V)) : list (string * V) :=
  if bool_decide (key = "__proto__"%string) then o
  else if JSMap.has key o then JSMap.set key v o
  else match arrayIndex key with
       | Some n => insertIndex n key v o
       | None => o ++ [(key, v)]
       end.

End Ops.
End JSObject.

(** ** The wallet registry and its file *)

(** An entry of [lastChecked]: [{ balance, txCount }]. *)
Module Checked.
Record t := mk { balance : string; txCount : Z }.
End Checked.

(** The object written to [tracked-wallets.json]. *)
Module Saved.
Record t := mk {
  watchedWallets : list (string * list string);
  lastChecked : list (string * Checked.t);
  savedAt : string
}.
End Saved.

(** What the file holds: the object [JSON.parse] reads back from a text
    written by [JSON.stringify] (strings, integers, arrays and objects come
    back as they were, keys in the same order), or something that cannot
    be read or parsed into that shape. *)
Inductive Content : Type :=
  | Json (data : Saved.t)
  | Unusable.

(** The file system as far as the registry uses it: the wallets file, if
    it exists, and whether writing it succeeds. *)
Record Disk := mkDisk { file : option Content; writable : bool }.

(** The tracker: [watchedWallets] (chat id to set of addresses),
    [lastChecked] (address to last observation) and the disk it saves to. *)
Record Tracker (Num : Type) := mkTracker {
  watchedWallets : list (Num * list string);
  lastChecked : list (string * Checked.t);
  disk : Disk
}.
Arguments mkTracker {Num} _ _ _.
Arguments watchedWallets {Num} _.
Arguments lastChecked {Num} _.
Arguments disk {Num} _.

(** [{ totalChats, totalWallets }]. *)
Record Summary := mkSummary { totalChats : nat; totalWallets : nat }.

(** Chat ids as integers, for the closed examples: [String] prints them
    in decimal and [Number] reads a decimal text back (any other text is
    read as zero here). *)
Module SampleChats.

Definition toText (z : Z) : string := JS.bigint_toString z.

Definition ofText (s : string) : Z :=
  match s with
  | String "-" r => - Z.of_N (default 0%N (Ethers.number_of 0 (list_ascii_of_string r)))
  | _ => Z.of_N (default 0%N (Ethers.number_of 0 (list_ascii_of_string s)))
  end.

(** An address is what the sample [getAddress] accepts. *)
Definition isAddress (s : string) : bool := bool_decide (is_Some (Sample.getAddress s)).

Definition alice : Z := 7001.
Definition bob : Z := 5000000000.
Definition group : Z := -1001234567890.

Definition walletMixed : string := "0xAbCdEf1111111111111111111111111111111111".
Definition walletLower : string := "0xabcdef1111111111111111111111111111111111".
Definition other : string := "0x2222222222222222222222222222222222222222".

Definition emptyDisk : Disk := mkDisk None true.

Definition fresh : Tracker Z := mkTracker [] [] emptyDisk.

(** Three chats: a group, then two users; one wallet shared. *)
Definition busy : Tracker Z :=
  mkTracker [(group, [walletLower]); (bob, [other; walletLower]); (alice, [other])]
            [(walletLower, Checked.mk "1.5" 12); (other, Checked.mk "0.0" 0)]
            emptyDisk.

End SampleChats.


(** ** Arrays: stable sort and slice *)

Module JSArray.
Section Ops.
Context {A : Type}.

(** The place of [x] in a list in descending order of [key]: after the
    elements with a larger key, before those with an equal or smaller one. *)
Fixpoint insertDesc (key : A -> Z) (x : A) (l : list A) : list A :=
  match l with
  | [] => [x]
  | y :: r => if key x <? key y then y :: insertDesc key x r else x :: l
  end.

(** [a] may stand before [b] in descending order of [key]. *)
Definition descending (key : A -> Z) (a b : A) : Prop := key b <= key a.

(** [l.sort((a, b) => key(b) - key(a))]: the sort is stable, so its
    result is the one of this insertion sort. *)
Definition sortDesc (key : A -> Z) (l : list A) : list A :=
  foldr (insertDesc key) [] l.

(** [l.slice(0, limit)]: a negative [limit] counts from the end. *)
Definition sliceTo (limit : Z) (l : list A) : list A :=
  let len := Z.of_nat (length l) in
  let final := if limit <? 0 then Z.max (len + limit) 0 else Z.min limit len in
  take (Z.to_nat final) l.

End Ops.
End JSArray.

(** An entry of the [transfers] array answered by
    [alchemy_getAssetTransfers]: its transaction hash and its block number
    in hexadecimal. *)
Module AssetTransfer.
Record t := mk { hash : string; blockNum : string }.
End AssetTransfer.

(** The answer of the BaseScan transaction list: [{ status, result }],
    [result] being the array of transactions (their hashes) when it is an
    array. *)
Module TxList.
Record t := mk { status : string; result : option (list string) }.
End TxList.


(** ** Polling and notifications *)

(** One call of the change callback:
    [onChangeCallback(chatId, { address, transaction })]. *)
Record Notification (Num : Type) := mkNotification {
  toChat : Num;
  aboutAddress : string;
  transaction : Analysis.t
}.
Arguments mkNotification {Num} _ _ _.
Arguments toChat {Num} _.
Arguments aboutAddress {Num} _.
Arguments transaction {Num} _.

(** The state of one run of [checkWalletChanges]: the tracker, the token
    cache of the analysis, the callback calls made so far and the
    [hasChanges] flag. *)
Record Poll (Num : Type) := mkPoll {
  tracker : Tracker Num;
  world : World;
  outbox : list (Notification Num);
  hasChanges : bool
}.
Arguments mkPoll {Num} _ _ _ _.
Arguments tracker {Num} _.
Arguments world {Num} _.
Arguments outbox {Num} _.
Arguments hasChanges {Num} _.

(** Where a Telegram message goes: a chat, or the configured channel. *)
Inductive Target (Num : Type) : Type :=
  | ToChat (chatId : Num)
  | ToChannel (channelId : string).
Arguments ToChat {Num} _.
Arguments ToChannel {Num} _.

(** The messages delivered so far and the number of [sendMessage] calls. *)
Record Telegram (Num : Type) := mkTelegram {
  delivered : list (Target Num * string);
  attempts : nat
}.
Arguments mkTelegram {Num} _ _.
Arguments delivered {Num} _.
Arguments attempts {Num} _.

Module JSText.

(** [s.slice(start, end)] with JavaScript's treatment of negative and
    out-of-range positions. *)
Definition position (len i : Z) : Z :=
  if i <? 0 then Z.max (len + i) 0 else Z.min i len.

Definition slice (first last : Z) (s : string) : string :=
  let len := Z.of_nat (String.length s) in
  let from := position len first in
  let to := position len last in
  String.substring (Z.to_nat from) (Z.to_nat (to - from)) s.

(** [s.slice(start)]. *)
Definition sliceFrom (first : Z) (s : string) : string :=
  slice first (Z.of_nat (String.length s)) s.

End JSText.


(** ** A sample network

    What the closed examples of the polling and of the hash selection run
    on: a provider that serves the swap of the sample chain for every
    hash, three asset transfers, and a wallet whose balance has moved. *)
Module SamplePoll.

Definition swapTransaction (h : string) : Fetch Tx.t := Found Sample.routerTx.
Definition swapReceiptOf (h : string) : Fetch Receipt.t := Found Sample.swapReceipt.

(** [parseInt(text, 16)] on a hexadecimal numeral with its ["0x"]; any
    other text is read as zero here. *)
Definition parseInt16 (s : string) : Z := default 0 (Sample.BigInt s).

Definition currentBlock : Z := 1000.
Definition getBlockNumber : option Z := Some currentBlock.

Definition hashA : string := "0xa1".
Definition hashB : string := "0xb2".
Definition hashC : string := "0xc3".

(** Blocks 992 and 997 on the sending side, 997 and 994 on the receiving
    side; the transaction [hashB] shows on both. *)
Definition sent : list AssetTransfer.t :=
  [AssetTransfer.mk hashA "0x3e0"; AssetTransfer.mk hashB "0x3e5"].
Definition received : list AssetTransfer.t :=
  [AssetTransfer.mk hashB "0x3e5"; AssetTransfer.mk hashC "0x3e2"].

Definition alchemySent (fromBlock : Z) (address : string) (maxCount : Z)
  : option (option (list AssetTransfer.t)) := Some (Some sent).
Definition alchemyReceived (fromBlock : Z) (address : string) (maxCount : Z)
  : option (option (list AssetTransfer.t)) := Some (Some received).

(** BaseScan does not answer. *)
Definition basescanTxList (address : string) (limit : Z) : option TxList.t := None.

(** Two chats track the wallet of the sample chain, which held one ether
    after twelve transactions at the last check. *)
Definition watching : Tracker Z :=
  mkTracker [(SampleChats.alice, [Sample.wallet]);
             (SampleChats.group, [SampleChats.other; Sample.wallet])]
            [(Sample.wallet, Checked.mk "1.0" 12)]
            SampleChats.emptyDisk.

(** The chain now: the wallet holds two ether after thirteen
    transactions; nothing is known of other addresses. *)
Definition providerBalance (a : string) : option Z :=
  if bool_decide (a = Sample.wallet) then Some 2000000000000000000 else None.
Definition providerTransactionCount (a : string) : option Z :=
  if bool_decide (a = Sample.wallet) then Some 13 else None.

(** The chain as it was at the last check of [SampleChats.busy]. *)
Definition settledBalance (a : string) : option Z :=
  if bool_decide (a = SampleChats.walletLower) then Some 1500000000000000000
  else Some 0.
Definition settledTransactionCount (a : string) : option Z :=
  if bool_decide (a = SampleChats.walletLower) then Some 12 else Some 0.

Definition channel : option string := Some "@base_swaps"%string.

(** Telegram delivers every message. *)
Definition sendMessage (n : nat) (target : Target Z) (text : string) : bool := true.

Definition quietLine : Telegram Z := mkTelegram [] 0.

End SamplePoll.


(** ** Amounts beyond the range of the library *)

Module SampleRange.

(** 2^511 as a word of 512 bits: the smallest amount that
    [ethers.formatUnits] refuses. *)
Definition hugeAmount : string :=
  "0x8" +:+ string_of_list_ascii (replicate 127 "0"%char).

(** The swap of the sample chain with that amount of token A. *)
Definition hugeReceipt : Receipt.t :=
  Receipt.mk
    [Sample.transferLog Sample.tokenA Sample.wallet Sample.router hugeAmount;
     Sample.transferLog Sample.tokenB Sample.router Sample.wallet Sample.fiveHundred]
    (Some 1) 150000.

(** A state reached later, whose cache describes token A otherwise. *)
Definition renamed : World :=
  mkWorld {[ Sample.tokenA := TokenInfo.mk Sample.tokenA "XXX" "Renamed" 6 ]} 7.

End SampleRange.


(** ** The operations of [TokenUtils] *)

Section TokenUtils.

(** The chain, as seen through [this.provider].  A metadata read is a
    network call: its answer may depend on when it is issued, so the reads
    take the number of reads issued before them; [None] is a rejected
    promise. *)
Variable readSymbol : nat -> string -> option string.
Variable readName : nat -> string -> option string.
Variable readDecimals : nat -> string -> option N.

(** [new ethers.Contract(tokenAddress, ERC20_ABI, provider)]: whether the
    constructor accepts the target ([false]: it raises). *)
Variable newContract : string -> bool.

(** [provider.getTransaction] and [provider.getTransactionReceipt]. *)
Variable getTransaction : string -> Fetch Tx.t.
Variable getTransactionReceipt : string -> Fetch Receipt.t.

(** [ethers.id('Transfer(address,address,uint256)')], a constant. *)
Variable transferTopic : string.

(** [ethers.getAddress]: the checksummed address, [None] when it raises. *)
Variable getAddress : string -> option string.

(** [BigInt(text)]: [None] when it raises a SyntaxError. *)
Variable BigInt : string -> option Z.

(** JavaScript numbers are IEEE doubles; the formatter only parses,
    multiplies, compares and prints them, so they stay abstract. *)
Variable Float : Type.
Variable parseFloat : string -> Float.
Variable float_of_Z : Z -> Float.
Variable float_mul : Float -> Float -> Float.
Variable float_gt : Float -> Float -> bool.
Variable toFixed : Float -> nat -> string.

(** *** Methods *)

(** The fallback token description of the [catch] branch. *)
Definition sentinel (tokenAddress : string) : TokenInfo.t :=
  TokenInfo.mk tokenAddress "UNKNOWN" "Unknown Token" 18.

(** Get token information (symbol, name, decimals). *)
Definition getTokenInfo (tokenAddress : string) : M TokenInfo.t :=
  fun w =>
    let key := JS.toLowerCase tokenAddress in
    match tokenCache w !! key with
    | Some cached => (cached, w)
    | None =>
        if newContract tokenAddress then
          let n := reads w in
          let symbol := default "UNKNOWN"%string (readSymbol n tokenAddress) in
          let name := default "Unknown Token"%string (readName (n + 1) tokenAddress) in
          let decimals := default 18%N (readDecimals (n + 2) tokenAddress) in
          let tokenInfo := TokenInfo.mk tokenAddress symbol name (N.to_nat decimals) in
          (tokenInfo, mkWorld (<[key := tokenInfo]> (tokenCache w)) (n + 3))
        else (sentinel tokenAddress, w)
    end.

(** [ethers.getAddress('0x' + log.topics[i].slice(26))]; a missing topic
    raises a TypeError. *)
Definition topicAddress (log : Log.t) (i : nat) : Completion string :=
  match Log.topics log !! i with
  | None => Throw
  | Some topic =>
      match getAddress ("0x" +:+ JS.slice 26 topic) with
      | Some a => Normal a
      | None => Throw
      end
  end.

(** The part of a matching log that is decoded before the token is
    resolved: [from], [to] and [value]. *)
Definition decodeTopics (log : Log.t) : Completion (string * string * Z) :=
  try! from := topicAddress log 1 in
  try! to := topicAddress log 2 in
  match BigInt (Log.data log) with
  | Some value => Normal (from, to, value)
  | None => Throw
  end.

Definition isTransfer (log : Log.t) : bool :=
  bool_decide (Log.topics log !! 0%nat = Some transferTopic).

(** The body of the [try] block for one log: the transfers after it.
    The token is resolved before [ethers.formatUnits] is evaluated, so a
    log whose amount the library refuses is skipped after its token has
    been read and cached. *)
Definition parseLog (log : Log.t) (transfers : list Transfer.t)
  : M (Completion (list Transfer.t)) :=
  if isTransfer log then
    match decodeTopics log with
    | Normal (from, to, value) =>
        run! tokenInfo := getTokenInfo (Log.address log) in
        if Ethers.representable value (TokenInfo.decimals tokenInfo) then
          ret (Normal (transfers ++ [
            Transfer.mk (Log.address log)
                        (TokenInfo.symbol tokenInfo)
                        (TokenInfo.name tokenInfo)
                        (TokenInfo.decimals tokenInfo)
                        from to value
                        (Ethers.formatUnits value (TokenInfo.decimals tokenInfo))]))
        else ret Throw
    | Throw => ret Throw
    end
  else ret (Normal transfers).

(** The [for] loop; the [catch] skips a log that cannot be parsed. *)
Fixpoint parseLoop (logs : list Log.t) (transfers : list Transfer.t)
  : M (list Transfer.t) :=
  match logs with
  | [] => ret transfers
  | log :: rest =>
      run! r := parseLog log transfers in
      match r with
      | Normal transfers' => parseLoop rest transfers'
      | Throw => parseLoop rest transfers
      end
  end.

(** Parse ERC-20 Transfer events from transaction receipt. *)
Definition parseTransferEvents (receipt : Receipt.t) : M (list Transfer.t) :=
  parseLoop (Receipt.logs receipt) [].

Definition sentBy (walletLower : string) (t : Transfer.t) : bool :=
  bool_decide (JS.toLowerCase (Transfer.from t) = walletLower).

Definition receivedBy (walletLower : string) (t : Transfer.t) : bool :=
  bool_decide (JS.toLowerCase (Transfer.to t) = walletLower).

(** Determine DEX if possible.  [tx.to] is an address or [null], so the
    lookup in the table finds a router name or nothing. *)
Definition dexName (tx : Tx.t) : string :=
  match Tx.to tx with
  | None => "Unknown DEX"
  | Some a =>
      let toAddress := JS.toLowerCase a in
      if bool_decide (toAddress = ""%string) then "Unknown DEX"
      else default "Unknown DEX"%string (KNOWN_DEX_ROUTERS !! toAddress)
  end.

(** [tx.value ? ethers.formatEther(tx.value) : '0']. *)
Definition ethChange (tx : Tx.t) : string :=
  if Tx.value tx =? 0 then "0" else Ethers.formatEther (Tx.value tx).

(** The classification once the transfers are decoded. *)
Definition classify (tx : Tx.t) (walletAddress : string)
    (transfers : list Transfer.t) : option SwapInfo.t :=
  let walletLower := JS.toLowerCase walletAddress in
  if (length transfers <? 2)%nat then None
  else
    let tokensSent := List.filter (sentBy walletLower) transfers in
    let tokensReceived := List.filter (receivedBy walletLower) transfers in
    match tokensSent, tokensReceived with
    | [], [] => None
    | sent0 :: _, received0 :: _ =>
        Some (SwapInfo.mk "SWAP" (dexName tx) (Some sent0) (Some received0)
                None None None None transfers)
    | sent0 :: _, [] =>
        Some (SwapInfo.mk "SELL" (dexName tx) None None
                (Some sent0) (Some (ethChange tx)) None None transfers)
    | [], received0 :: _ =>
        Some (SwapInfo.mk "BUY" (dexName tx) None None
                None None (Some received0) (Some (ethChange tx)) transfers)
    end.

(** Detect DEX swaps from transaction. *)
Definition detectSwap (tx : Tx.t) (receipt : Receipt.t) (walletAddress : string)
  : M (option SwapInfo.t) :=
  run! transfers := parseTransferEvents receipt in
  ret (classify tx walletAddress transfers).

(** [receipt.status === 1 ? 'Success' : 'Failed']. *)
Definition statusText (receipt : Receipt.t) : string :=
  if bool_decide (Receipt.status receipt = Some 1) then "Success" else "Failed".

(** Analyze a transaction and determine what happened.  [Promise.all]
    rejects when either lookup rejects, and the [catch] returns [null]. *)
Definition analyzeTransaction (txHash walletAddress : string) : M (option Analysis.t) :=
  match getTransaction txHash, getTransactionReceipt txHash with
  | Rejected, _ | _, Rejected => ret None
  | Found tx, Found receipt =>
      run! swapInfo := detectSwap tx receipt walletAddress in
      match swapInfo with
      | Some info =>
          ret (Some (Analysis.mk txHash info
                       (JS.bigint_toString (Receipt.gasUsed receipt))
                       (statusText receipt)))
      | None => ret None
      end
  | _, _ => ret None
  end.

(** *** The summary formatter *)

Definition nl : string := String (ascii_of_nat 10) EmptyString.

(** [String(x)] for a property that may be [undefined]. *)
Definition textOf (x : option string) : string := default "undefined"%string x.

(** The displayed estimate of [BUY] and [SELL]:
    [eth !== '0' ? parseFloat(eth) : 0], then
    [x > 0 ? (x * 3000).toFixed(2) : 'N/A']. *)
Definition usdValue (eth : option string) : string :=
  let x := if bool_decide (eth = Some "0"%string) then float_of_Z 0
           else parseFloat (textOf eth) in
  if float_gt x (float_of_Z 0) then toFixed (float_mul x (float_of_Z 3000)) 2
  else "N/A".

(** Reading a property of [analysis.tokenBought] and the like raises a
    TypeError when that transfer is [undefined]. *)
Definition required (t : option Transfer.t) : Completion Transfer.t :=
  match t with
  | Some tr => Normal tr
  | None => Throw
  end.

Definition tradeSummary (title shortWallet amount : string)
    (token : Transfer.t) (basescanLink : string) : string :=
  title +:+ nl +:+ nl +:+
  "Wallet: `" +:+ shortWallet +:+ "`" +:+ nl +:+
  "Amount: $" +:+ amount +:+ " USD" +:+ nl +:+
  "Token: " +:+ Transfer.tokenSymbol token +:+ nl +:+
  "Contract: `" +:+ Transfer.tokenAddress token +:+ "`" +:+ nl +:+ nl +:+
  "[BaseScan](" +:+ basescanLink +:+ ")".

Definition swapSummary (shortWallet : string) (tokenIn tokenOut : Transfer.t)
    (basescanLink : string) : string :=
  "ðŸ”„ *SWAP*" +:+ nl +:+ nl +:+
  "Wallet: `" +:+ shortWallet +:+ "`" +:+ nl +:+
  toFixed (parseFloat (Transfer.valueFormatted tokenIn)) 4 +:+ " " +:+
  Transfer.tokenSymbol tokenIn +:+ " â†’ " +:+
  toFixed (parseFloat (Transfer.valueFormatted tokenOut)) 4 +:+ " " +:+
  Transfer.tokenSymbol tokenOut +:+ nl +:+ nl +:+
  "Contract: `" +:+ Transfer.tokenAddress tokenOut +:+ "`" +:+ nl +:+ nl +:+
  "[BaseScan](" +:+ basescanLink +:+ ")".

(** Format transaction analysis for display.  [Normal None] is the [null]
    of the [default] branch; [Throw] is a TypeError on a missing transfer. *)
Definition formatTransactionSummary (analysis : option Analysis.t)
    (walletAddress : option string) : Completion (option string) :=
  match analysis with
  | None => Normal (Some "Unable to analyze transaction"%string)
  | Some a =>
      let basescanLink := "https://basescan.org/tx/" +:+ Analysis.hash a in
      let shortWallet :=
        match walletAddress with
        | Some w => if bool_decide (w = ""%string) then "Wallet"%string else w
        | None => "Wallet"%string
        end in
      let info := Analysis.swap a in
      if bool_decide (Analysis.type a = "BUY"%string) then
        let amount := usdValue (SwapInfo.ethSpent info) in
        try! token := required (SwapInfo.tokenBought info) in
        Normal (Some (tradeSummary "ðŸŸ¢ *BUY*" shortWallet amount token basescanLink))
      else if bool_decide (Analysis.type a = "SELL"%string) then
        let amount := usdValue (SwapInfo.ethReceived info) in
        try! token := required (SwapInfo.tokenSold info) in
        Normal (Some (tradeSummary "ðŸ”´ *SELL*" shortWallet amount token basescanLink))
      else if bool_decide (Analysis.type a = "SWAP"%string) then
        try! tokenIn := required (SwapInfo.tokenIn info) in
        try! tokenOut := required (SwapInfo.tokenOut info) in
        Normal (Some (swapSummary shortWallet tokenIn tokenOut basescanLink))
      else Normal None
  end.

(** *** Notions used by the properties *)

Definition actionable (type : string) : Prop :=
  type = "BUY"%string \/ type = "SELL"%string \/ type = "SWAP"%string.

#[global] Instance actionable_dec (type : string) : Decision (actionable type).
Proof. unfold actionable. apply _. Defined.

(** What a decoded transfer takes from its log alone. *)
Definition core (t : Transfer.t) : string * string * string * Z :=
  (Transfer.tokenAddress t, Transfer.from t, Transfer.to t, Transfer.value t).

Definition parties (t : Transfer.t) : string * string :=
  (Transfer.from t, Transfer.to t).

(** The category of a classification: the [type] of the result, [None]
    for the [null] result. *)
Definition category (r : option SwapInfo.t) : option string :=
  SwapInfo.type <$> r.

(** The transfer a log decodes to, without its token description:
    [None] for a log that does not match the signature or does not
    decode. *)
Definition decodeCore (log : Log.t) : option (string * string * string * Z) :=
  if isTransfer log then
    match decodeTopics log with
    | Normal (from, to, value) => Some (Log.address log, from, to, value)
    | Throw => None
    end
  else None.

Definition decodable (log : Log.t) : bool :=
  isTransfer log && bool_decide (is_Some (decodeCore log)).

(** A decoded transfer carries the scaled rendering of its own raw value. *)
Definition wellScaled (t : Transfer.t) : Prop :=
  Transfer.valueFormatted t =
    Ethers.formatUnits (Transfer.value t) (Transfer.decimals t).

(** The library renders the amount of the transfer with its decimals. *)
Definition inRange (t : Transfer.t) : Prop :=
  Ethers.representable (Transfer.value t) (Transfer.decimals t) = true.

(** The transfer a log decodes to when its amount is one the library
    renders: [None] for a log that is skipped whatever its token. *)
Definition decodeRanged (log : Log.t) : option (string * string * string * Z) :=
  match decodeCore log with
  | Some c => if Ethers.amountInRange c.2 then Some c else None
  | None => None
  end.

Definition ranged (log : Log.t) : bool :=
  bool_decide (is_Some (decodeRanged log)).

(** No token has more than 80 decimals, neither in the cache nor in the
    answers of the chain. *)
Definition decimalsBounded (w : World) : Prop :=
  (forall key info, tokenCache w !! key = Some info ->
                    (TokenInfo.decimals info <= 80)%nat) /\
  (forall n a d, readDecimals n a = Some d -> (d <= 80)%N).


(** The category as a function of the number of transfers and of whether
    the wallet sent and received. *)
Definition categoryOf (n : nat) (sent received : bool) : option string :=
  if (n <? 2)%nat then None
  else match sent, received with
       | true, true => Some "SWAP"%string
       | true, false => Some "SELL"%string
       | false, true => Some "BUY"%string
       | false, false => None
       end.

Definition sentParty (walletLower : string) (p : string * string) : bool :=
  bool_decide (JS.toLowerCase p.1 = walletLower).

Definition receivedParty (walletLower : string) (p : string * string) : bool :=
  bool_decide (JS.toLowerCase p.2 = walletLower).

(** Two logs that differ at most in the amount they carry: same emitter,
    same topics, and data that [BigInt] accepts in both or in neither. *)
Definition sameButAmount (l1 l2 : Log.t) : Prop :=
  Log.address l1 = Log.address l2 /\
  Log.topics l1 = Log.topics l2 /\
  (is_Some (BigInt (Log.data l1)) <-> is_Some (BigInt (Log.data l2))).

#[global] Instance sameButAmount_dec (l1 l2 : Log.t) : Decision (sameButAmount l1 l2).
Proof. unfold sameButAmount. apply _. Defined.

Definition partiesOfCore (c : string * string * string * Z) : string * string :=
  (c.1.1.2, c.1.2).

(** Whether a provider lookup produced a value. *)
Definition found {A} (f : Fetch A) : bool :=
  match f with
  | Found _ => true
  | Missing | Rejected => false
  end.

(** *** Notions used by the further properties *)

(** The test the callers apply before they notify
    ([checkWalletChanges] in tracker.js and the [/analyze] command):
    [analysis && (analysis.type === 'BUY' || analysis.type === 'SELL' ||
    analysis.type === 'SWAP')]. *)
Definition notifiable (analysis : option Analysis.t) : bool :=
  match analysis with
  | None => false
  | Some a =>
      bool_decide (Analysis.type a = "BUY"%string) ||
      bool_decide (Analysis.type a = "SELL"%string) ||
      bool_decide (Analysis.type a = "SWAP"%string)
  end.

(** The transfers the formatter reads for the type of the result are
    present. *)
Definition renderable (info : SwapInfo.t) : Prop :=
  (SwapInfo.type info = "BUY"%string /\ is_Some (SwapInfo.tokenBought info)) \/
  (SwapInfo.type info = "SELL"%string /\ is_Some (SwapInfo.tokenSold info)) \/
  (SwapInfo.type info = "SWAP"%string /\
   is_Some (SwapInfo.tokenIn info) /\ is_Some (SwapInfo.tokenOut info)).

(** The symbol, name and decimals a transfer displays. *)
Definition metadata (t : Transfer.t) : string * string * nat :=
  (Transfer.tokenSymbol t, Transfer.tokenName t, Transfer.decimals t).

Definition metadataOf (info : TokenInfo.t) : string * string * nat :=
  (TokenInfo.symbol info, TokenInfo.name info, TokenInfo.decimals info).

(** The receipt without the logs that are not transfer events. *)
Definition transferLogsOnly (receipt : Receipt.t) : Receipt.t :=
  Receipt.mk (List.filter isTransfer (Receipt.logs receipt))
             (Receipt.status receipt) (Receipt.gasUsed receipt).


(** A transfer whose token the constructor accepts displays the metadata
    held by the cache for that token. *)
Definition servedFrom (cache : gmap string TokenInfo.t) (t : Transfer.t) : Prop :=
  newContract (Transfer.tokenAddress t) = true ->
  exists info, cache !! JS.toLowerCase (Transfer.tokenAddress t) = Some info /\
               metadata t = metadataOf info.


(** *** The wallet registry ([WalletTracker]) and its storage ([Storage]) *)

(** Chat ids are JavaScript numbers.  They are used as [Map] keys, printed
    by [String] when they become object keys and read back by [Number]. *)
Context {Num : Type} `{EqDecision Num}.
Variable numberToString : Num -> string.
Variable stringToNumber : string -> Num.

(** [ethers.isAddress]. *)
Variable isAddress : string -> bool.

(** Save tracked wallets to file.  [now] is [new Date().toISOString()].
    A failing write is caught and leaves the file as it was. *)
Definition saveWallets (now : string)
    (watched : list (Num * list string)) (checked : list (string * Checked.t))
    (d : Disk) : Disk :=
  let data :=
    Saved.mk
      (fold_left (fun o e => JSObject.set (numberToString e.1) e.2 o) watched [])
      (fold_left (fun o e => JSObject.set e.1 e.2 o) checked [])
      now in
  if writable d then mkDisk (Some (Json data)) (writable d) else d.

(** Load tracked wallets from file: empty maps when the file is missing
    or cannot be used. *)
Definition loadWallets (d : Disk)
  : list (Num * list string) * list (string * Checked.t) :=
  match file d with
  | Some (Json data) =>
      (fold_left (fun m e => JSMap.set (stringToNumber e.1) (JSSet.ofList e.2) m)
                 (Saved.watchedWallets data) [],
       fold_left (fun m e => JSMap.set e.1 e.2 m) (Saved.lastChecked data) [])
  | Some Unusable | None => ([], [])
  end.

Definition loadData (t : Tracker Num) : Tracker Num :=
  let '(watched, checked) := loadWallets (disk t) in
  mkTracker watched checked (disk t).

Definition saveData (now : string) (t : Tracker Num) : Tracker Num :=
  mkTracker (watchedWallets t) (lastChecked t)
            (saveWallets now (watchedWallets t) (lastChecked t) (disk t)).

(** Add a wallet to track for a specific chat.  [Throw] is the error
    'Invalid Ethereum address'. *)
Definition addWallet (now : string) (chatId : Num) (address : string)
    (t : Tracker Num) : Completion string * Tracker Num :=
  if isAddress address then
    let normalizedAddress := JS.toLowerCase address in
    let watched :=
      if JSMap.has chatId (watchedWallets t) then watchedWallets t
      else JSMap.set chatId [] (watchedWallets t) in
    let addresses := default [] (JSMap.get chatId watched) in
    let watched' := JSMap.set chatId (JSSet.add normalizedAddress addresses) watched in
    (Normal normalizedAddress,
     saveData now (mkTracker watched' (lastChecked t) (disk t)))
  else (Throw, t).

(** Remove a wallet from tracking for a specific chat. *)
Definition removeWallet (now : string) (chatId : Num) (address : string)
    (t : Tracker Num) : bool * Tracker Num :=
  let normalizedAddress := JS.toLowerCase address in
  match JSMap.get chatId (watchedWallets t) with
  | Some addresses =>
      let addresses' := JSSet.delete normalizedAddress addresses in
      let watched := JSMap.set chatId addresses' (watchedWallets t) in
      let watched' :=
        if bool_decide (length addresses' = 0%nat) then JSMap.delete chatId watched
        else watched in
      (true, saveData now (mkTracker watched' (lastChecked t) (disk t)))
  | None => (false, t)
  end.

(** Get all wallets tracked by a specific chat. *)
Definition getWallets (chatId : Num) (t : Tracker Num) : list string :=
  default [] (JSMap.get chatId (watchedWallets t)).

(** Get all chats tracking a specific wallet. *)
Definition getChatsForWallet (address : string) (t : Tracker Num) : list Num :=
  let normalizedAddress := JS.toLowerCase address in
  fst <$> List.filter (fun e => JSSet.has normalizedAddress e.2) (watchedWallets t).

(** The addresses of all chats, each once: the local set built by
    [checkWalletChanges] and by [getSummary]. *)
Definition allAddresses (t : Tracker Num) : list string :=
  fold_left (fun all e => fold_left (fun s a => JSSet.add a s) e.2 all)
            (watchedWallets t) [].

(** Get summary of all tracked wallets. *)
Definition getSummary (t : Tracker Num) : Summary :=
  mkSummary (length (watchedWallets t)) (length (allAddresses t)).

(** The registry as a [Map] of [Set]s: one entry for each chat, no
    address twice in a chat. *)
Definition registryWf (watched : list (Num * list string)) : Prop :=
  NoDup watched.*1 /\ Forall (fun e => NoDup e.2) watched.

(** What [addWallet] and [removeWallet] keep: no chat is left with an
    empty set, and every address is in lower case. *)
Definition registryTidy (watched : list (Num * list string)) : Prop :=
  Forall (fun e => e.2 <> [] /\ Forall (fun a => JS.toLowerCase a = a) e.2) watched.

(** What [String] and [Number] do with a chat id: the text is read back
    as the same number, and it is the text of a number, not [__proto__]. *)
Definition numberText (chatId : Num) : Prop :=
  stringToNumber (numberToString chatId) = chatId /\
  numberToString chatId <> "__proto__"%string.


(** *** Finding the latest transactions ([BlockchainService]) *)

(** [parseInt(text, 16)] on the block numbers of the API, which are
    hexadecimal numerals: the result is a number, never [NaN]. *)
Variable parseInt16 : string -> Z.

(** The network during one poll: [provider.getBlockNumber()], the two
    [alchemy_getAssetTransfers] requests (from block, address, maximal
    count) and the BaseScan request (address, limit).  [None] is a request
    that fails or an answer the code cannot read, which makes it raise;
    an Alchemy answer may lack its [transfers] array. *)
Variable getBlockNumber : option Z.
Variable alchemySent : Z -> string -> Z -> option (option (list AssetTransfer.t)).
Variable alchemyReceived : Z -> string -> Z -> option (option (list AssetTransfer.t)).
Variable basescanConfigured : bool.
Variable basescanTxList : string -> Z -> option TxList.t.

(** The block number of the first transfer with the given hash; a hash
    that no transfer has makes the code raise. *)
Definition blockOf (allTransfers : list AssetTransfer.t) (hash : string) : option Z :=
  match List.find (fun t => bool_decide (AssetTransfer.hash t = hash)) allTransfers with
  | Some transfer => Some (parseInt16 (AssetTransfer.blockNum transfer))
  | None => None
  end.

(** [h] is in a block at least as recent as the block of [h']. *)
Definition noOlder (allTransfers : list AssetTransfer.t) (h h' : string) : Prop :=
  exists n n', blockOf allTransfers h = Some n /\
               blockOf allTransfers h' = Some n' /\ n' <= n.

(** Combine and deduplicate the hashes, sort by block number (most recent
    first) and take the limit. *)
Definition latestHashes (limit : Z) (allTransfers : list AssetTransfer.t) : list string :=
  let uniqueHashes := JSSet.ofList (AssetTransfer.hash <$> allTransfers) in
  match mapM (fun hash => pair hash <$> blockOf allTransfers hash) uniqueHashes with
  | Some items => fst <$> JSArray.sliceTo limit (JSArray.sortDesc snd items)
  | None => []
  end.

(** Get latest transaction hashes using Alchemy's getAssetTransfers API.
    Any failure is caught and gives the empty list. *)
Definition getTransactionHashesFromAlchemy (address : string) (limit : Z) : list string :=
  match getBlockNumber with
  | None => []
  | Some currentBlock =>
      let fromBlock := Z.max 0 (currentBlock - 100) in
      let maxCount := Z.min (limit * 2) 100 in
      match alchemySent fromBlock address maxCount with
      | None => []
      | Some sentTxs =>
          match alchemyReceived fromBlock address maxCount with
          | None => []
          | Some receivedTxs =>
              latestHashes limit (default [] sentTxs ++ default [] receivedTxs)
          end
      end
  end.

(** Get latest transaction hashes for an address: BaseScan first, when a
    key is configured and it answers with status '1' and an array;
    otherwise Alchemy. *)
Definition getLatestTransactionHashes (address : string) (limit : Z) : list string :=
  let fallback := getTransactionHashesFromAlchemy address limit in
  if basescanConfigured then
    match basescanTxList address limit with
    | Some data =>
        if bool_decide (TxList.status data = "1"%string) then
          match TxList.result data with
          | Some hashes => hashes
          | None => fallback
          end
        else fallback
    | None => fallback
    end
  else fallback.


(** *** Polling the tracked wallets ([checkWalletChanges]) *)

(** [provider.getBalance] and [provider.getTransactionCount] during one
    poll; [None] is a request that fails. *)
Variable providerBalance : string -> option Z.
Variable providerTransactionCount : string -> option Z.

(** Get ETH balance for an address; an error is logged and raised again. *)
Definition getBalance (address : string) : Completion string :=
  match providerBalance address with
  | Some balance => Normal (Ethers.formatEther balance)
  | None => Throw
  end.

(** Get transaction count (nonce) for an address. *)
Definition getTransactionCount (address : string) : Completion Z :=
  match providerTransactionCount address with
  | Some count => Normal count
  | None => Throw
  end.

(** [BlockchainService.analyzeTransaction]: the analysis of [TokenUtils]
    inside a [try]; an error would give [null]. *)
Definition Blockchain_analyzeTransaction (txHash walletAddress : string)
  : M (option Analysis.t) :=
  analyzeTransaction txHash walletAddress.

(** Notify all chats tracking this wallet.  The callback calls are
    recorded; the callback returns (the one installed by [bot.js] starts
    [sendWalletNotification] and does not wait for it). *)
Definition notifyChats (address : string) (analysis : Analysis.t) (p : Poll Num) : Poll Num :=
  mkPoll (tracker p) (world p)
         (outbox p ++
          ((fun chatId => mkNotification chatId address analysis)
             <$> getChatsForWallet address (tracker p)))
         (hasChanges p).

(** The body of the loop over the new transaction hashes. *)
Definition analyzeHash (address : string) (p : Poll Num) (txHash : string) : Poll Num :=
  let '(analysis, w') := Blockchain_analyzeTransaction txHash address (world p) in
  let p' := mkPoll (tracker p) w' (outbox p) (hasChanges p) in
  match analysis with
  | Some a => if notifiable analysis then notifyChats address a p' else p'
  | None => p'
  end.

(** [txCountChange || 1]. *)
Definition hashLimit (txCountChange : Z) : Z :=
  if txCountChange =? 0 then 1 else txCountChange.

(** What is done with a fresh observation of an address: when it differs
    from the last one, the latest transactions are analysed and
    [hasChanges] is set; a first observation is only stored (below). *)
Definition analyzeChanges (p : Poll Num) (address balance : string) (txCount : Z)
  : Poll Num :=
  match JSMap.get address (lastChecked (tracker p)) with
  | Some lastData =>
      let balanceChanged :=
        negb (bool_decide (Checked.balance lastData = balance)) in
      let txCountChanged :=
        negb (bool_decide (Checked.txCount lastData = txCount)) in
      if balanceChanged || txCountChanged then
        let txCountChange := txCount - Checked.txCount lastData in
        let txHashes :=
          getLatestTransactionHashes address (hashLimit txCountChange) in
        let p' := fold_left (analyzeHash address) txHashes p in
        mkPoll (tracker p') (world p') (outbox p') true
      else p
  | None => p
  end.

(** The body of the loop over the tracked addresses.  An error while
    reading the balance or the count is caught: the address is left as it
    was. *)
Definition checkAddress (p : Poll Num) (address : string) : Poll Num :=
  match getBalance address with
  | Throw => p
  | Normal balance =>
      match getTransactionCount address with
      | Throw => p
      | Normal txCount =>
          let p1 := analyzeChanges p address balance txCount in
          mkPoll (mkTracker (watchedWallets (tracker p1))
                            (JSMap.set address (Checked.mk balance txCount)
                                       (lastChecked (tracker p1)))
                            (disk (tracker p1)))
                 (world p1) (outbox p1) (hasChanges p1)
      end
  end.

(** Check for changes in tracked wallets: one run, from a tracker and a
    token cache, with no callback call yet. *)
Definition checkWalletChanges (now : string) (t : Tracker Num) (w : World) : Poll Num :=
  let p := fold_left checkAddress (allAddresses t) (mkPoll t w [] false) in
  if hasChanges p
  then mkPoll (saveData now (tracker p)) (world p) (outbox p) (hasChanges p)
  else p.

(** *** Sending a notification ([sendWalletNotification]) *)

(** [config.channelId], when it is set, and the outcome of the
    [sendMessage] calls: whether the call made after [n] earlier calls
    delivers its message. *)
Variable channelId : option string.
Variable sendMessage : nat -> Target Num -> string -> bool.

(** [`${address.slice(0, 6)}...${address.slice(-4)}`]. *)
Definition shortAddress (address : string) : string :=
  JSText.slice 0 6 address +:+ "..." +:+ JSText.sliceFrom (-4) address.

(** One [await this.bot.sendMessage(target, text)]: the message is
    recorded when it is delivered. *)
Definition trySend (target : Target Num) (text : string) (tg : Telegram Num)
  : bool * Telegram Num :=
  if sendMessage (attempts tg) target text
  then (true, mkTelegram (delivered tg ++ [(target, text)]) (S (attempts tg)))
  else (false, mkTelegram (delivered tg) (S (attempts tg))).

(** Send notification about wallet changes.  [Throw] is an error of the
    formatter, which this function does not catch. *)
Definition sendWalletNotification (chatId : Num) (address : string)
    (transaction : option Analysis.t) (tg : Telegram Num) : Completion (Telegram Num) :=
  match transaction with
  | None => Normal tg
  | Some _ =>
      match formatTransactionSummary transaction (Some (shortAddress address)) with
      | Throw => Throw
      | Normal None => Normal tg
      | Normal (Some summary) =>
          if bool_decide (summary = ""%string) then Normal tg
          else
            let '(ok, tg1) := trySend (ToChat chatId) summary tg in
            if ok then
              match channelId with
              | Some channel => Normal (trySend (ToChannel channel) summary tg1).2
              | None => Normal tg1
              end
            else Normal tg1
      end
  end.


(** What one analysed hash may add: callback calls about the address,
    to chats that track it, carrying a renderable analysis. *)
Definition routedFor (t : Tracker Num) (address : string) (n : Notification Num) : Prop :=
  aboutAddress n = address /\
  toChat n ∈ getChatsForWallet address t /\
  renderable (Analysis.swap (transaction n)).

(** A callback call made for a wallet of the tracker: it is about a
    polled address, goes to a chat that tracks it, and carries an analysis
    that the callers' test accepts and the formatter renders. *)
Definition wellRouted (t : Tracker Num) (n : Notification Num) : Prop :=
  aboutAddress n ∈ allAddresses t /\
  toChat n ∈ getChatsForWallet (aboutAddress n) t /\
  notifiable (Some (transaction n)) = true /\
  exists text,
    formatTransactionSummary (Some (transaction n))
      (Some (shortAddress (aboutAddress n))) = Normal (Some text).

(** What a poll observes of an address, when both reads succeed. *)
Definition observation (address : string) : option Checked.t :=
  match providerBalance address, providerTransactionCount address with
  | Some balance, Some count => Some (Checked.mk (Ethers.formatEther balance) count)
  | _, _ => None
  end.

(** The address shows nothing new: a read fails, or it is seen for the
    first time, or balance and count are those of the last check. *)
Definition unchanged (checked : list (string * Checked.t)) (address : string) : Prop :=
  match observation address, JSMap.get address checked with
  | Some seen, Some lastData => lastData = seen
  | _, _ => True
  end.


(** * Properties *)

(** ** Exactness of the scaled value *)

Section Rendering.

Import Ethers.

Local Open Scope N_scope.

Lemma digit_value_char (d : N) : d < 10 -> digit_value (JS.digit_char d) = Some d.
Proof.
  intros Hd. unfold digit_value, JS.digit_char.
  rewrite N_ascii_embedding by lia.
  destruct (N.leb_spec 48 (48 + d)); [|lia].
  destruct (N.leb_spec (48 + d) 57); [|lia].
  cbn. f_equal. lia.
Qed.

Lemma number_of_app (xs ys : list ascii) :
  forall acc, number_of acc (xs ++ ys) = number_of acc xs ≫= fun a => number_of a ys.
Proof.
  induction xs as [|c xs IH]; intros acc; cbn; [done|].
  destruct (digit_value c); [apply IH|done].
Qed.

(** The accumulator only shifts the value read. *)
Lemma number_of_shift (ds : list ascii) :
  forall acc,
    number_of acc ds =
      (fun n => acc * 10 ^ N.of_nat (length ds) + n) <$> number_of 0 ds.
Proof.
  induction ds as [|c ds IH]; intros acc; cbn [number_of length].
  - cbn. f_equal. lia.
  - destruct (digit_value c) as [d|]; [|done].
    rewrite (IH (10 * acc + d)), (IH (10 * 0 + d)).
    destruct (number_of 0 ds) as [n|]; [|done]. cbn. f_equal.
    rewrite Nat2N.inj_succ, N.pow_succ_r'. lia.
Qed.

Lemma number_of_zeros (k : nat) (ds : list ascii) :
  number_of 0 (replicate k zero_char ++ ds) = number_of 0 ds.
Proof. induction k as [|k IH]; cbn; [done|]. exact IH. Qed.

Lemma number_of_split (xs ys : list ascii) (n : N) :
  number_of 0 (xs ++ ys) = Some n ->
  exists a b, number_of 0 xs = Some a /\ number_of 0 ys = Some b /\
              n = a * 10 ^ N.of_nat (length ys) + b.
Proof.
  rewrite number_of_app. destruct (number_of 0 xs) as [a|]; [|done]. cbn.
  rewrite number_of_shift. destruct (number_of 0 ys) as [b|]; [|done]. cbn.
  intros [= <-]. eauto.
Qed.

(** The digits printed for [n] read back as [n]. *)
Lemma digits_go_spec (fuel : nat) :
  forall n acc, n < 10 * 2 ^ N.of_nat fuel ->
    exists ds, JS.digits_go fuel n acc = ds ++ acc /\
               ds <> [] /\ number_of 0 ds = Some n.
Proof.
  induction fuel as [|fuel IH]; intros n acc Hn.
  - exists [JS.digit_char n]. cbn [JS.digits_go].
    change (2 ^ N.of_nat 0) with 1 in Hn.
    rewrite N.mod_small by lia. split; [done|]. split; [done|].
    cbn. rewrite digit_value_char by lia. done.
  - cbn [JS.digits_go].
    pose proof (N.mod_lt n 10 ltac:(lia)) as Hmod.
    pose proof (N.div_mod n 10 ltac:(lia)) as Hdiv.
    destruct (N.eqb_spec (n / 10) 0) as [Hz|Hnz].
    + exists [JS.digit_char (n mod 10)]. split; [done|]. split; [done|].
      cbn. rewrite digit_value_char by lia. f_equal. lia.
    + rewrite Nat2N.inj_succ, N.pow_succ_r' in Hn.
      destruct (IH (n / 10) (JS.digit_char (n mod 10) :: acc)) as (ds & -> & _ & Hds).
      { apply N.Div0.div_lt_upper_bound. lia. }
      exists (ds ++ [JS.digit_char (n mod 10)]).
      rewrite <- app_assoc. split; [done|]. split; [by destruct ds|].
      rewrite number_of_app, Hds. cbn.
      rewrite digit_value_char by lia. f_equal. lia.
Qed.

Lemma digits_spec (n : N) : JS.digits n <> [] /\ number_of 0 (JS.digits n) = Some n.
Proof.
  unfold JS.digits.
  destruct (digits_go_spec (N.to_nat (N.log2 n)) n []) as (ds & -> & Hne & Hds).
  - rewrite N2Nat.id. destruct n as [|p]; [done|].
    pose proof (N.log2_spec (N.pos p) ltac:(lia)) as [_ Hlt].
    rewrite N.pow_succ_r' in Hlt. lia.
  - by rewrite app_nil_r.
Qed.

Lemma trim_leading_spec (ds : list ascii) :
  exists j, ds = replicate j zero_char ++ trim_leading ds /\
            (ds <> [] -> trim_leading ds <> []).
Proof.
  induction ds as [|c r IH]; [by exists 0%nat|].
  destruct r as [|c' r']; [by exists 0%nat|].
  change (trim_leading (c :: c' :: r'))
    with (if Ascii.eqb c zero_char then trim_leading (c' :: r') else c :: c' :: r').
  destruct (Ascii.eqb_spec c zero_char) as [->|_].
  - destruct IH as (j & Heq & Hne). exists (S j). cbn [replicate app].
    split; [by rewrite <- Heq|]. intros _. by apply Hne.
  - by exists 0%nat.
Qed.

Lemma rev_replicate {A} (j : nat) (x : A) : rev (replicate j x) = replicate j x.
Proof.
  induction j as [|j IH]; cbn; [done|].
  rewrite IH. clear IH. induction j as [|j IH]; cbn; [done|]. by rewrite IH.
Qed.

Lemma trim_trailing_spec (ds : list ascii) :
  exists j, ds = trim_trailing ds ++ replicate j zero_char /\
            (ds <> [] -> trim_trailing ds <> []).
Proof.
  unfold trim_trailing.
  destruct (trim_leading_spec (rev ds)) as (j & Heq & Hne).
  exists j. split.
  - rewrite <- (rev_involutive ds) at 1. rewrite Heq at 1.
    by rewrite rev_app_distr, rev_replicate.
  - intros Hds Hnil. apply Hne.
    + intros Hrev. apply Hds. by rewrite <- (rev_involutive ds), Hrev.
    + by rewrite <- (rev_involutive (trim_leading (rev ds))), Hnil.
Qed.

Lemma number_of_trim_leading (ds : list ascii) :
  number_of 0 (trim_leading ds) = number_of 0 ds.
Proof.
  destruct (trim_leading_spec ds) as (j & Heq & _).
  rewrite Heq at 2. by rewrite number_of_zeros.
Qed.

(** Digits contain no decimal point. *)
Lemma split_point_digits (ds rest : list ascii) (acc : N) :
  is_Some (number_of acc ds) ->
  split_point (ds ++ rest) = ((ds ++ (split_point rest).1), (split_point rest).2).
Proof.
  revert acc. induction ds as [|c r IH]; intros acc Hsome; cbn.
  - by destruct (split_point rest).
  - cbn in Hsome. destruct (digit_value c) as [d|] eqn:Hd; [|by destruct Hsome].
    destruct (Ascii.eqb_spec c dot_char) as [->|_]; [discriminate|].
    by rewrite (IH _ Hsome).
Qed.

Lemma decimalValue_whole (w : list ascii) (a : N) :
  w <> [] -> number_of 0 w = Some a ->
  decimalValue (string_of_list_ascii w) = Some (inject_Z (Z.of_N a)).
Proof.
  intros Hw Ha. unfold decimalValue.
  rewrite list_ascii_of_string_of_list_ascii.
  rewrite <- (app_nil_r w), (split_point_digits w [] 0) by (rewrite Ha; eauto).
  cbn [split_point fst snd]. rewrite app_nil_r.
  destruct w; [done|]. by rewrite Ha.
Qed.

Lemma decimalValue_fraction (w fr : list ascii) (a b : N) :
  w <> [] -> fr <> [] -> number_of 0 w = Some a -> number_of 0 fr = Some b ->
  decimalValue (string_of_list_ascii (w ++ dot_char :: fr)) =
    Some (Qmake (Z.of_N a * 10 ^ Z.of_nat (length fr) + Z.of_N b)
                (Z.to_pos (10 ^ Z.of_nat (length fr)))).
Proof.
  intros Hw Hfr Ha Hb. unfold decimalValue.
  rewrite list_ascii_of_string_of_list_ascii.
  rewrite (split_point_digits w _ 0) by (rewrite Ha; eauto).
  cbn [split_point fst snd]. rewrite Ascii.eqb_refl. cbn [fst snd].
  rewrite app_nil_r. destruct w; [done|]. destruct fr; [done|].
  by rewrite Ha, Hb.
Qed.

(** The digits placed around the point: the integer part [a] and a
    fraction [b] over [10^f], with [n * 10^f = (a * 10^f + b) * 10^d]
    after the trailing zeros are dropped. *)
Lemma fixed_digits_spec (n : N) (d : nat) :
  exists w fr a b,
    fixed_digits n (S d) = w ++ dot_char :: fr /\
    w <> [] /\ fr <> [] /\
    number_of 0 w = Some a /\ number_of 0 fr = Some b /\
    (a * 10 ^ N.of_nat (length fr) + b) * 10 ^ N.of_nat (S d)
      = n * 10 ^ N.of_nat (length fr).
Proof.
  destruct (digits_spec n) as [Hne Hval].
  unfold fixed_digits. cbv zeta.
  set (ds := pad_whole (S d) (JS.digits n)).
  assert (Hds : number_of 0 ds = Some n) by (unfold ds, pad_whole; by rewrite number_of_zeros).
  assert (Hlen : (S (S d) <= length ds)%nat).
  { unfold ds, pad_whole. rewrite length_app, length_replicate. lia. }
  set (index := (length ds - S d)%nat).
  rewrite <- (take_drop index ds) in Hds.
  destruct (number_of_split _ _ _ Hds) as (a & b & Ha & Hb & Hn).
  assert (Hfl : length (drop index ds) = S d) by (rewrite length_drop; lia).
  assert (Hwl : length (take index ds) = index) by (rewrite length_take; lia).
  destruct (trim_leading_spec (take index ds)) as (_ & _ & Hwne).
  destruct (trim_trailing_spec (drop index ds)) as (j & Hfeq & Hfne).
  rewrite Hfeq in Hb. destruct (number_of_split _ _ _ Hb) as (b' & z & Hb' & Hz & Hbz).
  rewrite <- (app_nil_r (replicate j zero_char)), number_of_zeros in Hz.
  injection Hz as <-.
  exists (trim_leading (take index ds)), (trim_trailing (drop index ds)), a, b'.
  split; [done|]. split.
  { apply Hwne. intros Hnil. rewrite Hnil in Hwl. cbn in Hwl. lia. }
  split.
  { apply Hfne. intros Hnil. rewrite Hnil in Hfl. cbn in Hfl. lia. }
  split; [by rewrite number_of_trim_leading|]. split; [done|].
  rewrite length_replicate in Hbz.
  assert (Hd : N.of_nat (S d) = N.of_nat (length (trim_trailing (drop index ds))) + N.of_nat j).
  { rewrite <- Hfl. rewrite Hfeq at 1. rewrite length_app, length_replicate. lia. }
  rewrite Hfl in Hn. rewrite Hn, Hbz, Hd, N.pow_add_r. ring.
Qed.

(** The rendering of a non-negative amount reads back as the amount
    divided by [10^decimals], exactly. *)
Lemma formatUnits_exact (n : N) (d : nat) :
  exists q, decimalValue (formatUnits (Z.of_N n) d) = Some q /\
            (q * inject_Z (10 ^ Z.of_nat d) == inject_Z (Z.of_N n))%Q.
Proof.
  unfold formatUnits. rewrite Zabs2N.id.
  destruct (Z.ltb_spec (Z.of_N n) 0) as [Hneg|_]; [lia|].
  destruct d as [|d].
  - destruct (digits_spec n) as [Hne Hval].
    eexists. split; [exact (decimalValue_whole _ _ Hne Hval)|].
    change (10 ^ Z.of_nat 0)%Z with 1%Z. apply Qmult_1_r.
  - destruct (fixed_digits_spec n d) as (w & fr & a & b & -> & Hw & Hfr & Ha & Hb & Heq).
    eexists. split; [exact (decimalValue_fraction _ _ _ _ Hw Hfr Ha Hb)|].
    unfold Qeq, Qmult, inject_Z. cbn [Qnum Qden].
    rewrite Pos.mul_1_r, Z.mul_1_r, Z2Pos.id by (apply Z.pow_pos_nonneg; lia).
    apply (f_equal Z.of_N) in Heq.
    rewrite !N2Z.inj_mul, N2Z.inj_add, N2Z.inj_mul, !N2Z.inj_pow in Heq.
    rewrite !nat_N_Z in Heq. exact Heq.
Qed.

End Rendering.

(** ** The summary formatter *)

(** The three rendering branches never produce [null]. *)
Lemma format_actionable_not_null (a : Analysis.t) (w : option string) :
  actionable (Analysis.type a) -> formatTransactionSummary (Some a) w <> Normal None.
Proof.
  intros Hact. unfold formatTransactionSummary.
  repeat case_bool_decide;
    try (destruct Hact as [?|[?|?]]; congruence);
    unfold try_bind, required;
    repeat (match goal with |- context [match ?x with _ => _ end] => destruct x end);
    discriminate.
Qed.

(** C2: for every non-null analysis whose [type] is neither BUY, SELL nor
    SWAP, the formatter completes normally and returns [null], the signal
    that no notification is to be sent, whatever the other fields hold. *)
Theorem formatTransactionSummary_other_type (a : Analysis.t) (w : option string) :
  Analysis.type a <> "BUY"%string ->
  Analysis.type a <> "SELL"%string ->
  Analysis.type a <> "SWAP"%string ->
  formatTransactionSummary (Some a) w = Normal None.
Proof.
  intros Hbuy Hsell Hswap. unfold formatTransactionSummary.
  rewrite !bool_decide_eq_false_2 by assumption. reflexivity.
Qed.

(** C10: for the null analysis the formatter returns the string
    'Unable to analyze transaction', not [null]; and whenever it returns
    [null] the analysis is a non-null one whose type is not actionable. *)
Theorem formatTransactionSummary_null (w : option string) :
  formatTransactionSummary None w = Normal (Some "Unable to analyze transaction"%string) /\
  (forall analysis, formatTransactionSummary analysis w = Normal None ->
     exists a, analysis = Some a /\ ~ actionable (Analysis.type a)).
Proof.
  split; [reflexivity|].
  intros [a|] Hnull; [|discriminate].
  exists a. split; [reflexivity|].
  intros Hact. exact (format_actionable_not_null a w Hact Hnull).
Qed.

(** ** Resolver, decoder and classifier *)

(** *** The metadata resolver *)

Lemma resolve_cached (a : string) (w : World) (info : TokenInfo.t) :
  tokenCache w !! JS.toLowerCase a = Some info -> getTokenInfo a w = (info, w).
Proof. intros H. unfold getTokenInfo. rewrite H. reflexivity. Qed.

Lemma resolve_rejected (a : string) (w : World) :
  tokenCache w !! JS.toLowerCase a = None -> newContract a = false ->
  getTokenInfo a w = (sentinel a, w).
Proof. intros Hc Hn. unfold getTokenInfo. rewrite Hc, Hn. reflexivity. Qed.

Lemma resolve_fresh (a : string) (w : World) :
  tokenCache w !! JS.toLowerCase a = None -> newContract a = true ->
  exists info,
    getTokenInfo a w =
      (info, mkWorld (<[JS.toLowerCase a := info]> (tokenCache w)) (reads w + 3)).
Proof. intros Hc Hn. unfold getTokenInfo. rewrite Hc, Hn. eauto. Qed.

(** C7: resolving the same address twice returns the same token
    description, and the second call issues no read and leaves the state
    as the first call left it; this covers the defaults taken for rejected
    reads (they are cached) and the fallback of the [catch] branch. *)
Theorem getTokenInfo_twice (a : string) (w : World) :
  let first := getTokenInfo a w in
  let second := getTokenInfo a first.2 in
  second.1 = first.1 /\ reads second.2 = reads first.2 /\ second.2 = first.2.
Proof.
  cbn zeta.
  destruct (tokenCache w !! JS.toLowerCase a) as [cached|] eqn:Hc.
  - rewrite (resolve_cached a w cached Hc). cbn.
    rewrite (resolve_cached a w cached Hc). done.
  - destruct (newContract a) eqn:Hn.
    + destruct (resolve_fresh a w Hc Hn) as [info ->]. cbn.
      rewrite (resolve_cached a _ info (lookup_insert_eq _ _ _)). done.
    + rewrite (resolve_rejected a w Hc Hn). cbn.
      rewrite (resolve_rejected a w Hc Hn). done.
Qed.

(** A resolved token is served from the cache under the lower-cased key. *)
Lemma resolve_fills_cache (a : string) (w : World) :
  newContract a = true ->
  tokenCache (getTokenInfo a w).2 !! JS.toLowerCase a = Some (getTokenInfo a w).1.
Proof.
  intros Hn. unfold getTokenInfo.
  destruct (tokenCache w !! JS.toLowerCase a) eqn:Hc; cbn; [done|].
  rewrite Hn. cbn. apply lookup_insert_eq.
Qed.

(** *** The transfer log decoder *)

Lemma decodeCore_no_match (log : Log.t) :
  isTransfer log = false -> decodeCore log = None.
Proof. intros H. unfold decodeCore. rewrite H. reflexivity. Qed.

(** One iteration either skips the log, leaving the list alone, or
    appends exactly the transfer decoded from the log, which the library
    renders.  A log is skipped without a change of state when it does not
    decode, and after the resolution of its token when the library refuses
    its amount. *)
Lemma parseOne_cases (log : Log.t) (acc : list Transfer.t) (w : World) :
  (decodeCore log = None /\
   exists r, parseLog log acc w = (r, w) /\ (r = Throw \/ r = Normal acc)) \/
  (exists c, decodeCore log = Some c /\
     Ethers.representable c.2
       (TokenInfo.decimals (getTokenInfo (Log.address log) w).1) = false /\
     parseLog log acc w = (Throw, (getTokenInfo (Log.address log) w).2)) \/
  (exists t, decodeCore log = Some (core t) /\
     parseLog log acc w = (Normal (acc ++ [t]), (getTokenInfo (Log.address log) w).2) /\
     Transfer.decimals t = TokenInfo.decimals (getTokenInfo (Log.address log) w).1 /\
     wellScaled t /\ inRange t).
Proof.
  unfold parseLog, decodeCore.
  destruct (isTransfer log); [|left; eauto].
  destruct (decodeTopics log) as [[[from to] value]|]; [|left; eauto].
  right. unfold bind, ret.
  destruct (getTokenInfo (Log.address log) w) as [info w']. cbn [fst snd].
  destruct (Ethers.representable value (TokenInfo.decimals info)) eqn:Hr.
  - right. eexists. split; [|split; [reflexivity|]]; [reflexivity|].
    split; [reflexivity|]. split; [reflexivity|exact Hr].
  - left. eexists. split; [reflexivity|]. split; [exact Hr|reflexivity].
Qed.

Lemma loop_spec (logs : list Log.t) :
  forall (acc : list Transfer.t) (w : World),
  exists new, (parseLoop logs acc w).1 = acc ++ new /\
    core <$> new `sublist_of` omap decodeCore logs /\
    Forall wellScaled new /\ Forall inRange new.
Proof.
  induction logs as [|log rest IH]; intros acc w; cbn.
  - exists []. by rewrite app_nil_r.
  - unfold bind.
    destruct (parseOne_cases log acc w)
      as [[Hnone (r & -> & [-> | ->])]
         | [(c & Hsome & _ & ->) | (t & Hsome & -> & _ & Hscaled & Hrange)]].
    + rewrite Hnone. apply IH.
    + rewrite Hnone. apply IH.
    + rewrite Hsome. destruct (IH acc (getTokenInfo (Log.address log) w).2)
        as (new & Heq & Hsub & Hall).
      exists new. split; [done|]. split; [by apply sublist_cons|done].
    + rewrite Hsome.
      destruct (IH (acc ++ [t]) (getTokenInfo (Log.address log) w).2)
        as (new & Heq & Hsub & Hall & Hin).
      exists (t :: new). rewrite Heq, <- app_assoc. cbn.
      split; [done|]. split; [by apply sublist_skip|].
      split; by constructor.
Qed.

Lemma parse_spec (receipt : Receipt.t) (w : World) :
  core <$> (parseTransferEvents receipt w).1
    `sublist_of` omap decodeCore (Receipt.logs receipt) /\
  Forall wellScaled (parseTransferEvents receipt w).1 /\
  Forall inRange (parseTransferEvents receipt w).1.
Proof.
  unfold parseTransferEvents.
  destruct (loop_spec (Receipt.logs receipt) [] w) as (new & -> & Hcore & Hall).
  done.
Qed.

(** With at most 80 decimals everywhere, every resolution gives at most
    80 decimals and keeps the state so. *)
Lemma resolve_bounded (a : string) (w : World) :
  decimalsBounded w ->
  (TokenInfo.decimals (getTokenInfo a w).1 <= 80)%nat /\
  decimalsBounded (getTokenInfo a w).2.
Proof.
  intros [Hcache Hchain]. unfold getTokenInfo.
  destruct (tokenCache w !! JS.toLowerCase a) as [cached|] eqn:Hc.
  - split; [exact (Hcache _ _ Hc)|by split].
  - destruct (newContract a); cbn; [|split; [lia|by split]].
    assert (Hd : (N.to_nat (default 18%N (readDecimals (reads w + 2) a)) <= 80)%nat).
    { destruct (readDecimals (reads w + 2) a) as [d|] eqn:Hr; cbn; [|lia].
      pose proof (Hchain _ _ _ Hr). lia. }
    split; [exact Hd|]. split; [|exact Hchain].
    intros key info. cbn. intros Hl.
    apply lookup_insert_Some in Hl as [[_ <-]|[_ Hl]]; [exact Hd|exact (Hcache _ _ Hl)].
Qed.

(** With at most 80 decimals everywhere, the logs that are kept are those
    that decode with an amount in range. *)
Lemma loop_ranged (logs : list Log.t) :
  forall (acc : list Transfer.t) (w : World),
  decimalsBounded w ->
  exists new, (parseLoop logs acc w).1 = acc ++ new /\
    core <$> new = omap decodeRanged logs.
Proof.
  induction logs as [|log rest IH]; intros acc w Hb; cbn.
  - exists []. by rewrite app_nil_r.
  - unfold bind. unfold decodeRanged at 1.
    destruct (resolve_bounded (Log.address log) w Hb) as [Hd Hb'].
    destruct (parseOne_cases log acc w)
      as [[Hnone (r & -> & [-> | ->])]
         | [(c & Hsome & Hr & ->) | (t & Hsome & -> & Hdec & _ & Hrange)]].
    + rewrite Hnone. by apply IH.
    + rewrite Hnone. by apply IH.
    + rewrite Hsome. unfold Ethers.representable in Hr.
      rewrite (proj2 (Nat.leb_le _ _) Hd) in Hr. cbn in Hr. rewrite Hr.
      by apply IH.
    + rewrite Hsome. unfold inRange, Ethers.representable in Hrange.
      apply andb_true_iff in Hrange as [_ Hrange].
      change (core t).2 with (Transfer.value t). rewrite Hrange.
      destruct (IH (acc ++ [t]) _ Hb') as (new & Heq & Hcore).
      exists (t :: new). rewrite Heq, <- app_assoc. cbn. by rewrite Hcore.
Qed.

Lemma parse_ranged (receipt : Receipt.t) (w : World) :
  decimalsBounded w ->
  core <$> (parseTransferEvents receipt w).1 = omap decodeRanged (Receipt.logs receipt).
Proof.
  intros Hb. unfold parseTransferEvents.
  by destruct (loop_ranged (Receipt.logs receipt) [] w Hb) as (new & -> & Hcore).
Qed.

Lemma omap_length_filter {A B} (f : A -> option B) (l : list A) :
  length (omap f l) = length (List.filter (fun a => bool_decide (is_Some (f a))) l).
Proof.
  induction l as [|a l IH]; cbn; [done|].
  destruct (f a) eqn:Hf; cbn; by rewrite IH.
Qed.

Lemma decodable_alt (log : Log.t) :
  decodable log = bool_decide (is_Some (decodeCore log)).
Proof.
  unfold decodable. destruct (isTransfer log) eqn:Hm; [done|].
  by rewrite (decodeCore_no_match log Hm).
Qed.

Lemma filter_decodable_le (logs : list Log.t) :
  (length (List.filter decodable logs) <= length (List.filter isTransfer logs))%nat.
Proof.
  induction logs as [|log rest IH]; cbn; [lia|].
  unfold decodable at 1. destruct (isTransfer log); cbn; [|lia].
  destruct (bool_decide _); cbn; lia.
Qed.

Lemma omap_filter_matches (logs : list Log.t) :
  omap decodeCore (List.filter isTransfer logs) = omap decodeCore logs.
Proof.
  induction logs as [|log rest IH]; cbn; [done|].
  destruct (isTransfer log) eqn:Hm; cbn.
  - by rewrite IH.
  - by rewrite (decodeCore_no_match log Hm).
Qed.

(** C6 (amended): the decoder is total (it never raises); removing the
    logs whose first topic is not the transfer signature does not change
    what can be decoded; the decoded transfers are, in log order, among
    those of the logs that match the signature and whose topics and data
    decode, and each has an amount that the library renders with the
    decimals of its token; so their number is at most the number of logs
    that match and decode, itself at most the number of matching logs.
    When no token has more than 80 decimals, the decoded transfers are
    exactly those of the logs that decode with an amount in range. *)
Theorem parseTransferEvents_decodes (receipt : Receipt.t) (w : World) :
  let transfers := (parseTransferEvents receipt w).1 in
  let logs := Receipt.logs receipt in
  core <$> transfers `sublist_of` omap decodeCore logs /\
  omap decodeCore logs = omap decodeCore (List.filter isTransfer logs) /\
  Forall inRange transfers /\
  (length transfers <= length (List.filter decodable logs))%nat /\
  (length (List.filter decodable logs) <= length (List.filter isTransfer logs))%nat /\
  (decimalsBounded w ->
     core <$> transfers = omap decodeRanged logs /\
     length transfers = length (List.filter ranged logs)).
Proof.
  cbn zeta. destruct (parse_spec receipt w) as (Hcore & _ & Hrange).
  split; [exact Hcore|]. split; [symmetry; apply omap_filter_matches|].
  split; [exact Hrange|]. split; [|split; [apply filter_decodable_le|]].
  - apply sublist_length in Hcore.
    rewrite length_fmap, omap_length_filter in Hcore.
    rewrite (List.filter_ext decodable _ decodable_alt). exact Hcore.
  - intros Hb. pose proof (parse_ranged receipt w Hb) as Heq.
    split; [exact Heq|].
    by rewrite <- (length_fmap core), Heq, omap_length_filter.
Qed.

(** *** The classifier *)

Lemma detect_classify (tx : Tx.t) (receipt : Receipt.t) (wallet : string) (w : World) :
  (detectSwap tx receipt wallet w).1 = classify tx wallet (parseTransferEvents receipt w).1.
Proof.
  unfold detectSwap, bind, ret. by destruct (parseTransferEvents receipt w).
Qed.

(** The first element a filter keeps is the first element that satisfies
    the test. *)
Lemma filter_head_find {A} (f : A -> bool) (l : list A) :
  head (List.filter f l) = List.find f l.
Proof.
  induction l as [|a l IH]; cbn; [done|]. by destruct (f a).
Qed.

Lemma filter_cons_find {A} (f : A -> bool) (l : list A) (a : A) (r : list A) :
  List.filter f l = a :: r -> List.find f l = Some a.
Proof. intros H. by rewrite <- filter_head_find, H. Qed.

(** C3: when fewer than two transfers are decoded from the receipt (none,
    or exactly one), the classifier returns [null], whoever the parties of
    that transfer are. *)
Theorem detectSwap_few_transfers
    (tx : Tx.t) (receipt : Receipt.t) (wallet : string) (w : World) :
  (length (parseTransferEvents receipt w).1 < 2)%nat ->
  (detectSwap tx receipt wallet w).1 = None.
Proof.
  intros Hlen. rewrite detect_classify. unfold classify.
  destruct (Nat.ltb_spec (length (parseTransferEvents receipt w).1) 2); [reflexivity|lia].
Qed.

(** C4: with at least two decoded transfers, some sent by the wallet and
    some received by it (addresses compared lower-cased), the classifier
    returns a SWAP whose [tokenIn] is the first transfer from the wallet
    and whose [tokenOut] is the first transfer to the wallet, in the order
    of the decoded list. *)
Theorem detectSwap_swap
    (tx : Tx.t) (receipt : Receipt.t) (wallet : string) (w : World) :
  let transfers := (parseTransferEvents receipt w).1 in
  let walletLower := JS.toLowerCase wallet in
  (2 <= length transfers)%nat ->
  List.filter (sentBy walletLower) transfers <> [] ->
  List.filter (receivedBy walletLower) transfers <> [] ->
  exists tokenIn tokenOut,
    List.find (sentBy walletLower) transfers = Some tokenIn /\
    List.find (receivedBy walletLower) transfers = Some tokenOut /\
    (detectSwap tx receipt wallet w).1 =
      Some (SwapInfo.mk "SWAP" (dexName tx) (Some tokenIn) (Some tokenOut)
              None None None None transfers).
Proof.
  cbn zeta. intros Hlen Hsent Hrecv. rewrite detect_classify. unfold classify.
  destruct (Nat.ltb_spec (length (parseTransferEvents receipt w).1) 2); [lia|].
  destruct (List.filter (sentBy _) _) as [|s0 sent] eqn:Es; [done|].
  destruct (List.filter (receivedBy _) _) as [|r0 recv] eqn:Er; [done|].
  exists s0, r0.
  split; [exact (filter_cons_find _ _ _ _ Es)|].
  split; [exact (filter_cons_find _ _ _ _ Er)|reflexivity].
Qed.

(** C5: with at least two decoded transfers and the wallet on one side
    only: if it only sent, the result is a SELL of the first transfer it
    sent; if it only received, a BUY of the first transfer it received.
    The native amount ([ethReceived], [ethSpent]) is computed from
    [tx.value] alone: '0' for a zero value, its rendering in ether
    otherwise. *)
Theorem detectSwap_one_sided
    (tx : Tx.t) (receipt : Receipt.t) (wallet : string) (w : World) :
  let transfers := (parseTransferEvents receipt w).1 in
  let walletLower := JS.toLowerCase wallet in
  let native := if Tx.value tx =? 0 then "0"%string
                else Ethers.formatUnits (Tx.value tx) 18 in
  (2 <= length transfers)%nat ->
  (List.filter (sentBy walletLower) transfers <> [] ->
   List.filter (receivedBy walletLower) transfers = [] ->
   exists tokenSold,
     List.find (sentBy walletLower) transfers = Some tokenSold /\
     (detectSwap tx receipt wallet w).1 =
       Some (SwapInfo.mk "SELL" (dexName tx) None None
               (Some tokenSold) (Some native) None None transfers)) /\
  (List.filter (sentBy walletLower) transfers = [] ->
   List.filter (receivedBy walletLower) transfers <> [] ->
   exists tokenBought,
     List.find (receivedBy walletLower) transfers = Some tokenBought /\
     (detectSwap tx receipt wallet w).1 =
       Some (SwapInfo.mk "BUY" (dexName tx) None None
               None None (Some tokenBought) (Some native) transfers)).
Proof.
  cbn zeta. intros Hlen. rewrite detect_classify. unfold classify.
  destruct (Nat.ltb_spec (length (parseTransferEvents receipt w).1) 2); [lia|].
  split; intros Hsent Hrecv.
  - rewrite Hrecv.
    destruct (List.filter (sentBy _) _) as [|s0 sent] eqn:Es; [done|].
    exists s0. split; [|reflexivity].
    exact (filter_cons_find _ _ _ _ Es).
  - rewrite Hsent.
    destruct (List.filter (receivedBy _) _) as [|r0 recv] eqn:Er; [done|].
    exists r0. split; [|reflexivity].
    exact (filter_cons_find _ _ _ _ Er).
Qed.

Lemma filter_nil_existsb {A} (f : A -> bool) (l : list A) :
  match List.filter f l with [] => false | _ :: _ => true end = existsb f l.
Proof.
  induction l as [|a l IH]; cbn; [done|]. by destruct (f a).
Qed.

Lemma existsb_fmap {A B} (g : A -> B) (f : B -> bool) (l : list A) :
  existsb f (g <$> l) = existsb (fun a => f (g a)) l.
Proof. induction l as [|a l IH]; cbn; [done|]. by rewrite IH. Qed.

(** The classification decision reads the transfers only through their
    number and their parties. *)
Lemma classify_category (tx : Tx.t) (wallet : string) (transfers : list Transfer.t) :
  category (classify tx wallet transfers) =
    categoryOf (length (parties <$> transfers))
      (existsb (sentParty (JS.toLowerCase wallet)) (parties <$> transfers))
      (existsb (receivedParty (JS.toLowerCase wallet)) (parties <$> transfers)).
Proof.
  rewrite length_fmap, !existsb_fmap.
  change (fun a => sentParty ?wl (parties a)) with (sentBy wl).
  change (fun a => receivedParty ?wl (parties a)) with (receivedBy wl).
  rewrite <- !filter_nil_existsb.
  unfold classify, categoryOf.
  destruct (length transfers <? 2)%nat; [reflexivity|].
  destruct (List.filter (sentBy _) _), (List.filter (receivedBy _) _); reflexivity.
Qed.

Lemma parties_core (ts : list Transfer.t) :
  parties <$> ts = partiesOfCore <$> (core <$> ts).
Proof. rewrite <- list_fmap_compose. reflexivity. Qed.






(** *** The entry point *)

(** C1 (amended): when reading the transaction or the receipt fails, or
    either is not found, [analyzeTransaction] returns [null] and leaves the
    state alone; [null] is also what it returns for a transaction that is
    found and that the classifier does not report. *)
Theorem analyzeTransaction_null (txHash wallet : string) (w : World) :
  (found (getTransaction txHash) = false \/
   found (getTransactionReceipt txHash) = false ->
   analyzeTransaction txHash wallet w = (None, w)) /\
  (forall tx receipt,
     getTransaction txHash = Found tx ->
     getTransactionReceipt txHash = Found receipt ->
     (detectSwap tx receipt wallet w).1 = None ->
     (analyzeTransaction txHash wallet w).1 = None).
Proof.
  unfold analyzeTransaction. split.
  - intros Hfound.
    destruct (getTransaction txHash), (getTransactionReceipt txHash);
      cbn in Hfound; try reflexivity; by destruct Hfound.
  - intros tx receipt -> -> Hnone. unfold bind.
    destruct (detectSwap tx receipt wallet w) as [[info|] w']; cbn in *; done.
Qed.

(** *** The scaled value *)

(** C8: for every natural [k] and [decimals] among 0, 6, 8 and 18, a
    decoded transfer whose raw amount is [10^decimals * k] carries a scaled
    value that denotes exactly [k]: the scaled value is the raw value
    divided by [10^decimals] in exact arithmetic ([formatUnits_exact]). *)
Theorem scaledValue_exact
    (receipt : Receipt.t) (w : World) (t : Transfer.t) (k : N) (d : nat) :
  In t (parseTransferEvents receipt w).1 ->
  In d [0; 6; 8; 18]%nat ->
  Transfer.decimals t = d ->
  Transfer.value t = Z.of_N (10 ^ N.of_nat d * k) ->
  exists q, Ethers.decimalValue (Transfer.valueFormatted t) = Some q /\
            (q == inject_Z (Z.of_N k))%Q.
Proof.
  intros Hin _ Hd Hv.
  destruct (parse_spec receipt w) as (_ & Hall & _).
  rewrite List.Forall_forall in Hall. rewrite (Hall t Hin), Hd, Hv.
  destruct (formatUnits_exact (10 ^ N.of_nat d * k) d) as (q & -> & Hq).
  exists q. split; [reflexivity|].
  revert Hq. unfold Qeq, Qmult, inject_Z. cbn [Qnum Qden].
  rewrite N2Z.inj_mul, N2Z.inj_pow, nat_N_Z. cbn [Z.of_N].
  rewrite !Pos.mul_1_r, !Z.mul_1_r. intros Hq.
  apply (Z.mul_cancel_r _ _ (10 ^ Z.of_nat d)); [|lia].
  pose proof (Z.pow_pos_nonneg 10 (Z.of_nat d)). lia.
Qed.

(** ** Further properties of the classifier *)

(** From here on a proof sees only the section variables its statement
    depends on. *)
#[local] Set Default Proof Using "Type".

Lemma filter_nil_Forall {A} (f : A -> bool) (l : list A) :
  List.filter f l = [] <-> Forall (fun x => f x = false) l.
Proof.
  induction l as [|a l IH]; cbn; [by split; [constructor|]|].
  destruct (f a) eqn:Hf; split.
  - discriminate.
  - intros H. inversion H; congruence.
  - intros H. constructor; [done|]. by apply IH.
  - intros H. inversion H. by apply IH.
Qed.

Lemma filter_cons_In {A} (f : A -> bool) (l : list A) (a : A) (r : list A) :
  List.filter f l = a :: r -> In a l /\ f a = true.
Proof.
  intros H. apply List.filter_In. rewrite H. by left.
Qed.

(** X1: the classifier returns [null] exactly when fewer than two
    transfers are decoded or the wallet is party to none of them. *)
Theorem detectSwap_null_iff
    (tx : Tx.t) (receipt : Receipt.t) (wallet : string) (w : World) :
  let transfers := (parseTransferEvents receipt w).1 in
  let walletLower := JS.toLowerCase wallet in
  (detectSwap tx receipt wallet w).1 = None <->
  (length transfers < 2)%nat \/
  Forall (fun t => sentBy walletLower t = false /\ receivedBy walletLower t = false)
         transfers.
Proof.
  cbn zeta. rewrite detect_classify. unfold classify.
  destruct (Nat.ltb_spec (length (parseTransferEvents receipt w).1) 2) as [Hlt|Hge].
  { split; [by left|done]. }
  rewrite Forall_and, <- !filter_nil_Forall.
  destruct (List.filter (sentBy _) _), (List.filter (receivedBy _) _); split;
    try done; try (intros [?|[? ?]]; [lia|done]).
  by right.
Qed.

(** The shape of every result of the classification. *)
Lemma classify_shape (tx : Tx.t) (wallet : string) (transfers : list Transfer.t)
    (info : SwapInfo.t) :
  classify tx wallet transfers = Some info ->
  renderable info /\
  SwapInfo.allTransfers info = transfers /\
  SwapInfo.dex info = dexName tx /\
  (2 <= length transfers)%nat.
Proof.
  unfold classify, renderable.
  destruct (Nat.ltb_spec (length transfers) 2) as [Hlt|Hge]; [done|].
  destruct (List.filter (sentBy _) _), (List.filter (receivedBy _) _);
    intros [= <-]; cbn; (repeat split; try done; eauto).
Qed.

(** X2: every result of the classifier lists all the decoded transfers,
    at least two; the token it reports as leaving the wallet ([tokenIn],
    [tokenSold]) is a decoded transfer sent by the wallet, and the token it
    reports as arriving ([tokenOut], [tokenBought]) is a decoded transfer
    received by the wallet. *)
Theorem detectSwap_result_legs
    (tx : Tx.t) (receipt : Receipt.t) (wallet : string) (w : World)
    (info : SwapInfo.t) :
  (detectSwap tx receipt wallet w).1 = Some info ->
  let transfers := (parseTransferEvents receipt w).1 in
  let walletLower := JS.toLowerCase wallet in
  SwapInfo.allTransfers info = transfers /\
  (2 <= length transfers)%nat /\
  (forall t, SwapInfo.tokenIn info = Some t \/ SwapInfo.tokenSold info = Some t ->
     In t transfers /\ sentBy walletLower t = true) /\
  (forall t, SwapInfo.tokenOut info = Some t \/ SwapInfo.tokenBought info = Some t ->
     In t transfers /\ receivedBy walletLower t = true).
Proof.
  cbn zeta. rewrite detect_classify. intros Hc.
  destruct (classify_shape _ _ _ _ Hc) as (_ & Hall & _ & Hlen).
  split; [done|]. split; [done|].
  revert Hc. unfold classify.
  destruct (Nat.ltb_spec (length (parseTransferEvents receipt w).1) 2); [done|].
  destruct (List.filter (sentBy _) _) as [|s0 sent] eqn:Es;
    destruct (List.filter (receivedBy _) _) as [|r0 recv] eqn:Er;
    intros [= <-]; cbn; split; intros t [[= <-]|[= <-]];
    first [exact (filter_cons_In _ _ _ _ Es) | exact (filter_cons_In _ _ _ _ Er)].
Qed.

(** X3: the type of a result tells the direction of the whole
    transaction: a SELL has no decoded transfer to the wallet, a BUY has
    none from the wallet, and a SWAP has both directions. *)
Theorem detectSwap_type_directions
    (tx : Tx.t) (receipt : Receipt.t) (wallet : string) (w : World)
    (info : SwapInfo.t) :
  (detectSwap tx receipt wallet w).1 = Some info ->
  let transfers := (parseTransferEvents receipt w).1 in
  let walletLower := JS.toLowerCase wallet in
  existsb (sentBy walletLower) transfers =
    negb (bool_decide (SwapInfo.type info = "BUY"%string)) /\
  existsb (receivedBy walletLower) transfers =
    negb (bool_decide (SwapInfo.type info = "SELL"%string)).
Proof.
  cbn zeta. rewrite detect_classify. unfold classify.
  destruct (Nat.ltb_spec (length (parseTransferEvents receipt w).1) 2); [done|].
  rewrite <- !filter_nil_existsb.
  destruct (List.filter (sentBy _) _), (List.filter (receivedBy _) _);
    intros [= <-]; done.
Qed.


(** ** The analysis and its callers *)

Lemma analyze_cases (txHash wallet : string) (w : World) (a : Analysis.t) :
  (analyzeTransaction txHash wallet w).1 = Some a ->
  exists tx receipt,
    getTransaction txHash = Found tx /\
    getTransactionReceipt txHash = Found receipt /\
    (detectSwap tx receipt wallet w).1 = Some (Analysis.swap a) /\
    Analysis.hash a = txHash /\
    Analysis.gasUsed a = JS.bigint_toString (Receipt.gasUsed receipt) /\
    Analysis.status a = statusText receipt.
Proof.
  unfold analyzeTransaction.
  destruct (getTransaction txHash) as [tx| |],
           (getTransactionReceipt txHash) as [receipt| |]; try done.
  unfold bind, ret.
  destruct (detectSwap tx receipt wallet w) as [[info|] w'] eqn:Hd; [|done].
  cbn. intros [= <-]. exists tx, receipt. by rewrite Hd.
Qed.

Lemma renderable_actionable (info : SwapInfo.t) :
  renderable info -> actionable (SwapInfo.type info).
Proof.
  unfold renderable, actionable. intros [[? _] | [[? _] | [? _]]]; auto.
Qed.

Lemma analyze_renderable (txHash wallet : string) (w : World) (a : Analysis.t) :
  (analyzeTransaction txHash wallet w).1 = Some a -> renderable (Analysis.swap a).
Proof.
  intros Ha.
  destruct (analyze_cases _ _ _ _ Ha) as (tx & receipt & _ & _ & Hd & _).
  rewrite detect_classify in Hd.
  by destruct (classify_shape _ _ _ _ Hd) as (Hr & _).
Qed.

Lemma renderable_notifiable (a : Analysis.t) :
  renderable (Analysis.swap a) -> notifiable (Some a) = true.
Proof.
  intros Hr%renderable_actionable. unfold notifiable, Analysis.type.
  destruct Hr as [-> | [-> | ->]]; done.
Qed.

Lemma renderable_formats (a : Analysis.t) (label : option string) :
  renderable (Analysis.swap a) ->
  exists text, formatTransactionSummary (Some a) label = Normal (Some text).
Proof.
  intros Hr. unfold formatTransactionSummary, Analysis.type.
  destruct Hr as [[-> [t Ht]] | [[-> [t Ht]] | [-> [[t1 Ht1] [t2 Ht2]]]]];
    cbn; rewrite ?Ht, ?Ht1, ?Ht2; cbn; eauto.
Qed.

(** X4: whatever [analyzeTransaction] returns passes the test its callers
    apply before notifying: the test [analysis && type is BUY, SELL or
    SWAP] holds exactly when the analysis is not [null]. *)
Theorem analyzeTransaction_notifiable (txHash wallet : string) (w : World) :
  notifiable (analyzeTransaction txHash wallet w).1 =
  bool_decide (is_Some (analyzeTransaction txHash wallet w).1).
Proof.
  destruct (analyzeTransaction txHash wallet w).1 as [a|] eqn:Ha; [|done].
  by rewrite (renderable_notifiable a (analyze_renderable _ _ _ _ Ha)).
Qed.

(** X5: the formatter renders every analysis that [analyzeTransaction]
    returns: it completes without raising and returns a text, never
    [null], whatever label is passed for the wallet. *)
Theorem analyzeTransaction_formats
    (txHash wallet : string) (w : World) (a : Analysis.t) (label : option string) :
  (analyzeTransaction txHash wallet w).1 = Some a ->
  exists text, formatTransactionSummary (Some a) label = Normal (Some text).
Proof.
  intros Ha. apply renderable_formats. by eapply analyze_renderable.
Qed.

(** ** Logs that are not transfers *)

Lemma parseLog_foreign (log : Log.t) (acc : list Transfer.t) (w : World) :
  isTransfer log = false -> parseLog log acc w = (Normal acc, w).
Proof. intros H. unfold parseLog. by rewrite H. Qed.

Lemma parseLoop_filter (logs : list Log.t) :
  forall acc w,
    parseLoop (List.filter isTransfer logs) acc w = parseLoop logs acc w.
Proof.
  induction logs as [|log rest IH]; intros acc w; cbn; [done|].
  destruct (isTransfer log) eqn:Hm; cbn.
  - unfold bind. destruct (parseLog log acc w) as [[acc'|] w']; apply IH.
  - unfold bind. rewrite (parseLog_foreign log acc w Hm). apply IH.
Qed.

(** X6: logs whose first topic is not the transfer signature (approvals,
    pool events) have no influence on the classifier: removing them from
    the receipt changes neither its result nor the state it leaves (cache
    and reads). *)
Theorem detectSwap_ignores_foreign_logs
    (tx : Tx.t) (receipt : Receipt.t) (wallet : string) (w : World) :
  detectSwap tx (transferLogsOnly receipt) wallet w = detectSwap tx receipt wallet w.
Proof.
  unfold detectSwap, parseTransferEvents, transferLogsOnly, bind. cbn.
  by rewrite parseLoop_filter.
Qed.


(** ** The token cache across a whole decoding *)

(** One resolution keeps every cached entry and issues no read or three. *)
Lemma resolve_grows (a : string) (w : World) :
  tokenCache w ⊆ tokenCache (getTokenInfo a w).2 /\
  (reads w <= reads (getTokenInfo a w).2 <= reads w + 3)%nat.
Proof.
  unfold getTokenInfo.
  destruct (tokenCache w !! JS.toLowerCase a) eqn:Hc; cbn; [split; [done|lia]|].
  destruct (newContract a); cbn; [|split; [done|lia]].
  split; [by apply insert_subseteq|lia].
Qed.

Lemma parseLog_grows (log : Log.t) (acc : list Transfer.t) (w : World) :
  let r := parseLog log acc w in
  tokenCache w ⊆ tokenCache r.2 /\
  (reads w <= reads r.2
     <= reads w + match decodeCore log with Some _ => 3 | None => 0 end)%nat.
Proof.
  cbn zeta. unfold parseLog, decodeCore.
  destruct (isTransfer log); [|cbn; split; [done|lia]].
  destruct (decodeTopics log) as [[[from to] value]|]; [|cbn; split; [done|lia]].
  unfold bind, ret. pose proof (resolve_grows (Log.address log) w) as [Hsub Hreads].
  destruct (getTokenInfo (Log.address log) w) as [info w']. cbn in *.
  destruct (Ethers.representable value (TokenInfo.decimals info)); cbn;
    (split; [done|lia]).
Qed.

Lemma parseLoop_grows (logs : list Log.t) :
  forall acc w,
    tokenCache w ⊆ tokenCache (parseLoop logs acc w).2 /\
    (reads w <= reads (parseLoop logs acc w).2
       <= reads w + 3 * length (omap decodeCore logs))%nat.
Proof.
  induction logs as [|log rest IH]; intros acc w; cbn; [split; [done|lia]|].
  unfold bind. pose proof (parseLog_grows log acc w) as Hstep. cbn zeta in Hstep.
  destruct (parseLog log acc w) as [[acc'|] w']; cbn [fst snd] in Hstep;
    destruct Hstep as (Hsub & Hr);
    [destruct (IH acc' w') as (Hsub' & Hr')
    |destruct (IH acc w') as (Hsub' & Hr')];
    destruct (decodeCore log); cbn [length];
    (split; [by etrans|lia]).
Qed.

(** X7: decoding a receipt never removes or changes an entry of the
    token cache, and issues at most three reads for each log that matches
    the transfer signature and decodes (a log whose amount the library
    refuses is skipped after its token has been read, so the reads are
    not bounded by the transfers returned). *)
Theorem parseTransferEvents_cache_grows (receipt : Receipt.t) (w : World) :
  let r := parseTransferEvents receipt w in
  tokenCache w ⊆ tokenCache r.2 /\
  (reads w <= reads r.2
     <= reads w + 3 * length (List.filter decodable (Receipt.logs receipt)))%nat.
Proof.
  cbn zeta. unfold parseTransferEvents.
  destruct (parseLoop_grows (Receipt.logs receipt) [] w) as (Hsub & Hr).
  rewrite omap_length_filter in Hr.
  by rewrite (List.filter_ext decodable _ decodable_alt).
Qed.

(** X8: the cache is keyed without regard to letter case: once an
    address is resolved, resolving any spelling of it returns the
    description of the first resolution, as it stands (its [address] field
    keeps the earlier spelling), and issues no read. *)
Theorem getTokenInfo_case_insensitive (a b : string) (w : World) :
  newContract a = true ->
  JS.toLowerCase b = JS.toLowerCase a ->
  getTokenInfo b (getTokenInfo a w).2 = ((getTokenInfo a w).1, (getTokenInfo a w).2).
Proof.
  intros Hn Hab. apply resolve_cached. rewrite Hab.
  by apply resolve_fills_cache.
Qed.





(** ** One token, one description *)

Lemma servedFrom_weaken (c c' : gmap string TokenInfo.t) (t : Transfer.t) :
  c ⊆ c' -> servedFrom c t -> servedFrom c' t.
Proof.
  intros Hsub Hs Hn. destruct (Hs Hn) as (info & Hl & Hm).
  exists info. split; [|done]. by eapply lookup_weaken.
Qed.

Lemma parseLoop_served (logs : list Log.t) :
  forall acc w,
    Forall (servedFrom (tokenCache w)) acc ->
    Forall (servedFrom (tokenCache (parseLoop logs acc w).2)) (parseLoop logs acc w).1.
Proof.
  induction logs as [|log rest IH]; intros acc w Hacc; cbn; [done|].
  unfold bind, parseLog.
  destruct (isTransfer log); [|by apply IH].
  destruct (decodeTopics log) as [[[from to] value]|]; [|by apply IH].
  unfold bind, ret.
  pose proof (resolve_grows (Log.address log) w) as [Hsub _].
  pose proof (resolve_fills_cache (Log.address log) w) as Hfill.
  destruct (getTokenInfo (Log.address log) w) as [info w1]. cbn in *.
  assert (Hacc' : Forall (servedFrom (tokenCache w1)) acc).
  { eapply Forall_impl; [exact Hacc|]. intros t. by apply servedFrom_weaken. }
  destruct (Ethers.representable value (TokenInfo.decimals info)); [|by apply IH].
  apply IH. apply Forall_app. split; [exact Hacc'|].
  constructor; [|done]. intros Hn. cbn in Hn. exists info. by split; [apply Hfill|].
Qed.

(** X10: within one decoding, two transfers of the same token (addresses
    compared without regard to case, both accepted by the contract
    constructor) display the same symbol, name and decimals, even when the
    chain answers the metadata reads differently from one read to the
    next. *)
Theorem parseTransferEvents_one_description
    (receipt : Receipt.t) (w : World) (t1 t2 : Transfer.t) :
  In t1 (parseTransferEvents receipt w).1 ->
  In t2 (parseTransferEvents receipt w).1 ->
  newContract (Transfer.tokenAddress t1) = true ->
  newContract (Transfer.tokenAddress t2) = true ->
  JS.toLowerCase (Transfer.tokenAddress t1) = JS.toLowerCase (Transfer.tokenAddress t2) ->
  metadata t1 = metadata t2.
Proof.
  intros H1 H2 Hn1 Hn2 Heq.
  pose proof (parseLoop_served (Receipt.logs receipt) [] w (Forall_nil_2 _)) as Hall.
  fold (parseTransferEvents receipt w) in Hall.
  rewrite List.Forall_forall in Hall.
  destruct (Hall t1 H1 Hn1) as (i1 & Hl1 & ->).
  destruct (Hall t2 H2 Hn2) as (i2 & Hl2 & ->).
  rewrite Heq in Hl1. congruence.
Qed.

(** X25: as long as no token has more than 80 decimals, the token
    metadata has no part in the classification.  From any two such states
    (any contents of the cache, any position in the chain's sequence of
    answers to the metadata reads) the decoded transfers agree on token
    address, sender, recipient and raw value, and the classifier gives the
    same type and the same DEX name. *)
Theorem detectSwap_ignores_metadata
    (tx : Tx.t) (receipt : Receipt.t) (wallet : string) (w1 w2 : World) :
  decimalsBounded w1 -> decimalsBounded w2 ->
  core <$> (parseTransferEvents receipt w1).1 =
    core <$> (parseTransferEvents receipt w2).1 /\
  category (detectSwap tx receipt wallet w1).1 =
    category (detectSwap tx receipt wallet w2).1 /\
  SwapInfo.dex <$> (detectSwap tx receipt wallet w1).1 =
    SwapInfo.dex <$> (detectSwap tx receipt wallet w2).1.
Proof.
  intros Hb1 Hb2.
  pose proof (parse_ranged receipt w1 Hb1) as Hc1.
  pose proof (parse_ranged receipt w2 Hb2) as Hc2.
  assert (Hcat : category (detectSwap tx receipt wallet w1).1 =
                 category (detectSwap tx receipt wallet w2).1).
  { rewrite !detect_classify, !classify_category, !parties_core.
    by rewrite Hc1, Hc2. }
  split; [by rewrite Hc1, Hc2|]. split; [exact Hcat|].
  revert Hcat. rewrite !detect_classify.
  destruct (classify tx wallet (parseTransferEvents receipt w1).1) as [i1|] eqn:H1,
           (classify tx wallet (parseTransferEvents receipt w2).1) as [i2|] eqn:H2;
    cbn; try done.
  intros _. apply classify_shape in H1 as (_ & _ & -> & _).
  apply classify_shape in H2 as (_ & _ & -> & _). done.
Qed.


(** ** JavaScript collections *)

Section Collections.
Context {K V : Type} `{EqDecision K}.
Implicit Types (m : list (K * V)) (k : K) (v : V).

Lemma JSMap_get_set k k' v m :
  JSMap.get k (JSMap.set k' v m) = if decide (k' = k) then Some v else JSMap.get k m.
Proof.
  induction m as [|[k0 v0] r IH]; cbn.
  - by destruct (decide (k' = k)).
  - destruct (decide (k0 = k')) as [->|Hne]; cbn.
    + by destruct (decide (k' = k)).
    + destruct (decide (k0 = k)) as [->|Hne'].
      * by destruct (decide (k' = k)) as [->|_].
      * exact IH.
Qed.

Lemma JSMap_get_delete k k' m :
  JSMap.get k (JSMap.delete k' m) = if decide (k = k') then None else JSMap.get k m.
Proof.
  unfold JSMap.delete. induction m as [|[k0 v0] r IH]; cbn.
  - by destruct (decide (k = k')).
  - case_bool_decide as Hk; cbn in *.
    + subst k0. destruct (decide (k' = k)) as [->|Hne].
      * rewrite decide_True in IH by done. by rewrite decide_True by done.
      * rewrite IH. by rewrite decide_False by congruence.
    + destruct (decide (k0 = k)) as [->|Hne].
      * by rewrite decide_False by done.
      * exact IH.
Qed.

Lemma JSMap_get_None k m : JSMap.get k m = None <-> k ∉ m.*1.
Proof.
  induction m as [|[k0 v0] r IH]; cbn.
  - split; [intros _; apply not_elem_of_nil|done].
  - rewrite not_elem_of_cons. destruct (decide (k0 = k)) as [->|Hne].
    + split; [done|]. by intros [? _].
    + rewrite IH. split; [by intros ?; split; [congruence|]|by intros [_ ?]].
Qed.

Lemma JSMap_get_Some_elem k v m : JSMap.get k m = Some v -> (k, v) ∈ m.
Proof.
  induction m as [|[k0 v0] r IH]; cbn; [done|].
  destruct (decide (k0 = k)) as [->|Hne].
  - intros [= ->]. by left.
  - intros H'. right. by apply IH.
Qed.

Lemma JSMap_elem_get k v m : NoDup m.*1 -> (k, v) ∈ m -> JSMap.get k m = Some v.
Proof.
  induction m as [|[k0 v0] r IH]; cbn; [by intros _ ?%elem_of_nil|].
  intros [Hnotin Hnd]%NoDup_cons [[= -> ->]|Hin]%elem_of_cons.
  - by rewrite decide_True.
  - rewrite decide_False; [by apply IH|].
    intros ->. apply Hnotin. by apply (list_elem_of_fmap_2 fst) in Hin.
Qed.

Lemma JSMap_set_fresh k v m : JSMap.get k m = None -> JSMap.set k v m = m ++ [(k, v)].
Proof.
  induction m as [|[k0 v0] r IH]; cbn; [done|].
  destruct (decide (k0 = k)); [done|]. intros Hn. by rewrite IH.
Qed.

Lemma JSMap_set_same k v m : JSMap.get k m = Some v -> JSMap.set k v m = m.
Proof.
  induction m as [|[k0 v0] r IH]; cbn; [done|].
  destruct (decide (k0 = k)) as [->|Hne]; [by intros [= ->]|].
  intros Hg. by rewrite IH.
Qed.

Lemma JSMap_set_set k v v' m : JSMap.set k v (JSMap.set k v' m) = JSMap.set k v m.
Proof.
  induction m as [|[k0 v0] r IH]; cbn.
  - by rewrite decide_True.
  - destruct (decide (k0 = k)) as [->|Hne]; cbn.
    + by rewrite decide_True.
    + rewrite decide_False by done. by rewrite IH.
Qed.

Lemma JSMap_set_keys k v m :
  (JSMap.set k v m).*1 = if JSMap.has k m then m.*1 else m.*1 ++ [k].
Proof.
  unfold JSMap.has. induction m as [|[k0 v0] r IH]; cbn; [done|].
  destruct (decide (k0 = k)) as [->|Hne]; cbn; [done|].
  rewrite IH. by destruct (bool_decide (is_Some (JSMap.get k r))).
Qed.

Lemma JSMap_has_get k m : JSMap.has k m = false <-> JSMap.get k m = None.
Proof.
  unfold JSMap.has. rewrite bool_decide_eq_false, eq_None_not_Some. done.
Qed.

Lemma JSMap_set_NoDup k v m : NoDup m.*1 -> NoDup (JSMap.set k v m).*1.
Proof.
  intros Hnd. rewrite JSMap_set_keys.
  destruct (JSMap.has k m) eqn:Hh; [done|].
  apply NoDup_app. split; [done|]. split; [|apply NoDup_singleton].
  intros x Hx ->%list_elem_of_singleton.
  apply JSMap_has_get, JSMap_get_None in Hh. done.
Qed.

Lemma JSMap_delete_subset k m e : e ∈ JSMap.delete k m -> e ∈ m /\ e.1 <> k.
Proof.
  unfold JSMap.delete. rewrite !list_elem_of_In, List.filter_In, negb_true_iff,
    bool_decide_eq_false. done.
Qed.

Lemma JSMap_delete_NoDup k m : NoDup m.*1 -> NoDup (JSMap.delete k m).*1.
Proof.
  unfold JSMap.delete. induction m as [|[k0 v0] r IH]; cbn; [done|].
  intros [Hnotin Hnd]%NoDup_cons. destruct (negb _); cbn; [|by apply IH].
  apply NoDup_cons. split; [|by apply IH].
  intros (e & He1 & He2)%list_elem_of_fmap. apply Hnotin.
  apply list_elem_of_fmap. exists e. split; [done|].
  by apply (JSMap_delete_subset k r e).
Qed.

Lemma JSMap_delete_fresh k m : k ∉ m.*1 -> JSMap.delete k m = m.
Proof.
  unfold JSMap.delete. induction m as [|[k0 v0] r IH]; cbn; [done|].
  intros [Hne Hnotin]%not_elem_of_cons.
  rewrite bool_decide_eq_false_2 by done. cbn. by rewrite IH.
Qed.

(** On a map with one entry for each key, [get] reads the entries. *)
Lemma JSMap_get_perm m m' k :
  NoDup m.*1 -> m ≡ₚ m' -> JSMap.get k m' = JSMap.get k m.
Proof.
  intros Hnd Hp.
  assert (Hnd' : NoDup m'.*1) by (by rewrite <- Hp).
  destruct (JSMap.get k m) as [v|] eqn:Hg.
  - apply JSMap_elem_get; [done|]. rewrite <- Hp. by apply JSMap_get_Some_elem.
  - apply JSMap_get_None. rewrite <- Hp. by apply JSMap_get_None.
Qed.

End Collections.

Section Sets.
Context {A : Type} `{EqDecision A}.
Implicit Types (s l : list A) (x y : A).

Lemma JSSet_elem_add x y s : y ∈ JSSet.add x s <-> y = x \/ y ∈ s.
Proof.
  unfold JSSet.add, JSSet.has. case_bool_decide.
  - split; [by right|]. by intros [->|?].
  - rewrite elem_of_app, list_elem_of_singleton.
    split; (intros [?|?]; [by right|by left]).
Qed.

Lemma JSSet_add_NoDup x s : NoDup s -> NoDup (JSSet.add x s).
Proof.
  unfold JSSet.add, JSSet.has. case_bool_decide; [done|].
  intros Hnd. apply NoDup_app. split; [done|]. split; [|apply NoDup_singleton].
  by intros y Hy ->%list_elem_of_singleton.
Qed.

Lemma JSSet_add_again x s : x ∈ s -> JSSet.add x s = s.
Proof. intros Hx. unfold JSSet.add, JSSet.has. by rewrite bool_decide_eq_true_2. Qed.

Lemma JSSet_elem_delete x y s : y ∈ JSSet.delete x s <-> y ∈ s /\ y <> x.
Proof.
  unfold JSSet.delete. rewrite !list_elem_of_In, List.filter_In, negb_true_iff,
    bool_decide_eq_false. done.
Qed.

Lemma JSSet_delete_NoDup x s : NoDup s -> NoDup (JSSet.delete x s).
Proof.
  unfold JSSet.delete. rewrite !NoDup_ListNoDup. apply List.NoDup_filter.
Qed.

Lemma JSSet_delete_fresh x s : x ∉ s -> JSSet.delete x s = s.
Proof.
  unfold JSSet.delete. induction s as [|y s IH]; cbn; [done|].
  intros [Hne Hnotin]%not_elem_of_cons.
  rewrite bool_decide_eq_false_2 by congruence. cbn. by rewrite IH.
Qed.

Lemma JSSet_delete_added x s : x ∉ s -> JSSet.delete x (JSSet.add x s) = s.
Proof.
  intros Hx. unfold JSSet.add, JSSet.has. rewrite bool_decide_eq_false_2 by done.
  unfold JSSet.delete. rewrite List.filter_app. cbn.
  rewrite bool_decide_eq_true_2 by done. cbn. rewrite app_nil_r.
  by apply JSSet_delete_fresh.
Qed.

Lemma JSSet_fold_add_NoDup l : forall s,
  NoDup s -> NoDup (fold_left (fun s x => JSSet.add x s) l s).
Proof.
  induction l as [|x l IH]; intros s Hs; cbn; [done|].
  apply IH. by apply JSSet_add_NoDup.
Qed.

Lemma JSSet_fold_add_elem l : forall s y,
  y ∈ fold_left (fun s x => JSSet.add x s) l s <-> y ∈ s \/ y ∈ l.
Proof.
  induction l as [|x l IH]; intros s y; cbn.
  - rewrite elem_of_nil. split; [by left|by intros [?|[]]].
  - rewrite IH, JSSet_elem_add, elem_of_cons. split.
    + intros [[?|?]|?]; [right; by left|by left|right; by right].
    + intros [?|[?|?]]; [left; by right|left; by left|by right].
Qed.

Lemma JSSet_fold_add_fresh l : forall s,
  NoDup (s ++ l) -> fold_left (fun s x => JSSet.add x s) l s = s ++ l.
Proof.
  induction l as [|x l IH]; intros s Hnd; cbn; [by rewrite app_nil_r|].
  unfold JSSet.add at 2, JSSet.has.
  apply NoDup_app in Hnd as (Hs & Hdisj & [Hx Hl]%NoDup_cons).
  rewrite bool_decide_eq_false_2.
  - rewrite IH, <- app_assoc; [done|].
    apply NoDup_app. split; [|split; [|done]].
    + apply NoDup_app. split; [done|]. split; [|apply NoDup_singleton].
      intros y Hy ->%list_elem_of_singleton. apply (Hdisj _ Hy). by left.
    + intros y [Hy| ->%list_elem_of_singleton]%elem_of_app Hyl.
      * apply (Hdisj _ Hy). by right.
      * done.
  - intros Hxs. apply (Hdisj _ Hxs). by left.
Qed.

(** [new Set(array)] of an array without repetition is the array. *)
Lemma JSSet_ofList_NoDup l : NoDup l -> JSSet.ofList l = l.
Proof. intros Hnd. unfold JSSet.ofList. by rewrite JSSet_fold_add_fresh. Qed.

End Sets.


(** ** The wallet registry *)

Lemma lower_ascii_idemp (c : ascii) : JS.lower_ascii (JS.lower_ascii c) = JS.lower_ascii c.
Proof. destruct c as [[] [] [] [] [] [] [] []]; reflexivity. Qed.

Lemma toLowerCase_idemp (s : string) : JS.toLowerCase (JS.toLowerCase s) = JS.toLowerCase s.
Proof. induction s as [|c s IH]; cbn; [done|]. by rewrite lower_ascii_idemp, IH. Qed.

Lemma JSMap_set_Forall {K V} `{EqDecision K} (P : K * V -> Prop) k v (m : list (K * V)) :
  Forall P m -> P (k, v) -> Forall P (JSMap.set k v m).
Proof.
  intros Hm Hkv. induction Hm as [|[k0 v0] r H0 Hr IH]; cbn; [by constructor|].
  destruct (decide (k0 = k)); by constructor.
Qed.

Lemma JSMap_delete_Forall {K V} `{EqDecision K} (P : K * V -> Prop) k (m : list (K * V)) :
  Forall P m -> Forall P (JSMap.delete k m).
Proof.
  intros Hm. unfold JSMap.delete. induction Hm as [|e r H0 Hr IH]; cbn; [done|].
  destruct (negb _); [by constructor|done].
Qed.

(** The registry after a successful [addWallet]: the entry of the chat
    holds the old addresses and the new one. *)
Lemma addWallet_registry (now : string) (chatId : Num) (address : string) (t : Tracker Num) :
  isAddress address = true ->
  watchedWallets (addWallet now chatId address t).2 =
    JSMap.set chatId (JSSet.add (JS.toLowerCase address) (getWallets chatId t))
              (watchedWallets t).
Proof.
  intros Hv. unfold addWallet, getWallets. rewrite Hv. cbn.
  destruct (JSMap.has chatId (watchedWallets t)) eqn:Hh.
  - done.
  - apply JSMap_has_get in Hh. rewrite JSMap_get_set, decide_True by done.
    rewrite Hh. cbn. apply JSMap_set_set.
Qed.

(** X11: adding a valid address returns it in lower case and appends it
    to the wallets of the chat unless it is there already; the wallets of
    the other chats and the last observations are untouched. *)
Theorem addWallet_tracks (now : string) (chatId : Num) (address : string) (t : Tracker Num) :
  isAddress address = true ->
  let r := addWallet now chatId address t in
  r.1 = Normal (JS.toLowerCase address) /\
  getWallets chatId r.2 =
    JSSet.add (JS.toLowerCase address) (getWallets chatId t) /\
  (forall other, other <> chatId -> getWallets other r.2 = getWallets other t) /\
  lastChecked r.2 = lastChecked t.
Proof.
  intros Hv. cbn zeta.
  pose proof (addWallet_registry now chatId address t Hv) as Hreg.
  split; [unfold addWallet; by rewrite Hv|].
  split; [|split].
  - unfold getWallets at 1. by rewrite Hreg, JSMap_get_set, decide_True.
  - intros other Hne. unfold getWallets at 1.
    by rewrite Hreg, JSMap_get_set, decide_False.
  - unfold addWallet. by rewrite Hv.
Qed.

(** X12: adding an address that the chat already tracks, in any letter
    case, leaves the registry exactly as it is. *)
Theorem addWallet_again (now now' : string) (chatId : Num) (a b : string) (t : Tracker Num) :
  isAddress a = true -> isAddress b = true ->
  JS.toLowerCase b = JS.toLowerCase a ->
  watchedWallets (addWallet now' chatId b (addWallet now chatId a t).2).2 =
  watchedWallets (addWallet now chatId a t).2.
Proof.
  intros Ha Hb Hab.
  rewrite (addWallet_registry now' chatId b _ Hb), Hab.
  assert (Hw : getWallets chatId (addWallet now chatId a t).2 =
               JSSet.add (JS.toLowerCase a) (getWallets chatId t)).
  { unfold getWallets at 1.
    by rewrite (addWallet_registry now chatId a t Ha), JSMap_get_set, decide_True. }
  rewrite Hw.
  rewrite JSSet_add_again by (apply JSSet_elem_add; by left).
  apply JSMap_set_same.
  rewrite (addWallet_registry now chatId a t Ha).
  by rewrite JSMap_get_set, decide_True.
Qed.

(** X13: [removeWallet] answers [true] exactly when the chat has an
    entry, whether or not it tracked the address; afterwards the chat's
    wallets are the old ones without the address, in the same order, and
    the other chats are untouched. *)
Theorem removeWallet_untracks (now : string) (chatId : Num) (address : string) (t : Tracker Num) :
  let r := removeWallet now chatId address t in
  r.1 = JSMap.has chatId (watchedWallets t) /\
  getWallets chatId r.2 =
    JSSet.delete (JS.toLowerCase address) (getWallets chatId t) /\
  (forall other, other <> chatId -> getWallets other r.2 = getWallets other t).
Proof.
  cbn zeta. unfold removeWallet, getWallets, JSMap.has.
  destruct (JSMap.get chatId (watchedWallets t)) as [s|] eqn:Hg; cbn.
  - split; [done|]. case_bool_decide as Hlen; cbn.
    + split.
      * rewrite JSMap_get_delete, decide_True by done.
        cbn. symmetry. by apply List.length_zero_iff_nil.
      * intros other Hne.
        by rewrite JSMap_get_delete, decide_False, JSMap_get_set, decide_False.
    + split.
      * by rewrite JSMap_get_set, decide_True.
      * intros other Hne. by rewrite JSMap_get_set, decide_False.
  - rewrite Hg. done.
Qed.

Lemma tidy_nonempty (chatId : Num) (s : list string) (watched : list (Num * list string)) :
  registryTidy watched -> JSMap.get chatId watched = Some s ->
  s <> [] /\ Forall (fun a => JS.toLowerCase a = a) s.
Proof.
  intros Ht Hg%JSMap_get_Some_elem. unfold registryTidy in Ht.
  rewrite Forall_forall in Ht. exact (Ht _ Hg).
Qed.

(** X14: removing an address right after adding it, when the chat did
    not track it before, restores the registry exactly (the chat entry
    created for it is deleted again). *)
Theorem removeWallet_after_addWallet
    (now now' : string) (chatId : Num) (address : string) (t : Tracker Num) :
  isAddress address = true ->
  registryTidy (watchedWallets t) ->
  JS.toLowerCase address ∉ getWallets chatId t ->
  watchedWallets (removeWallet now' chatId address (addWallet now chatId address t).2).2 =
  watchedWallets t.
Proof.
  intros Hv Htidy Hnew.
  pose proof (addWallet_registry now chatId address t Hv) as Hreg.
  unfold removeWallet. rewrite Hreg, JSMap_get_set, decide_True by done.
  rewrite JSSet_delete_added by done. cbn. rewrite JSMap_set_set.
  unfold getWallets in *.
  destruct (JSMap.get chatId (watchedWallets t)) as [s|] eqn:Hg; cbn.
  - destruct (tidy_nonempty _ _ _ Htidy Hg) as [Hne _].
    rewrite bool_decide_eq_false_2 by (by destruct s).
    by apply JSMap_set_same.
  - cbn. rewrite JSMap_set_fresh by done.
    unfold JSMap.delete. rewrite List.filter_app. cbn.
    rewrite (bool_decide_eq_true_2 (chatId = chatId)) by done. cbn.
    rewrite app_nil_r.
    apply JSMap_delete_fresh. by apply JSMap_get_None.
Qed.


Lemma wf_get_NoDup (chatId : Num) (s : list string) (watched : list (Num * list string)) :
  registryWf watched -> JSMap.get chatId watched = Some s -> NoDup s.
Proof.
  intros [_ Hs] Hg%JSMap_get_Some_elem. rewrite Forall_forall in Hs.
  exact (Hs _ Hg).
Qed.

(** X15: [addWallet] and [removeWallet] keep the registry in shape: one
    entry for each chat, no address twice in a chat, no chat with an empty
    set, every address in lower case. *)
Theorem registry_shape_kept (now : string) (chatId : Num) (address : string) (t : Tracker Num) :
  registryWf (watchedWallets t) -> registryTidy (watchedWallets t) ->
  (registryWf (watchedWallets (addWallet now chatId address t).2) /\
   registryTidy (watchedWallets (addWallet now chatId address t).2)) /\
  (registryWf (watchedWallets (removeWallet now chatId address t).2) /\
   registryTidy (watchedWallets (removeWallet now chatId address t).2)).
Proof.
  intros Hwf Htidy. split.
  - destruct (isAddress address) eqn:Hv; [|unfold addWallet; by rewrite Hv].
    rewrite (addWallet_registry now chatId address t Hv).
    assert (Hold : NoDup (getWallets chatId t) /\
                   Forall (fun a => JS.toLowerCase a = a) (getWallets chatId t)).
    { unfold getWallets.
      destruct (JSMap.get chatId (watchedWallets t)) as [s|] eqn:Hg; cbn.
      - split; [by eapply wf_get_NoDup|by eapply tidy_nonempty].
      - split; constructor. }
    destruct Hold as [Hnd Hlow]. destruct Hwf as [Hkeys Hsets]. split; [split|].
    + by apply JSMap_set_NoDup.
    + apply JSMap_set_Forall; [done|]. by apply JSSet_add_NoDup.
    + apply JSMap_set_Forall; [done|]. cbn. split.
      * intros Hnil. apply (not_elem_of_nil (JS.toLowerCase address)).
        rewrite <- Hnil. apply JSSet_elem_add. by left.
      * rewrite Forall_forall. intros a [->|Ha]%JSSet_elem_add.
        -- apply toLowerCase_idemp.
        -- rewrite Forall_forall in Hlow. by apply Hlow.
  - unfold removeWallet.
    destruct (JSMap.get chatId (watchedWallets t)) as [s|] eqn:Hg; [|done]. cbn.
    pose proof (wf_get_NoDup _ _ _ Hwf Hg) as Hnd.
    destruct (tidy_nonempty _ _ _ Htidy Hg) as [_ Hlow].
    destruct Hwf as [Hkeys Hsets].
    assert (Hlow' : Forall (fun a => JS.toLowerCase a = a)
                      (JSSet.delete (JS.toLowerCase address) s)).
    { rewrite Forall_forall in Hlow. rewrite Forall_forall.
      intros a [Ha _]%JSSet_elem_delete. by apply Hlow. }
    case_bool_decide as Hlen; (split; [split|]).
    + by apply JSMap_delete_NoDup, JSMap_set_NoDup.
    + apply JSMap_delete_Forall, JSMap_set_Forall; [done|].
      by apply JSSet_delete_NoDup.
    + unfold registryTidy. rewrite Forall_forall.
      intros e [He Hne]%JSMap_delete_subset.
      assert (Hin : e ∈ watchedWallets t).
      { clear -He Hne. induction (watchedWallets t) as [|[k0 v0] r IH]; cbn in He.
        - by apply list_elem_of_singleton in He as ->.
        - destruct (decide (k0 = chatId)) as [->|Hk].
          + apply elem_of_cons in He as [->|He]; [done|]. by right.
          + apply elem_of_cons in He as [->|He]; [by left|]. right. by apply IH. }
      unfold registryTidy in Htidy. rewrite Forall_forall in Htidy. by apply Htidy.
    + by apply JSMap_set_NoDup.
    + apply JSMap_set_Forall; [done|]. by apply JSSet_delete_NoDup.
    + apply JSMap_set_Forall; [done|]. cbn. split; [|done].
      intros Hnil. apply Hlen. by rewrite Hnil.
Qed.

Lemma getChats_elem (address : string) (chatId : Num) (t : Tracker Num) :
  NoDup (watchedWallets t).*1 ->
  chatId ∈ getChatsForWallet address t <->
  JS.toLowerCase address ∈ getWallets chatId t.
Proof.
  intros Hkeys. unfold getChatsForWallet, getWallets.
  rewrite list_elem_of_fmap. split.
  - intros ([k s] & -> & Hin). cbn.
    apply list_elem_of_In, List.filter_In in Hin as [Hin Hhas].
    apply list_elem_of_In in Hin. rewrite (JSMap_elem_get _ _ _ Hkeys Hin). cbn.
    unfold JSSet.has in Hhas. cbn in Hhas. by apply bool_decide_eq_true in Hhas.
  - destruct (JSMap.get chatId (watchedWallets t)) as [s|] eqn:Hg; cbn;
      [|by intros ?%elem_of_nil].
    intros Hin. exists (chatId, s). split; [done|].
    apply list_elem_of_In, List.filter_In. split.
    + by apply list_elem_of_In, JSMap_get_Some_elem.
    + unfold JSSet.has. cbn. by apply bool_decide_eq_true.
Qed.

Lemma getChats_NoDup (address : string) (t : Tracker Num) :
  NoDup (watchedWallets t).*1 -> NoDup (getChatsForWallet address t).
Proof.
  unfold getChatsForWallet.
  induction (watchedWallets t) as [|e r IH]; cbn; [done|].
  intros [Hnotin Hnd]%NoDup_cons. destruct (JSSet.has _ _); cbn; [|by apply IH].
  apply NoDup_cons. split; [|by apply IH].
  intros (e' & He1 & He2)%list_elem_of_fmap. apply Hnotin.
  apply list_elem_of_fmap. exists e'. split; [done|].
  by apply list_elem_of_In, List.filter_In in He2 as [?%list_elem_of_In _].
Qed.

(** X16: with one entry for each chat, a chat is among the chats of a
    wallet exactly when the wallet, in lower case, is among the wallets of
    the chat; and no chat is listed twice. *)
Theorem getChatsForWallet_iff (address : string) (chatId : Num) (t : Tracker Num) :
  NoDup (watchedWallets t).*1 ->
  (chatId ∈ getChatsForWallet address t <->
   JS.toLowerCase address ∈ getWallets chatId t) /\
  NoDup (getChatsForWallet address t).
Proof.
  intros Hkeys. split; [by apply getChats_elem|by apply getChats_NoDup].
Qed.

Lemma allAddresses_fold (watched : list (Num * list string)) :
  forall all,
    NoDup all ->
    let r := fold_left (fun all e => fold_left (fun s a => JSSet.add a s) e.2 all)
                       watched all in
    NoDup r /\ forall a, a ∈ r <-> a ∈ all \/ exists e, e ∈ watched /\ a ∈ e.2.
Proof.
  induction watched as [|e rest IH]; intros all Hall; cbn.
  - split; [done|]. intros a. split; [by left|].
    intros [?|(e & ?%elem_of_nil & _)]; done.
  - destruct (IH _ (JSSet_fold_add_NoDup e.2 all Hall)) as [Hnd Hiff].
    split; [done|]. intros a. rewrite Hiff, JSSet_fold_add_elem. split.
    + intros [[?|?]|(e' & ? & ?)]; [by left| |].
      * right. exists e. split; [by left|done].
      * right. exists e'. split; [by right|done].
    + intros [?|(e' & [->|?]%elem_of_cons & ?)]; [by left; left|by left; right|].
      right. by exists e'.
Qed.

(** X17: the set of addresses that is polled, and counted by
    [getSummary], holds each tracked address once: it has no repetition
    and contains exactly the wallets of the chats. *)
Theorem allAddresses_exact (t : Tracker Num) (a : string) :
  NoDup (watchedWallets t).*1 ->
  NoDup (allAddresses t) /\
  totalWallets (getSummary t) = length (allAddresses t) /\
  (a ∈ allAddresses t <-> exists chatId, a ∈ getWallets chatId t).
Proof.
  intros Hkeys. unfold allAddresses.
  destruct (allAddresses_fold (watchedWallets t) [] (NoDup_nil_2)) as [Hnd Hiff].
  split; [done|]. split; [done|]. rewrite Hiff. unfold getWallets. split.
  - intros [?%elem_of_nil|([k s] & Hin & Ha)]; [done|]. exists k.
    by rewrite (JSMap_elem_get _ _ _ Hkeys Hin).
  - intros (k & Ha). right.
    destruct (JSMap.get k (watchedWallets t)) as [s|] eqn:Hg; cbn in Ha;
      [|by apply elem_of_nil in Ha].
    exists (k, s). split; [by apply JSMap_get_Some_elem|done].
Qed.


(** ** Saving and reloading the registry *)

Lemma JSObject_insertIndex_perm {V} (n : N) (key : string) (v : V) (o : list (string * V)) :
  JSObject.insertIndex n key v o ≡ₚ (key, v) :: o.
Proof.
  induction o as [|[k0 v0] r IH]; cbn; [done|].
  destruct (JSObject.arrayIndex k0) as [m|]; [|done].
  destruct (m <? n)%N; [|done]. rewrite IH. apply Permutation_swap.
Qed.

Lemma JSObject_set_fresh {V} (key : string) (v : V) (o : list (string * V)) :
  key <> "__proto__"%string ->
  key ∉ o.*1 -> JSObject.set key v o ≡ₚ o ++ [(key, v)].
Proof.
  intros Hp Hk%JSMap_get_None. unfold JSObject.set.
  rewrite (bool_decide_eq_false_2 _ Hp).
  rewrite (proj2 (JSMap_has_get key o) Hk).
  destruct (JSObject.arrayIndex key); [|done].
  rewrite JSObject_insertIndex_perm. apply Permutation_cons_append.
Qed.

(** Properties created under distinct keys are all there. *)
Lemma JSObject_fold_set {V} (l : list (string * V)) :
  "__proto__"%string ∉ l.*1 ->
  forall o, NoDup (o.*1 ++ l.*1) ->
    fold_left (fun o e => JSObject.set e.1 e.2 o) l o ≡ₚ o ++ l.
Proof.
  induction l as [|[k v] l IH]; intros Hp o Hnd; cbn; [by rewrite app_nil_r|].
  cbn in Hnd, Hp. apply not_elem_of_cons in Hp as [Hpk Hp].
  assert (Hk : k ∉ o.*1).
  { apply NoDup_app in Hnd as (_ & Hdisj & _). intros Hin.
    apply (Hdisj _ Hin). by left. }
  pose proof (JSObject_set_fresh k v o (not_eq_sym Hpk) Hk) as Hset.
  rewrite (IH Hp).
  - rewrite Hset, <- app_assoc. done.
  - rewrite Hset, fmap_app, <- app_assoc. done.
Qed.

(** Entries set under distinct keys are appended in order. *)
Lemma JSMap_fold_set {K V} `{EqDecision K} (l : list (K * V)) :
  forall m, NoDup (m.*1 ++ l.*1) ->
    fold_left (fun m e => JSMap.set e.1 e.2 m) l m = m ++ l.
Proof.
  induction l as [|[k v] l IH]; intros m Hnd; cbn; [by rewrite app_nil_r|].
  cbn in Hnd. assert (Hk : k ∉ m.*1).
  { apply NoDup_app in Hnd as (_ & Hdisj & _). intros Hin.
    apply (Hdisj _ Hin). by left. }
  rewrite JSMap_set_fresh by (by apply JSMap_get_None).
  rewrite IH; [by rewrite <- app_assoc|].
  by rewrite fmap_app, <- app_assoc.
Qed.

Lemma fold_left_fmap {A B C} (g : C -> B -> C) (h : A -> B) (l : list A) :
  forall c, fold_left g (h <$> l) c = fold_left (fun c x => g c (h x)) l c.
Proof. induction l as [|x l IH]; intros c; cbn; [done|]. apply IH. Qed.

(** The two maps survive the file: the reloaded maps hold the same
    entries, and for the last observations also the same order. *)
Lemma saveWallets_loadWallets (now : string)
    (watched : list (Num * list string)) (checked : list (string * Checked.t))
    (d : Disk) :
  writable d = true ->
  registryWf watched ->
  NoDup checked.*1 ->
  "__proto__"%string ∉ checked.*1 ->
  Forall (fun e => numberText e.1) watched ->
  (loadWallets (saveWallets now watched checked d)).1 ≡ₚ watched /\
  (loadWallets (saveWallets now watched checked d)).2 ≡ₚ checked.
Proof.
  intros Hw [Hkeys Hsets] Hck Hpc Hnum.
  assert (Hlaw : Forall (fun e => stringToNumber (numberToString e.1) = e.1) watched)
    by (eapply Forall_impl; [exact Hnum|]; by intros e [? _]).
  assert (Hpw : "__proto__"%string ∉ numberToString <$> watched.*1).
  { intros (k & Hk & (e & -> & He)%list_elem_of_fmap)%list_elem_of_fmap.
    rewrite Forall_forall in Hnum. by destruct (Hnum e He) as [_ []]. }
  unfold saveWallets, loadWallets.
  rewrite Hw. cbn.
  set (texts := (fun e : Num * list string => (numberToString e.1, e.2)) <$> watched).
  assert (Htexts : NoDup texts.*1).
  { unfold texts. rewrite <- list_fmap_compose.
    change (fst ∘ _) with (numberToString ∘ (fst : Num * list string -> Num)).
    rewrite list_fmap_compose. apply NoDup_fmap_2_strong; [|done].
    rewrite Forall_forall in Hlaw.
    intros x y (ex & -> & Hex)%list_elem_of_fmap (ey & -> & Hey)%list_elem_of_fmap Heq.
    rewrite <- (Hlaw _ Hex), <- (Hlaw _ Hey). by rewrite Heq. }
  assert (Hobj : fold_left (fun o e => JSObject.set (numberToString e.1) e.2 o) watched []
                 ≡ₚ texts).
  { transitivity (fold_left (fun o (e : string * list string) => JSObject.set e.1 e.2 o)
                    texts []).
    - unfold texts. by rewrite fold_left_fmap.
    - rewrite JSObject_fold_set; [done| |done].
      unfold texts. rewrite <- list_fmap_compose.
      change (fst ∘ _) with (numberToString ∘ (fst : Num * list string -> Num)).
      by rewrite list_fmap_compose. }
  assert (Hback : (fun e : string * list string =>
                     (stringToNumber e.1, JSSet.ofList e.2)) <$> texts = watched).
  { unfold texts. rewrite <- list_fmap_compose.
    rewrite <- (list_fmap_id watched) at 2. apply Forall_fmap_ext.
    rewrite Forall_forall in Hlaw, Hsets. rewrite Forall_forall.
    intros [k s] Hin. cbn.
    pose proof (Hlaw _ Hin) as Hk. pose proof (Hsets _ Hin) as Hs. cbn in Hk, Hs.
    fold (JSSet.ofList s). by rewrite Hk, JSSet_ofList_NoDup. }
  split.
  - set (obj := fold_left _ watched []) in *.
    transitivity ((fun e : string * list string =>
                     (stringToNumber e.1, JSSet.ofList e.2)) <$> obj);
      [|by rewrite Hobj, Hback].
    assert (Hnd : NoDup ((fun e : string * list string =>
                     (stringToNumber e.1, JSSet.ofList e.2)) <$> obj).*1)
      by (by rewrite Hobj, Hback).
    pose proof (JSMap_fold_set _ [] Hnd) as Hf. cbn [app] in Hf.
    rewrite <- Hf. by rewrite fold_left_fmap.
  - set (obj := fold_left _ checked []).
    assert (Hobj2 : obj ≡ₚ checked) by (unfold obj; by rewrite JSObject_fold_set).
    assert (Hnd : NoDup obj.*1) by (by rewrite Hobj2).
    pose proof (JSMap_fold_set obj [] Hnd) as Hf. cbn [app] in Hf.
    by rewrite Hf.
Qed.

(** X18: a registry saved to a writable disk and loaded again gives
    every chat the wallets it had, in the same order, every address its
    last observation, and every wallet the same chats (the chats may come
    in another order, since object keys are enumerated in their own
    order).  The chat ids are numbers that [String] and [Number] carry
    through the file, and no observation is stored under [__proto__]. *)
Theorem restart_restores (now : string) (t : Tracker Num) :
  writable (disk t) = true ->
  registryWf (watchedWallets t) ->
  NoDup (lastChecked t).*1 ->
  "__proto__"%string ∉ (lastChecked t).*1 ->
  Forall (fun e => numberText e.1) (watchedWallets t) ->
  let t' := loadData (saveData now t) in
  (forall chatId, getWallets chatId t' = getWallets chatId t) /\
  (forall a, JSMap.get a (lastChecked t') = JSMap.get a (lastChecked t)) /\
  (forall a, getChatsForWallet a t' ≡ₚ getChatsForWallet a t).
Proof.
  intros Hw Hwf Hck Hpc Hnum. cbn zeta.
  destruct (saveWallets_loadWallets now _ _ (disk t) Hw Hwf Hck Hpc Hnum) as [Hp1 Hp2].
  unfold loadData, saveData. cbn.
  destruct (loadWallets _) as [watched' checked'] eqn:Hl. cbn in *.
  assert (Hget : forall chatId, getWallets chatId (mkTracker watched' checked'
                   (saveWallets now (watchedWallets t) (lastChecked t) (disk t)))
                 = getWallets chatId t).
  { intros chatId. unfold getWallets. cbn.
    by rewrite (JSMap_get_perm (watchedWallets t) watched' chatId (proj1 Hwf)). }
  split; [exact Hget|]. split.
  - intros a. by apply JSMap_get_perm.
  - intros a.
    assert (Hkeys' : NoDup watched'.*1) by (rewrite Hp1; apply Hwf).
    destruct Hwf as [Hkeys _].
    set (t' := mkTracker watched' checked'
                 (saveWallets now (watchedWallets t) (lastChecked t) (disk t))) in *.
    change (getChatsForWallet a t' ≡ₚ getChatsForWallet a t).
    apply NoDup_Permutation.
    + exact (getChats_NoDup a t' Hkeys').
    + exact (getChats_NoDup a t Hkeys).
    + intros chatId.
      rewrite (getChats_elem a chatId t' Hkeys'), (getChats_elem a chatId t Hkeys).
      by rewrite Hget.
Qed.


(** ** The latest transactions *)

Section Sorting.
Context {A : Type} (key : A -> Z).

Lemma insertDesc_perm (x : A) (l : list A) : JSArray.insertDesc key x l ≡ₚ x :: l.
Proof.
  induction l as [|y r IH]; cbn; [done|].
  destruct (key x <? key y); [|done]. rewrite IH. apply Permutation_swap.
Qed.

Lemma sortDesc_perm (l : list A) : JSArray.sortDesc key l ≡ₚ l.
Proof.
  induction l as [|x l IH]; cbn; [done|].
  fold (JSArray.sortDesc key l). by rewrite insertDesc_perm, IH.
Qed.

Lemma insertDesc_sorted (x : A) (l : list A) :
  StronglySorted (JSArray.descending key) l -> StronglySorted (JSArray.descending key) (JSArray.insertDesc key x l).
Proof.
  induction 1 as [|y r Hr IH Hall]; cbn; [repeat constructor|].
  destruct (Z.ltb_spec (key x) (key y)) as [Hlt|Hge].
  - constructor; [done|]. rewrite insertDesc_perm. constructor; [|done].
    unfold JSArray.descending. lia.
  - constructor; [by constructor|]. constructor; [done|].
    eapply Forall_impl; [exact Hall|]. unfold JSArray.descending. intros z Hz. lia.
Qed.

Lemma sortDesc_sorted (l : list A) : StronglySorted (JSArray.descending key) (JSArray.sortDesc key l).
Proof.
  induction l as [|x l IH]; cbn; [constructor|]. by apply insertDesc_sorted.
Qed.

Lemma sliceTo_take (limit : Z) (l : list A) :
  exists n, JSArray.sliceTo limit l = take n l /\
            (0 <= limit -> n = Nat.min (Z.to_nat limit) (length l)).
Proof.
  unfold JSArray.sliceTo. eexists. split; [done|]. intros Hl.
  destruct (Z.ltb_spec limit 0); lia.
Qed.

End Sorting.

Lemma blockOf_hash (allTransfers : list AssetTransfer.t) (h : string) :
  h ∈ AssetTransfer.hash <$> allTransfers -> is_Some (blockOf allTransfers h).
Proof.
  intros (t & -> & Hin)%list_elem_of_fmap. unfold blockOf.
  destruct (List.find _ allTransfers) eqn:Hf; [by eexists|].
  apply list_elem_of_In in Hin.
  pose proof (List.find_none _ _ Hf _ Hin) as Hn. cbn in Hn.
  by rewrite bool_decide_eq_true_2 in Hn.
Qed.

(** What [latestHashes] selects from: each distinct hash once, with the
    block of its first transfer, in descending order of block; the result
    is a prefix of it. *)
Lemma latestHashes_prefix (limit : Z) (allTransfers : list AssetTransfer.t) :
  exists sorted n,
    latestHashes limit allTransfers = fst <$> take n sorted /\
    (0 <= limit -> n = Nat.min (Z.to_nat limit) (length sorted)) /\
    NoDup sorted.*1 /\
    (forall h, h ∈ sorted.*1 <-> h ∈ AssetTransfer.hash <$> allTransfers) /\
    Forall (fun it => blockOf allTransfers it.1 = Some it.2) sorted /\
    StronglySorted (JSArray.descending snd) sorted.
Proof.
  unfold latestHashes.
  set (unique := JSSet.ofList (AssetTransfer.hash <$> allTransfers)).
  assert (Hund : NoDup unique) by (apply JSSet_fold_add_NoDup; constructor).
  assert (Hunel : forall h, h ∈ unique <-> h ∈ AssetTransfer.hash <$> allTransfers).
  { intros h. unfold unique, JSSet.ofList. rewrite JSSet_fold_add_elem.
    rewrite elem_of_nil. split; [by intros [[]|?]|by right]. }
  destruct (mapM _ unique) as [items|] eqn:Hm.
  - apply mapM_Some_1 in Hm.
    assert (Hfst : items.*1 = unique).
    { clear -Hm. induction Hm as [|h it l k Hh _ IH]; cbn; [done|].
      destruct (blockOf allTransfers h); [|done]. injection Hh as <-. cbn.
      by rewrite IH. }
    assert (Hblocks : Forall (fun it => blockOf allTransfers it.1 = Some it.2) items).
    { clear -Hm. induction Hm as [|h it l k Hh _ IH]; constructor; [|done].
      destruct (blockOf allTransfers h) eqn:Hb; [|done].
      injection Hh as <-. exact Hb. }
    destruct (sliceTo_take limit (JSArray.sortDesc snd items)) as (n & -> & Hn).
    exists (JSArray.sortDesc snd items), n.
    pose proof (sortDesc_perm snd items) as Hp.
    split; [done|]. split; [done|]. split; [by rewrite Hp, Hfst|].
    split; [intros h; by rewrite Hp, Hfst|].
    split; [by rewrite Hp|]. apply sortDesc_sorted.
  - exfalso. assert (Hs : is_Some (mapM (fun hash => pair hash <$> blockOf allTransfers hash)
                                        unique)).
    { apply mapM_is_Some, Forall_forall. intros h Hh%Hunel. cbn.
      destruct (blockOf_hash allTransfers h Hh) as [n ->]. by eexists. }
    rewrite Hm in Hs. by destruct Hs.
Qed.

(** X19: when the three Alchemy requests succeed, the hashes returned
    are hashes of the transfers received, without repetition even when a
    transaction appears in both answers or several times, and for a
    non-negative limit there are at most [limit] of them. *)
Theorem getTransactionHashesFromAlchemy_distinct
    (address : string) (limit currentBlock : Z)
    (sentTxs receivedTxs : option (list AssetTransfer.t)) :
  getBlockNumber = Some currentBlock ->
  alchemySent (Z.max 0 (currentBlock - 100)) address (Z.min (limit * 2) 100)
    = Some sentTxs ->
  alchemyReceived (Z.max 0 (currentBlock - 100)) address (Z.min (limit * 2) 100)
    = Some receivedTxs ->
  let allTransfers := default [] sentTxs ++ default [] receivedTxs in
  let hashes := getTransactionHashesFromAlchemy address limit in
  NoDup hashes /\
  (forall h, h ∈ hashes -> h ∈ AssetTransfer.hash <$> allTransfers) /\
  (0 <= limit -> (length hashes <= Z.to_nat limit)%nat).
Proof.
  intros Hb Hs Hr. cbn zeta. unfold getTransactionHashesFromAlchemy.
  rewrite Hb, Hs, Hr.
  destruct (latestHashes_prefix limit (default [] sentTxs ++ default [] receivedTxs))
    as (sorted & n & -> & Hn & Hnd & Hel & _ & _).
  rewrite fmap_take. split; [|split].
  - rewrite <- (take_drop n sorted.*1) in Hnd. by apply NoDup_app in Hnd as [? _].
  - intros h Hh. apply Hel. rewrite <- (take_drop n sorted.*1).
    apply elem_of_app. by left.
  - intros Hl. rewrite length_take, length_fmap, (Hn Hl). lia.
Qed.

Lemma noOlder_sorted (allTransfers : list AssetTransfer.t) (items : list (string * Z)) :
  Forall (fun it => blockOf allTransfers it.1 = Some it.2) items ->
  StronglySorted (JSArray.descending snd) items ->
  StronglySorted (noOlder allTransfers) items.*1.
Proof.
  intros Hblocks Hsorted. induction Hsorted as [|it r Hr IH Hall]; cbn; [constructor|].
  apply Forall_cons in Hblocks as [Hit Hrest].
  constructor; [by apply IH|].
  rewrite Forall_fmap, Forall_forall. rewrite Forall_forall in Hall, Hrest.
  intros it' Hin. exists it.2, it'.2. split; [done|]. split; [by apply Hrest|].
  by apply Hall.
Qed.

(** X20: for a non-negative limit, the hashes come most recent block
    first, and no transaction left out is more recent than one returned. *)
Theorem getTransactionHashesFromAlchemy_latest
    (address : string) (limit currentBlock : Z)
    (sentTxs receivedTxs : option (list AssetTransfer.t)) :
  getBlockNumber = Some currentBlock ->
  alchemySent (Z.max 0 (currentBlock - 100)) address (Z.min (limit * 2) 100)
    = Some sentTxs ->
  alchemyReceived (Z.max 0 (currentBlock - 100)) address (Z.min (limit * 2) 100)
    = Some receivedTxs ->
  0 <= limit ->
  let allTransfers := default [] sentTxs ++ default [] receivedTxs in
  let hashes := getTransactionHashesFromAlchemy address limit in
  StronglySorted (noOlder allTransfers) hashes /\
  (forall h h', h ∈ hashes -> h' ∈ AssetTransfer.hash <$> allTransfers ->
     h' ∉ hashes -> noOlder allTransfers h h').
Proof.
  intros Hb Hs Hr Hl. cbn zeta. unfold getTransactionHashesFromAlchemy.
  rewrite Hb, Hs, Hr.
  destruct (latestHashes_prefix limit (default [] sentTxs ++ default [] receivedTxs))
    as (sorted & n & -> & _ & Hnd & Hel & Hblocks & Hsorted).
  rewrite <- (take_drop n sorted) in Hsorted, Hblocks.
  split.
  - apply noOlder_sorted.
    + by apply Forall_app in Hblocks as [? _].
    + by apply StronglySorted_app_1_l in Hsorted.
  - rewrite Forall_forall in Hblocks.
    intros h h' (it & -> & Hit)%list_elem_of_fmap Hh' Hout.
    apply Hel in Hh' as (it' & -> & Hit')%list_elem_of_fmap.
    rewrite <- (take_drop n sorted) in Hit'.
    exists it.2, it'.2.
    split; [apply Hblocks, elem_of_app; by left|]. split; [by apply Hblocks|].
    apply elem_of_app in Hit' as [Hit'|Hit'].
    + exfalso. apply Hout. by apply list_elem_of_fmap_2.
    + exact (StronglySorted_app_1_elem_of _ _ _ _ _ Hsorted Hit Hit').
Qed.

(** ** Polling *)

Lemma analyzeHash_keeps (address : string) (p : Poll Num) (txHash : string) :
  let p' := analyzeHash address p txHash in
  tracker p' = tracker p /\ hasChanges p' = hasChanges p /\
  exists new, outbox p' = outbox p ++ new /\ Forall (routedFor (tracker p) address) new.
Proof.
  cbn zeta. unfold analyzeHash, Blockchain_analyzeTransaction.
  destruct (analyzeTransaction txHash address (world p)) as [[a|] w'] eqn:Ha; cbn.
  - assert (Hr : renderable (Analysis.swap a))
      by (eapply analyze_renderable; by rewrite Ha).
    pose proof (renderable_notifiable a Hr) as Hn. cbn in Hn. rewrite Hn. cbn.
    split; [done|]. split; [done|]. eexists. split; [done|].
    rewrite Forall_fmap, Forall_forall. by intros chatId Hc.
  - split; [done|]. split; [done|]. exists []. by rewrite app_nil_r.
Qed.

Lemma analyzeHashes_keep (address : string) (txHashes : list string) :
  forall p,
    let p' := fold_left (analyzeHash address) txHashes p in
    tracker p' = tracker p /\ hasChanges p' = hasChanges p /\
    exists new, outbox p' = outbox p ++ new /\ Forall (routedFor (tracker p) address) new.
Proof.
  induction txHashes as [|h rest IH]; intros p; cbn.
  - split; [done|]. split; [done|]. exists []. by rewrite app_nil_r.
  - destruct (analyzeHash_keeps address p h) as (Ht & Hc & new1 & Ho1 & Hn1).
    destruct (IH (analyzeHash address p h)) as (Ht' & Hc' & new2 & Ho2 & Hn2).
    cbn zeta in *. split; [congruence|]. split; [congruence|].
    exists (new1 ++ new2). split; [by rewrite Ho2, Ho1, app_assoc|].
    apply Forall_app. split; [done|]. by rewrite <- Ht.
Qed.

Lemma analyzeChanges_keeps (p : Poll Num) (address balance : string) (txCount : Z) :
  let p' := analyzeChanges p address balance txCount in
  tracker p' = tracker p /\
  exists new, outbox p' = outbox p ++ new /\ Forall (routedFor (tracker p) address) new.
Proof.
  cbn zeta. unfold analyzeChanges.
  assert (Hnil : exists new : list (Notification Num),
            outbox p = outbox p ++ new /\ Forall (routedFor (tracker p) address) new)
    by (exists []; by rewrite app_nil_r).
  destruct (JSMap.get address (lastChecked (tracker p))) as [lastData|]; [|done].
  destruct (_ || _); [|done]. cbn.
  destruct (analyzeHashes_keep address
              (getLatestTransactionHashes address
                 (hashLimit (txCount - Checked.txCount lastData))) p)
    as (Ht & _ & Hnew).
  done.
Qed.

(** One address: the registry and the disk stay; only the entry of the
    address in [lastChecked] may change, to what was observed; the new
    callback calls are about the address. *)
Lemma checkAddress_keeps (p : Poll Num) (address : string) :
  let p' := checkAddress p address in
  watchedWallets (tracker p') = watchedWallets (tracker p) /\
  disk (tracker p') = disk (tracker p) /\
  (forall other, other <> address ->
     JSMap.get other (lastChecked (tracker p')) = JSMap.get other (lastChecked (tracker p))) /\
  JSMap.get address (lastChecked (tracker p')) =
    match observation address with
    | Some seen => Some seen
    | None => JSMap.get address (lastChecked (tracker p))
    end /\
  exists new, outbox p' = outbox p ++ new /\ Forall (routedFor (tracker p) address) new.
Proof.
  cbn zeta. unfold checkAddress, getBalance, getTransactionCount, observation.
  assert (Hnil : exists new : list (Notification Num),
            outbox p = outbox p ++ new /\ Forall (routedFor (tracker p) address) new)
    by (exists []; by rewrite app_nil_r).
  destruct (providerBalance address) as [balance|]; [|done].
  destruct (providerTransactionCount address) as [txCount|]; [|done].
  destruct (analyzeChanges_keeps p address (Ethers.formatEther balance) txCount)
    as [Ht Hnew].
  cbn. rewrite Ht. split; [done|]. split; [done|]. split.
  - intros other Hne. by rewrite JSMap_get_set, decide_False.
  - split; [by rewrite JSMap_get_set, decide_True|]. done.
Qed.

Lemma routedFor_watched (t t' : Tracker Num) (address : string) (n : Notification Num) :
  watchedWallets t' = watchedWallets t -> routedFor t address n -> routedFor t' address n.
Proof.
  intros Hw (Ha & Hc & Hr). split; [done|]. split; [|done].
  unfold getChatsForWallet in *. by rewrite Hw.
Qed.

Lemma checkAddresses_keep (l : list string) :
  forall p, NoDup l ->
    let p' := fold_left checkAddress l p in
    watchedWallets (tracker p') = watchedWallets (tracker p) /\
    disk (tracker p') = disk (tracker p) /\
    (forall a, JSMap.get a (lastChecked (tracker p')) =
       match observation a with
       | Some seen => if bool_decide (a ∈ l) then Some seen
                      else JSMap.get a (lastChecked (tracker p))
       | None => JSMap.get a (lastChecked (tracker p))
       end) /\
    exists new, outbox p' = outbox p ++ new /\
      Forall (fun n => aboutAddress n ∈ l /\ routedFor (tracker p) (aboutAddress n) n) new.
Proof.
  induction l as [|address rest IH]; intros p Hnd; cbn zeta; cbn [fold_left].
  - split; [done|]. split; [done|]. split.
    + intros a. by destruct (observation a).
    + exists []. by rewrite app_nil_r.
  - apply NoDup_cons in Hnd as [Hnotin Hnd].
    destruct (checkAddress_keeps p address) as (Hw1 & Hd1 & Hother & Hself & new1 & Ho1 & Hn1).
    destruct (IH (checkAddress p address) Hnd) as (Hw2 & Hd2 & Hlc & new2 & Ho2 & Hn2).
    cbn zeta in *. split; [congruence|]. split; [congruence|]. split.
    + intros a. rewrite Hlc. destruct (decide (a = address)) as [->|Hne].
      * rewrite Hself. rewrite (bool_decide_eq_false_2 (address ∈ rest)) by done.
        rewrite (bool_decide_eq_true_2 (address ∈ address :: rest)) by (by left).
        by destruct (observation address).
      * rewrite (Hother a Hne).
        destruct (observation a); [|done].
        destruct (decide (a ∈ rest)) as [Hin|Hout].
        -- rewrite !bool_decide_eq_true_2; [done|by right|done].
        -- rewrite !bool_decide_eq_false_2; [done| |done].
           by intros [?|?]%elem_of_cons.
    + exists (new1 ++ new2). split; [by rewrite Ho2, Ho1, app_assoc|].
      apply Forall_app. split.
      * eapply Forall_impl; [exact Hn1|]. intros n Hr.
        destruct Hr as (Ha & Hr). split; [rewrite Ha; by left|].
        rewrite Ha. by split.
      * eapply Forall_impl; [exact Hn2|]. intros n [Hin Hr].
        split; [by right|]. by eapply routedFor_watched.
Qed.

(** X21: a poll leaves the registry as it is, and every call it makes of
    the change callback is about a polled address, goes to a chat that
    tracks that address, and carries an analysis of type BUY, SELL or SWAP
    that the formatter renders as a text. *)
Theorem checkWalletChanges_routing (now : string) (t : Tracker Num) (w : World) :
  let p := checkWalletChanges now t w in
  watchedWallets (tracker p) = watchedWallets t /\
  Forall (wellRouted t) (outbox p).
Proof.
  cbn zeta. unfold checkWalletChanges.
  assert (Hnd : NoDup (allAddresses t)).
  { unfold allAddresses.
    apply (allAddresses_fold (watchedWallets t) [] (NoDup_nil_2)). }
  destruct (checkAddresses_keep (allAddresses t) (mkPoll t w [] false) Hnd)
    as (Hw & _ & _ & new & Ho & Hn).
  cbn zeta in *. cbn in Hw, Ho.
  assert (Hall : Forall (wellRouted t)
                   (outbox (fold_left checkAddress (allAddresses t) (mkPoll t w [] false)))).
  { rewrite Ho. eapply Forall_impl; [exact Hn|]. cbn.
    intros n (Hin & _ & Hc & Hr). split; [done|]. split; [done|].
    split; [by apply renderable_notifiable|by apply renderable_formats]. }
  destruct (hasChanges _); cbn; by split.
Qed.

Lemma checkAddress_unchanged (p : Poll Num) (address : string) :
  unchanged (lastChecked (tracker p)) address ->
  outbox (checkAddress p address) = outbox p /\
  world (checkAddress p address) = world p /\
  hasChanges (checkAddress p address) = hasChanges p.
Proof.
  unfold unchanged, observation, checkAddress, getBalance, getTransactionCount,
    analyzeChanges.
  destruct (providerBalance address) as [balance|]; [|done].
  destruct (providerTransactionCount address) as [txCount|]; [|done].
  destruct (JSMap.get address (lastChecked (tracker p))) as [lastData|]; [|done].
  intros ->. cbn. by rewrite !bool_decide_eq_true_2.
Qed.

(** X22: a poll in which no tracked address shows anything new (each
    one is seen for the first time, or cannot be read, or has the balance
    and count of the last check) calls nobody, analyses nothing (the token
    cache is untouched) and does not save. *)
Theorem checkWalletChanges_quiet (now : string) (t : Tracker Num) (w : World) :
  (forall a, a ∈ allAddresses t -> unchanged (lastChecked t) a) ->
  let p := checkWalletChanges now t w in
  outbox p = [] /\ world p = w /\ hasChanges p = false /\ disk (tracker p) = disk t.
Proof.
  intros Hquiet. cbn zeta. unfold checkWalletChanges.
  assert (Hnd : NoDup (allAddresses t)).
  { unfold allAddresses.
    apply (allAddresses_fold (watchedWallets t) [] (NoDup_nil_2)). }
  assert (Hfold : forall l p, NoDup l ->
            (forall a, a ∈ l -> unchanged (lastChecked (tracker p)) a) ->
            outbox (fold_left checkAddress l p) = outbox p /\
            world (fold_left checkAddress l p) = world p /\
            hasChanges (fold_left checkAddress l p) = hasChanges p /\
            disk (tracker (fold_left checkAddress l p)) = disk (tracker p)).
  { clear Hquiet Hnd.
    induction l as [|address rest IH]; intros p Hnd Hq; cbn [fold_left]; [done|].
    apply NoDup_cons in Hnd as [Hnotin Hnd].
    assert (Hhere : address ∈ address :: rest) by (by left).
    destruct (checkAddress_unchanged p address (Hq _ Hhere)) as (Ho & Hw & Hc).
    destruct (checkAddress_keeps p address) as (_ & Hd & Hother & _).
    destruct (IH (checkAddress p address) Hnd) as (Ho' & Hw' & Hc' & Hd').
    - intros a Ha. unfold unchanged. cbn zeta in Hother. rewrite Hother.
      + apply Hq. by right.
      + by intros ->.
    - cbn zeta in Hd. split; [congruence|]. split; [congruence|]. split; congruence. }
  destruct (Hfold (allAddresses t) (mkPoll t w [] false) Hnd Hquiet)
    as (Ho & Hw & Hc & Hd).
  cbn in Ho, Hw, Hc, Hd. rewrite Hc. done.
Qed.

(** X23: after a poll, every tracked address whose balance and count
    were both read has them as its last observation; every other address
    keeps the observation it had. *)
Theorem checkWalletChanges_records
    (now : string) (t : Tracker Num) (w : World) (a : string) :
  JSMap.get a (lastChecked (tracker (checkWalletChanges now t w))) =
    match observation a with
    | Some seen => if bool_decide (a ∈ allAddresses t) then Some seen
                   else JSMap.get a (lastChecked t)
    | None => JSMap.get a (lastChecked t)
    end.
Proof.
  unfold checkWalletChanges.
  assert (Hnd : NoDup (allAddresses t)).
  { unfold allAddresses.
    apply (allAddresses_fold (watchedWallets t) [] (NoDup_nil_2)). }
  destruct (checkAddresses_keep (allAddresses t) (mkPoll t w [] false) Hnd)
    as (_ & _ & Hlc & _).
  cbn zeta in Hlc. destruct (hasChanges _); cbn; by rewrite Hlc.
Qed.


(** ** Sending a notification *)

Lemma renderable_formats_text (a : Analysis.t) (label : option string) :
  renderable (Analysis.swap a) ->
  exists text, text <> ""%string /\
    formatTransactionSummary (Some a) label = Normal (Some text).
Proof.
  intros Hr. unfold formatTransactionSummary, Analysis.type.
  destruct Hr as [[-> [t Ht]] | [[-> [t Ht]] | [-> [[t1 Ht1] [t2 Ht2]]]]];
    cbn; rewrite ?Ht, ?Ht1, ?Ht2; cbn; eexists; (split; [|reflexivity]);
    discriminate.
Qed.

(** X24: for an analysis returned by [analyzeTransaction], the
    notification does not raise and has a non-empty text; the chat gets
    that text when Telegram accepts the message, and the configured
    channel gets the same text only after the chat got it. *)
Theorem sendWalletNotification_delivers
    (chatId : Num) (address txHash wallet : string) (w : World)
    (a : Analysis.t) (tg : Telegram Num) :
  (analyzeTransaction txHash wallet w).1 = Some a ->
  exists text tg',
    text <> ""%string /\
    formatTransactionSummary (Some a) (Some (shortAddress address)) = Normal (Some text) /\
    sendWalletNotification chatId address (Some a) tg = Normal tg' /\
    delivered tg' =
      delivered tg ++
      (if sendMessage (attempts tg) (ToChat chatId) text then
         (ToChat chatId, text) ::
         match channelId with
         | Some channel =>
             if sendMessage (S (attempts tg)) (ToChannel channel) text
             then [(ToChannel channel, text)] else []
         | None => []
         end
       else []).
Proof.
  intros Ha. apply analyze_renderable in Ha.
  destruct (renderable_formats_text a (Some (shortAddress address)) Ha)
    as (text & Hne & Hf).
  exists text. unfold sendWalletNotification. rewrite Hf.
  rewrite bool_decide_eq_false_2 by done. unfold trySend.
  destruct (sendMessage (attempts tg) (ToChat chatId) text); cbn.
  - destruct channelId as [channel|]; cbn.
    + destruct (sendMessage (S (attempts tg)) (ToChannel channel) text); cbn;
        eexists; (split; [done|]); (split; [done|]); (split; [done|]);
        by rewrite <- ?app_assoc.
    + eexists. done.
  - eexists. split; [done|]. split; [done|]. split; [done|]. by rewrite app_nil_r.
Qed.


End TokenUtils.

Example formatUnits_one : Ethers.formatUnits 1000000000000000000 18 = "1.0"%string.
Proof. vm_compute. reflexivity. Qed.

Example formatUnits_500 : Ethers.formatUnits 500000000 6 = "500.0"%string.
Proof. vm_compute. reflexivity. Qed.

Example formatUnits_frac : Ethers.formatUnits 1234500 6 = "1.2345"%string.
Proof. vm_compute. reflexivity. Qed.

Example formatUnits_small : Ethers.formatUnits 5 3 = "0.005"%string.
Proof. vm_compute. reflexivity. Qed.

Example formatUnits_int : Ethers.formatUnits 42 0 = "42"%string.
Proof. vm_compute. reflexivity. Qed.

Example formatUnits_zero : Ethers.formatUnits 0 18 = "0.0"%string.
Proof. vm_compute. reflexivity. Qed.


(** ** The definitions on the sample chain *)

Local Notation "'sampleResolve'" :=
  (getTokenInfo Sample.readSymbol Sample.readName Sample.readDecimals
     Sample.newContract).
Local Notation "'sampleParse'" :=
  (parseTransferEvents Sample.readSymbol Sample.readName Sample.readDecimals
     Sample.newContract Sample.transferTopic Sample.getAddress Sample.BigInt).
Local Notation "'sampleDetect'" :=
  (detectSwap Sample.readSymbol Sample.readName Sample.readDecimals
     Sample.newContract Sample.transferTopic Sample.getAddress Sample.BigInt).
Local Notation "'sampleAnalyze' getTx getReceipt" :=
  (analyzeTransaction Sample.readSymbol Sample.readName Sample.readDecimals
     Sample.newContract getTx getReceipt
     Sample.transferTopic Sample.getAddress Sample.BigInt)
  (at level 10, getTx at level 9, getReceipt at level 9).
Local Notation "'sampleFormat'" :=
  (formatTransactionSummary Z Sample.parseFloat Sample.float_of_Z
     Sample.float_mul Sample.float_gt Sample.toFixed).

(** The scenario of the specification: token A (18 decimals) leaves the
    wallet, token B (6 decimals) arrives, through a known router. *)
Example swap_scenario :
  (sampleDetect Sample.routerTx Sample.swapReceipt Sample.wallet Sample.w0).1 =
    Some (SwapInfo.mk "SWAP" "BaseSwap"
            (Some (Transfer.mk Sample.tokenA "AAA" "Token A" 18
                     Sample.wallet Sample.router 1000000000000000000 "1.0"))
            (Some (Transfer.mk Sample.tokenB "BBB" "Token B" 6
                     Sample.router Sample.wallet 500000000 "500.0"))
            None None None None
            [Transfer.mk Sample.tokenA "AAA" "Token A" 18
               Sample.wallet Sample.router 1000000000000000000 "1.0";
             Transfer.mk Sample.tokenB "BBB" "Token B" 6
               Sample.router Sample.wallet 500000000 "500.0"]).
Proof. vm_compute. reflexivity. Qed.

(** A plain send with no log is not reported. *)
Example plain_scenario :
  (sampleAnalyze Sample.plainTransaction Sample.plainReceiptOf
     "0xabc" Sample.wallet Sample.w0).1 = None.
Proof. vm_compute. reflexivity. Qed.

(** The second resolution of token A issues no read. *)
Example resolve_twice_reads :
  reads (sampleResolve Sample.tokenA Sample.w0).2 = 3%nat /\
  reads (sampleResolve Sample.tokenA (sampleResolve Sample.tokenA Sample.w0).2).2 = 3%nat.
Proof. vm_compute. split; reflexivity. Qed.

(** ** The properties at work on the sample chain *)

Local Notation "'onSample' f" :=
  (f Sample.readSymbol Sample.readName Sample.readDecimals Sample.newContract
     Sample.transferTopic Sample.getAddress Sample.BigInt)
  (at level 10, f at level 9).

(** An analysis of type TRANSFER yields no notification. *)
Lemma formatTransactionSummary_other_type_witness :
  Analysis.type Sample.plainTransferAnalysis <> "BUY"%string /\
  Analysis.type Sample.plainTransferAnalysis <> "SELL"%string /\
  Analysis.type Sample.plainTransferAnalysis <> "SWAP"%string /\
  sampleFormat (Some Sample.plainTransferAnalysis) (Some Sample.wallet) = Normal None.
Proof.
  split; [vm_compute; discriminate|].
  split; [vm_compute; discriminate|].
  split; [vm_compute; discriminate|].
  apply (formatTransactionSummary_other_type Z Sample.parseFloat Sample.float_of_Z
           Sample.float_mul Sample.float_gt Sample.toFixed
           Sample.plainTransferAnalysis (Some Sample.wallet));
    vm_compute; discriminate.
Defined.

(** The missing analysis is answered with a text; the null answer for the
    TRANSFER analysis comes from a non-null, non-actionable analysis. *)
Lemma formatTransactionSummary_null_witness :
  sampleFormat None (Some Sample.wallet) =
    Normal (Some "Unable to analyze transaction"%string) /\
  exists a, Some Sample.plainTransferAnalysis = Some a /\
            ~ actionable (Analysis.type a).
Proof.
  pose proof (formatTransactionSummary_null Z Sample.parseFloat Sample.float_of_Z
                Sample.float_mul Sample.float_gt Sample.toFixed
                (Some Sample.wallet)) as [Hnull Honly].
  split; [exact Hnull|].
  apply Honly. vm_compute. reflexivity.
Defined.

(** A single transfer from the wallet is not classified. *)
Lemma detectSwap_few_transfers_witness :
  (length (sampleParse Sample.transferReceipt Sample.w0).1 < 2)%nat /\
  (sampleDetect Sample.routerTx Sample.transferReceipt Sample.wallet Sample.w0).1 = None.
Proof.
  split; [vm_compute; lia|].
  apply (onSample detectSwap_few_transfers
           Sample.routerTx Sample.transferReceipt Sample.wallet Sample.w0).
  vm_compute. lia.
Defined.

(** The swap of the sample chain: token A in, token B out. *)
Lemma detectSwap_swap_witness :
  let transfers := (sampleParse Sample.swapReceipt Sample.w0).1 in
  let walletLower := JS.toLowerCase Sample.wallet in
  (2 <= length transfers)%nat /\
  List.filter (sentBy walletLower) transfers <> [] /\
  List.filter (receivedBy walletLower) transfers <> [] /\
  exists tokenIn tokenOut,
    List.find (sentBy walletLower) transfers = Some tokenIn /\
    List.find (receivedBy walletLower) transfers = Some tokenOut /\
    (sampleDetect Sample.routerTx Sample.swapReceipt Sample.wallet Sample.w0).1 =
      Some (SwapInfo.mk "SWAP" (dexName Sample.routerTx) (Some tokenIn) (Some tokenOut)
              None None None None transfers).
Proof.
  cbv zeta.
  split; [vm_compute; lia|].
  split; [vm_compute; discriminate|].
  split; [vm_compute; discriminate|].
  apply (onSample detectSwap_swap
           Sample.routerTx Sample.swapReceipt Sample.wallet Sample.w0);
    vm_compute; first [lia | discriminate].
Defined.

(** A sale paid 0.25 ether and a purchase without attached value. *)
Lemma detectSwap_one_sided_witness :
  (2 <= length (sampleParse Sample.sellReceipt Sample.w0).1)%nat /\
  (exists tokenSold,
     List.find (sentBy (JS.toLowerCase Sample.wallet))
       (sampleParse Sample.sellReceipt Sample.w0).1 = Some tokenSold /\
     (sampleDetect Sample.payingTx Sample.sellReceipt Sample.wallet Sample.w0).1 =
       Some (SwapInfo.mk "SELL" "BaseSwap" None None
               (Some tokenSold) (Some "0.25"%string) None None
               (sampleParse Sample.sellReceipt Sample.w0).1)) /\
  (exists tokenBought,
     List.find (receivedBy (JS.toLowerCase Sample.wallet))
       (sampleParse Sample.buyReceipt Sample.w0).1 = Some tokenBought /\
     (sampleDetect Sample.routerTx Sample.buyReceipt Sample.wallet Sample.w0).1 =
       Some (SwapInfo.mk "BUY" "BaseSwap" None None
               None None (Some tokenBought) (Some "0"%string)
               (sampleParse Sample.buyReceipt Sample.w0).1)).
Proof.
  assert (Hsell : (2 <= length (sampleParse Sample.sellReceipt Sample.w0).1)%nat)
    by (vm_compute; lia).
  assert (Hbuy : (2 <= length (sampleParse Sample.buyReceipt Sample.w0).1)%nat)
    by (vm_compute; lia).
  split; [exact Hsell|]. split.
  - apply (proj1 (onSample detectSwap_one_sided
             Sample.payingTx Sample.sellReceipt Sample.wallet Sample.w0 Hsell));
      vm_compute; first [reflexivity | discriminate].
  - apply (proj2 (onSample detectSwap_one_sided
             Sample.routerTx Sample.buyReceipt Sample.wallet Sample.w0 Hbuy));
      vm_compute; first [reflexivity | discriminate].
Defined.

(** Five units of token A (18 decimals) are shown as exactly five. *)
Lemma scaledValue_exact_witness :
  let t := Transfer.mk Sample.tokenA "AAA" "Token A" 18
             Sample.wallet Sample.pool 5000000000000000000 "5.0" in
  In t (sampleParse Sample.transferReceipt Sample.w0).1 /\
  In 18%nat [0; 6; 8; 18]%nat /\
  Transfer.decimals t = 18%nat /\
  Transfer.value t = Z.of_N (10 ^ N.of_nat 18 * 5) /\
  exists q, Ethers.decimalValue (Transfer.valueFormatted t) = Some q /\
            (q == inject_Z (Z.of_N 5))%Q.
Proof.
  cbv zeta.
  assert (Hin : In (Transfer.mk Sample.tokenA "AAA" "Token A" 18
                      Sample.wallet Sample.pool 5000000000000000000 "5.0")
                   (sampleParse Sample.transferReceipt Sample.w0).1)
    by (vm_compute; left; reflexivity).
  assert (Hd : In 18%nat [0; 6; 8; 18]%nat) by (cbn; tauto).
  split; [exact Hin|]. split; [exact Hd|].
  split; [reflexivity|]. split; [reflexivity|].
  exact (onSample scaledValue_exact Sample.transferReceipt Sample.w0 _ 5%N 18%nat
           Hin Hd eq_refl eq_refl).
Defined.


(** The sample chain reports 18 and 6 decimals and the cache is empty:
    of the two logs of the swap with the huge amount, the one in range is
    decoded. *)
Lemma parseTransferEvents_decodes_witness :
  decimalsBounded Sample.readDecimals Sample.w0 /\
  core <$> (sampleParse SampleRange.hugeReceipt Sample.w0).1 =
    omap (decodeRanged Sample.transferTopic Sample.getAddress Sample.BigInt)
         (Receipt.logs SampleRange.hugeReceipt) /\
  length (sampleParse SampleRange.hugeReceipt Sample.w0).1 =
    length (List.filter (ranged Sample.transferTopic Sample.getAddress Sample.BigInt)
              (Receipt.logs SampleRange.hugeReceipt)).
Proof.
  assert (Hb : decimalsBounded Sample.readDecimals Sample.w0).
  { split.
    - intros key info H. vm_compute in H. discriminate.
    - intros n a d. unfold Sample.readDecimals.
      repeat case_bool_decide; intros [= <-]; lia. }
  split; [exact Hb|].
  pose proof (onSample parseTransferEvents_decodes SampleRange.hugeReceipt Sample.w0)
    as H.
  cbv zeta in H. destruct H as (_ & _ & _ & _ & _ & H). exact (H Hb).
Defined.

(** A provider that finds nothing, and the plain send that is found and
    not reported: the answer is [null] both times. *)
Lemma analyzeTransaction_null_witness :
  (found (Sample.missingTransaction "0xabc") = false \/
   found (Sample.missingReceipt "0xabc") = false) /\
  sampleAnalyze Sample.missingTransaction Sample.missingReceipt
    "0xabc" Sample.wallet Sample.w0 = (None, Sample.w0) /\
  (sampleAnalyze Sample.plainTransaction Sample.plainReceiptOf
     "0xabc" Sample.wallet Sample.w0).1 = None.
Proof.
  assert (Hmissing : found (Sample.missingTransaction "0xabc") = false \/
                     found (Sample.missingReceipt "0xabc") = false)
    by (left; reflexivity).
  split; [exact Hmissing|]. split.
  - exact (proj1 (analyzeTransaction_null
             Sample.readSymbol Sample.readName Sample.readDecimals Sample.newContract
             Sample.missingTransaction Sample.missingReceipt
             Sample.transferTopic Sample.getAddress Sample.BigInt
             "0xabc" Sample.wallet Sample.w0) Hmissing).
  - apply (proj2 (analyzeTransaction_null
             Sample.readSymbol Sample.readName Sample.readDecimals Sample.newContract
             Sample.plainTransaction Sample.plainReceiptOf
             Sample.transferTopic Sample.getAddress Sample.BigInt
             "0xabc" Sample.wallet Sample.w0) Sample.plainTx Sample.plainReceipt);
      reflexivity.
Defined.

(** ** Where the code departs from the specification *)

(** C1 as stated fails: a transaction that is not found, and one whose
    lookup is rejected, are answered with the very value that answers a
    transaction found and not reported. *)
Lemma analyzeTransaction_failure_not_distinct :
  found (Sample.missingTransaction "0xabc") = false /\
  found (Sample.rejectedTransaction "0xabc") = false /\
  found (Sample.plainTransaction "0xabc") = true /\
  found (Sample.plainReceiptOf "0xabc") = true /\
  (sampleAnalyze Sample.missingTransaction Sample.missingReceipt
     "0xabc" Sample.wallet Sample.w0).1 =
  (sampleAnalyze Sample.plainTransaction Sample.plainReceiptOf
     "0xabc" Sample.wallet Sample.w0).1 /\
  (sampleAnalyze Sample.rejectedTransaction Sample.rejectedReceipt
     "0xabc" Sample.wallet Sample.w0).1 =
  (sampleAnalyze Sample.plainTransaction Sample.plainReceiptOf
     "0xabc" Sample.wallet Sample.w0).1.
Proof. vm_compute. tauto. Qed.

(** C6 as stated fails: a log that has the transfer signature and no
    indexed topic matches, and is skipped; no transfer is returned for one
    matching log. *)
Lemma parseTransferEvents_length_counterexample :
  length (List.filter (isTransfer Sample.transferTopic)
            (Receipt.logs Sample.bareReceipt)) = 1%nat /\
  length (sampleParse Sample.bareReceipt Sample.w0).1 = 0%nat /\
  length (sampleParse Sample.bareReceipt Sample.w0).1 <>
  length (List.filter (isTransfer Sample.transferTopic)
            (Receipt.logs Sample.bareReceipt)).
Proof.
  vm_compute. split; [reflexivity|]. split; [reflexivity|discriminate].
Qed.

(** A log that decodes is skipped as well when the library refuses its
    amount: of two decodable logs one transfer is returned, after the
    token of the skipped log has been read and cached. *)
Example parseTransferEvents_skips_unformattable :
  let r := sampleParse SampleRange.hugeReceipt Sample.w0 in
  length (List.filter (decodable Sample.transferTopic Sample.getAddress Sample.BigInt)
            (Receipt.logs SampleRange.hugeReceipt)) = 2%nat /\
  (Transfer.tokenAddress <$> r.1) = [Sample.tokenB] /\
  reads r.2 = 6%nat /\
  is_Some (tokenCache r.2 !! Sample.tokenA).
Proof. vm_compute. repeat (split; [reflexivity|]). by eexists. Qed.



(** ** The further properties at work *)

Local Notation "'sampleSwapAnalyze'" :=
  (sampleAnalyze SamplePoll.swapTransaction SamplePoll.swapReceiptOf).

(** The swap of the sample chain lists its two transfers; the token it
    gives leaves the wallet and the token it takes arrives there. *)
Lemma detectSwap_result_legs_witness :
  exists info,
    (sampleDetect Sample.routerTx Sample.swapReceipt Sample.wallet Sample.w0).1 =
      Some info /\
    let transfers := (sampleParse Sample.swapReceipt Sample.w0).1 in
    let walletLower := JS.toLowerCase Sample.wallet in
    SwapInfo.allTransfers info = transfers /\
    (2 <= length transfers)%nat /\
    (forall t, SwapInfo.tokenIn info = Some t \/ SwapInfo.tokenSold info = Some t ->
               In t transfers /\ sentBy walletLower t = true) /\
    (forall t, SwapInfo.tokenOut info = Some t \/ SwapInfo.tokenBought info = Some t ->
               In t transfers /\ receivedBy walletLower t = true).
Proof.
  eexists. split; [vm_compute; reflexivity|].
  apply (onSample detectSwap_result_legs
           Sample.routerTx Sample.swapReceipt Sample.wallet Sample.w0).
  vm_compute. reflexivity.
Defined.

(** The sale of the sample chain: the wallet sends and does not receive. *)
Lemma detectSwap_type_directions_witness :
  exists info,
    (sampleDetect Sample.payingTx Sample.sellReceipt Sample.wallet Sample.w0).1 =
      Some info /\
    let transfers := (sampleParse Sample.sellReceipt Sample.w0).1 in
    let walletLower := JS.toLowerCase Sample.wallet in
    existsb (sentBy walletLower) transfers =
      negb (bool_decide (SwapInfo.type info = "BUY"%string)) /\
    existsb (receivedBy walletLower) transfers =
      negb (bool_decide (SwapInfo.type info = "SELL"%string)).
Proof.
  eexists. split; [vm_compute; reflexivity|].
  apply (onSample detectSwap_type_directions
           Sample.payingTx Sample.sellReceipt Sample.wallet Sample.w0).
  vm_compute. reflexivity.
Defined.

(** The analysis of the sample swap is rendered under any label. *)
Lemma analyzeTransaction_formats_witness :
  exists a,
    (sampleSwapAnalyze "0xa1" Sample.wallet Sample.w0).1 = Some a /\
    exists text, sampleFormat (Some a) (Some "0x1111...1111"%string) = Normal (Some text).
Proof.
  eexists. split; [vm_compute; reflexivity|].
  apply (analyzeTransaction_formats
           Sample.readSymbol Sample.readName Sample.readDecimals Sample.newContract
           SamplePoll.swapTransaction SamplePoll.swapReceiptOf
           Sample.transferTopic Sample.getAddress Sample.BigInt
           Z Sample.parseFloat Sample.float_of_Z Sample.float_mul Sample.float_gt
           Sample.toFixed "0xa1" Sample.wallet Sample.w0).
  vm_compute. reflexivity.
Defined.

(** Token A resolved under its address in upper case is served from the
    entry made for the lower-case address. *)
Lemma getTokenInfo_case_insensitive_witness :
  let upper := "0xAAAAAAAAAAAAAAAAAAAAAAAAAAAAAAAAAAAAAAAA"%string in
  Sample.newContract Sample.tokenA = true /\
  JS.toLowerCase upper = JS.toLowerCase Sample.tokenA /\
  sampleResolve upper (sampleResolve Sample.tokenA Sample.w0).2 =
    ((sampleResolve Sample.tokenA Sample.w0).1, (sampleResolve Sample.tokenA Sample.w0).2).
Proof.
  cbv zeta.
  split; [reflexivity|]. split; [vm_compute; reflexivity|].
  apply (getTokenInfo_case_insensitive
           Sample.readSymbol Sample.readName Sample.readDecimals Sample.newContract);
    vm_compute; reflexivity.
Defined.


(** The two transfers of token A in the sale display the same metadata. *)
Lemma parseTransferEvents_one_description_witness :
  let t1 := Transfer.mk Sample.tokenA "AAA" "Token A" 18
              Sample.wallet Sample.router 1000000000000000000 "1.0" in
  let t2 := Transfer.mk Sample.tokenA "AAA" "Token A" 18
              Sample.router Sample.pool 1000000000000000000 "1.0" in
  In t1 (sampleParse Sample.sellReceipt Sample.w0).1 /\
  In t2 (sampleParse Sample.sellReceipt Sample.w0).1 /\
  Sample.newContract (Transfer.tokenAddress t1) = true /\
  Sample.newContract (Transfer.tokenAddress t2) = true /\
  JS.toLowerCase (Transfer.tokenAddress t1) = JS.toLowerCase (Transfer.tokenAddress t2) /\
  metadata t1 = metadata t2.
Proof.
  cbv zeta.
  assert (H1 : In (Transfer.mk Sample.tokenA "AAA" "Token A" 18
              Sample.wallet Sample.router 1000000000000000000 "1.0")
              (sampleParse Sample.sellReceipt Sample.w0).1)
    by (vm_compute; left; reflexivity).
  assert (H2 : In (Transfer.mk Sample.tokenA "AAA" "Token A" 18
              Sample.router Sample.pool 1000000000000000000 "1.0")
              (sampleParse Sample.sellReceipt Sample.w0).1)
    by (vm_compute; right; left; reflexivity).
  split; [exact H1|]. split; [exact H2|].
  split; [reflexivity|]. split; [reflexivity|]. split; [reflexivity|].
  apply (onSample parseTransferEvents_one_description
           Sample.sellReceipt Sample.w0 _ _ H1 H2); reflexivity.
Defined.

(** The swap decoded and classified from the empty cache and from a
    cache that describes token A with another name and six decimals. *)
Lemma detectSwap_ignores_metadata_witness :
  decimalsBounded Sample.readDecimals Sample.w0 /\
  decimalsBounded Sample.readDecimals SampleRange.renamed /\
  core <$> (sampleParse Sample.swapReceipt Sample.w0).1 =
    core <$> (sampleParse Sample.swapReceipt SampleRange.renamed).1 /\
  category (sampleDetect Sample.routerTx Sample.swapReceipt Sample.wallet Sample.w0).1 =
    category (sampleDetect Sample.routerTx Sample.swapReceipt Sample.wallet
                SampleRange.renamed).1 /\
  SwapInfo.dex <$>
    (sampleDetect Sample.routerTx Sample.swapReceipt Sample.wallet Sample.w0).1 =
  SwapInfo.dex <$>
    (sampleDetect Sample.routerTx Sample.swapReceipt Sample.wallet SampleRange.renamed).1.
Proof.
  assert (Hchain : forall n a d, Sample.readDecimals n a = Some d -> (d <= 80)%N).
  { intros n a d. unfold Sample.readDecimals.
    repeat case_bool_decide; intros [= <-]; lia. }
  assert (Hb1 : decimalsBounded Sample.readDecimals Sample.w0).
  { split; [|exact Hchain]. intros key info H. vm_compute in H. discriminate. }
  assert (Hb2 : decimalsBounded Sample.readDecimals SampleRange.renamed).
  { split; [|exact Hchain]. intros key info H.
    unfold SampleRange.renamed, tokenCache in H.
    apply lookup_singleton_Some in H as [_ <-]. cbn. lia. }
  split; [exact Hb1|]. split; [exact Hb2|].
  exact (onSample detectSwap_ignores_metadata
           Sample.routerTx Sample.swapReceipt Sample.wallet
           Sample.w0 SampleRange.renamed Hb1 Hb2).
Defined.

(** The two states do show the token differently. *)
Example renamed_shows_otherwise :
  (Transfer.tokenSymbol <$> (sampleParse Sample.swapReceipt Sample.w0).1) =
    ["AAA"; "BBB"]%string /\
  (Transfer.tokenSymbol <$> (sampleParse Sample.swapReceipt SampleRange.renamed).1) =
    ["XXX"; "BBB"]%string.
Proof. vm_compute. split; reflexivity. Qed.

(** *** The registry *)

(** A decidable statement about the sample data, settled by evaluating
    its decision procedure. *)
Ltac by_evaluation :=
  match goal with
  | |- ?P => apply (bool_decide_unpack P); vm_compute; exact I
  end.

Local Notation "'sampleAdd'" := (addWallet SampleChats.toText SampleChats.isAddress).
Local Notation "'sampleRemove'" := (removeWallet SampleChats.toText).

(** A user adds a wallet written in mixed case. *)
Lemma addWallet_tracks_witness :
  SampleChats.isAddress SampleChats.walletMixed = true /\
  let r := sampleAdd "2024-05-01T10:00:00.000Z" SampleChats.alice
             SampleChats.walletMixed SampleChats.busy in
  r.1 = Normal (JS.toLowerCase SampleChats.walletMixed) /\
  getWallets SampleChats.alice r.2 =
    JSSet.add (JS.toLowerCase SampleChats.walletMixed)
              (getWallets SampleChats.alice SampleChats.busy) /\
  (forall other, other <> SampleChats.alice ->
     getWallets other r.2 = getWallets other SampleChats.busy) /\
  lastChecked r.2 = lastChecked SampleChats.busy.
Proof.
  split; [vm_compute; reflexivity|].
  apply (addWallet_tracks SampleChats.toText SampleChats.isAddress).
  vm_compute. reflexivity.
Defined.

(** The same wallet added in lower case after it was added in mixed case. *)
Lemma addWallet_again_witness :
  SampleChats.isAddress SampleChats.walletMixed = true /\
  SampleChats.isAddress SampleChats.walletLower = true /\
  JS.toLowerCase SampleChats.walletLower = JS.toLowerCase SampleChats.walletMixed /\
  watchedWallets
    (sampleAdd "2024-05-01T10:05:00.000Z" SampleChats.alice SampleChats.walletLower
       (sampleAdd "2024-05-01T10:00:00.000Z" SampleChats.alice SampleChats.walletMixed
          SampleChats.fresh).2).2 =
  watchedWallets
    (sampleAdd "2024-05-01T10:00:00.000Z" SampleChats.alice SampleChats.walletMixed
       SampleChats.fresh).2.
Proof.
  split; [vm_compute; reflexivity|].
  split; [vm_compute; reflexivity|].
  split; [vm_compute; reflexivity|].
  apply (addWallet_again SampleChats.toText SampleChats.isAddress);
    vm_compute; reflexivity.
Defined.

(** A wallet added to a chat that did not track it, then removed. *)
Lemma removeWallet_after_addWallet_witness :
  SampleChats.isAddress SampleChats.walletMixed = true /\
  registryTidy (watchedWallets SampleChats.busy) /\
  (JS.toLowerCase SampleChats.walletMixed ∉ getWallets SampleChats.alice SampleChats.busy) /\
  watchedWallets
    (sampleRemove "2024-05-01T10:05:00.000Z" SampleChats.alice SampleChats.walletMixed
       (sampleAdd "2024-05-01T10:00:00.000Z" SampleChats.alice SampleChats.walletMixed
          SampleChats.busy).2).2 =
  watchedWallets SampleChats.busy.
Proof.
  assert (Htidy : registryTidy (watchedWallets SampleChats.busy)).
  { unfold registryTidy. by_evaluation. }
  assert (Hnew : JS.toLowerCase SampleChats.walletMixed
                   ∉ getWallets SampleChats.alice SampleChats.busy).
  { by_evaluation. }
  split; [vm_compute; reflexivity|].
  split; [exact Htidy|]. split; [exact Hnew|].
  apply (removeWallet_after_addWallet SampleChats.toText SampleChats.isAddress);
    [vm_compute; reflexivity|exact Htidy|exact Hnew].
Defined.

(** The registry of three chats keeps its shape. *)
Lemma registry_shape_kept_witness :
  let added := sampleAdd "2024-05-01T10:00:00.000Z" SampleChats.alice
                 SampleChats.walletMixed SampleChats.busy in
  let removed := sampleRemove "2024-05-01T10:00:00.000Z" SampleChats.alice
                   SampleChats.walletMixed SampleChats.busy in
  registryWf (watchedWallets SampleChats.busy) /\
  registryTidy (watchedWallets SampleChats.busy) /\
  (registryWf (watchedWallets added.2) /\ registryTidy (watchedWallets added.2)) /\
  (registryWf (watchedWallets removed.2) /\ registryTidy (watchedWallets removed.2)).
Proof.
  cbv zeta.
  assert (Hwf : registryWf (watchedWallets SampleChats.busy)).
  { unfold registryWf. by_evaluation. }
  assert (Htidy : registryTidy (watchedWallets SampleChats.busy)).
  { unfold registryTidy. by_evaluation. }
  split; [exact Hwf|]. split; [exact Htidy|].
  exact (registry_shape_kept SampleChats.toText SampleChats.isAddress
           "2024-05-01T10:00:00.000Z" SampleChats.alice SampleChats.walletMixed
           SampleChats.busy Hwf Htidy).
Defined.

(** The second user tracks the shared wallet, under either spelling. *)
Lemma getChatsForWallet_iff_witness :
  NoDup (watchedWallets SampleChats.busy).*1 /\
  (SampleChats.bob ∈ getChatsForWallet SampleChats.walletMixed SampleChats.busy <->
   JS.toLowerCase SampleChats.walletMixed ∈ getWallets SampleChats.bob SampleChats.busy) /\
  NoDup (getChatsForWallet SampleChats.walletMixed SampleChats.busy).
Proof.
  assert (Hnd : NoDup (watchedWallets SampleChats.busy).*1).
  { by_evaluation. }
  split; [exact Hnd|].
  exact (getChatsForWallet_iff SampleChats.walletMixed SampleChats.bob
           SampleChats.busy Hnd).
Defined.

(** Two addresses are polled for the three chats. *)
Lemma allAddresses_exact_witness :
  NoDup (watchedWallets SampleChats.busy).*1 /\
  NoDup (allAddresses SampleChats.busy) /\
  totalWallets (getSummary SampleChats.busy) = length (allAddresses SampleChats.busy) /\
  (SampleChats.other ∈ allAddresses SampleChats.busy <->
   exists chatId, SampleChats.other ∈ getWallets chatId SampleChats.busy).
Proof.
  assert (Hnd : NoDup (watchedWallets SampleChats.busy).*1).
  { by_evaluation. }
  split; [exact Hnd|].
  exact (allAddresses_exact SampleChats.busy SampleChats.other Hnd).
Defined.

(** The registry of three chats after a restart. *)
Lemma restart_restores_witness :
  writable (disk SampleChats.busy) = true /\
  registryWf (watchedWallets SampleChats.busy) /\
  NoDup (lastChecked SampleChats.busy).*1 /\
  ("__proto__"%string ∉ (lastChecked SampleChats.busy).*1) /\
  Forall (fun e => numberText SampleChats.toText SampleChats.ofText e.1)
         (watchedWallets SampleChats.busy) /\
  let t' := loadData SampleChats.ofText
              (saveData SampleChats.toText "2024-05-01T10:00:00.000Z" SampleChats.busy) in
  (forall chatId, getWallets chatId t' = getWallets chatId SampleChats.busy) /\
  (forall a, JSMap.get a (lastChecked t') = JSMap.get a (lastChecked SampleChats.busy)) /\
  (forall a, getChatsForWallet a t' ≡ₚ getChatsForWallet a SampleChats.busy).
Proof.
  assert (Hwf : registryWf (watchedWallets SampleChats.busy)).
  { unfold registryWf. by_evaluation. }
  assert (Hnd : NoDup (lastChecked SampleChats.busy).*1).
  { by_evaluation. }
  assert (Hp : "__proto__"%string ∉ (lastChecked SampleChats.busy).*1).
  { by_evaluation. }
  assert (Hnum : Forall (fun e => numberText SampleChats.toText SampleChats.ofText e.1)
                        (watchedWallets SampleChats.busy)).
  { unfold numberText. by_evaluation. }
  split; [reflexivity|]. split; [exact Hwf|]. split; [exact Hnd|].
  split; [exact Hp|]. split; [exact Hnum|].
  exact (restart_restores SampleChats.toText SampleChats.ofText
           "2024-05-01T10:00:00.000Z" SampleChats.busy eq_refl Hwf Hnd Hp Hnum).
Defined.

(** After the restart the chat with the small id comes first: its key is
    an array index, which an object enumerates before its other keys. *)
Example restart_reorders_chats :
  getChatsForWallet SampleChats.other SampleChats.busy =
    [SampleChats.bob; SampleChats.alice] /\
  getChatsForWallet SampleChats.other
    (loadData SampleChats.ofText
       (saveData SampleChats.toText "2024-05-01T10:00:00.000Z" SampleChats.busy)) =
    [SampleChats.alice; SampleChats.bob].
Proof. vm_compute. split; reflexivity. Qed.

(** *** The latest transactions and the poll *)

Local Notation "'sampleHashes'" :=
  (getTransactionHashesFromAlchemy SamplePoll.parseInt16 SamplePoll.getBlockNumber
     SamplePoll.alchemySent SamplePoll.alchemyReceived).

(** Three transactions in the window, two asked for: the ones of blocks
    997 and 994. *)
Example latest_two_hashes :
  sampleHashes Sample.wallet 2 = [SamplePoll.hashB; SamplePoll.hashC].
Proof. vm_compute. reflexivity. Qed.

Lemma getTransactionHashesFromAlchemy_distinct_witness :
  let allTransfers := SamplePoll.sent ++ SamplePoll.received in
  let hashes := sampleHashes Sample.wallet 2 in
  SamplePoll.getBlockNumber = Some SamplePoll.currentBlock /\
  SamplePoll.alchemySent (Z.max 0 (SamplePoll.currentBlock - 100)) Sample.wallet
    (Z.min (2 * 2) 100) = Some (Some SamplePoll.sent) /\
  SamplePoll.alchemyReceived (Z.max 0 (SamplePoll.currentBlock - 100)) Sample.wallet
    (Z.min (2 * 2) 100) = Some (Some SamplePoll.received) /\
  NoDup hashes /\
  (forall h, h ∈ hashes -> h ∈ AssetTransfer.hash <$> allTransfers) /\
  (0 <= 2 -> (length hashes <= Z.to_nat 2)%nat).
Proof.
  cbv zeta.
  split; [reflexivity|]. split; [reflexivity|]. split; [reflexivity|].
  apply (getTransactionHashesFromAlchemy_distinct
           SamplePoll.parseInt16 SamplePoll.getBlockNumber
           SamplePoll.alchemySent SamplePoll.alchemyReceived
           Sample.wallet 2 SamplePoll.currentBlock
           (Some SamplePoll.sent) (Some SamplePoll.received));
    reflexivity.
Defined.

Lemma getTransactionHashesFromAlchemy_latest_witness :
  let allTransfers := SamplePoll.sent ++ SamplePoll.received in
  let hashes := sampleHashes Sample.wallet 2 in
  SamplePoll.getBlockNumber = Some SamplePoll.currentBlock /\
  SamplePoll.alchemySent (Z.max 0 (SamplePoll.currentBlock - 100)) Sample.wallet
    (Z.min (2 * 2) 100) = Some (Some SamplePoll.sent) /\
  SamplePoll.alchemyReceived (Z.max 0 (SamplePoll.currentBlock - 100)) Sample.wallet
    (Z.min (2 * 2) 100) = Some (Some SamplePoll.received) /\
  0 <= 2 /\
  StronglySorted (noOlder SamplePoll.parseInt16 allTransfers) hashes /\
  (forall h h', h ∈ hashes -> h' ∈ AssetTransfer.hash <$> allTransfers ->
                h' ∉ hashes -> noOlder SamplePoll.parseInt16 allTransfers h h').
Proof.
  cbv zeta.
  split; [reflexivity|]. split; [reflexivity|]. split; [reflexivity|].
  split; [lia|].
  apply (getTransactionHashesFromAlchemy_latest
           SamplePoll.parseInt16 SamplePoll.getBlockNumber
           SamplePoll.alchemySent SamplePoll.alchemyReceived
           Sample.wallet 2 SamplePoll.currentBlock
           (Some SamplePoll.sent) (Some SamplePoll.received));
    first [reflexivity | lia].
Defined.

Local Notation "'samplePoll' balance count" :=
  (checkWalletChanges Sample.readSymbol Sample.readName Sample.readDecimals
     Sample.newContract SamplePoll.swapTransaction SamplePoll.swapReceiptOf
     Sample.transferTopic Sample.getAddress Sample.BigInt
     SampleChats.toText SamplePoll.parseInt16 SamplePoll.getBlockNumber
     SamplePoll.alchemySent SamplePoll.alchemyReceived false SamplePoll.basescanTxList
     balance count)
  (at level 10, balance at level 9, count at level 9).

(** The wallet made one transaction since the last check: its latest
    transaction is analysed, and the swap is reported to the two chats
    that track the wallet; the new observation is stored and saved. *)
Example poll_scenario :
  let p := samplePoll SamplePoll.providerBalance SamplePoll.providerTransactionCount
             "2024-05-01T10:00:00.000Z" SamplePoll.watching Sample.w0 in
  (toChat <$> outbox p) = [SampleChats.alice; SampleChats.group] /\
  (aboutAddress <$> outbox p) = [Sample.wallet; Sample.wallet] /\
  (Analysis.hash ∘ transaction <$> outbox p) = [SamplePoll.hashB; SamplePoll.hashB] /\
  hasChanges p = true /\
  lastChecked (tracker p) = [(Sample.wallet, Checked.mk "2.0" 13)] /\
  is_Some (file (disk (tracker p))).
Proof. vm_compute. repeat (split; [reflexivity|]). by eexists. Qed.

(** Nothing moved since the last check of the three chats' wallets. *)
Lemma checkWalletChanges_quiet_witness :
  (forall a, a ∈ allAddresses SampleChats.busy ->
     unchanged SamplePoll.settledBalance SamplePoll.settledTransactionCount
       (lastChecked SampleChats.busy) a) /\
  let p := samplePoll SamplePoll.settledBalance SamplePoll.settledTransactionCount
             "2024-05-01T10:00:00.000Z" SampleChats.busy Sample.w0 in
  outbox p = [] /\ world p = Sample.w0 /\ hasChanges p = false /\
  disk (tracker p) = disk SampleChats.busy.
Proof.
  assert (H : forall a, a ∈ allAddresses SampleChats.busy ->
     unchanged SamplePoll.settledBalance SamplePoll.settledTransactionCount
       (lastChecked SampleChats.busy) a).
  { intros a Ha.
    assert (Hall : allAddresses SampleChats.busy
                   = [SampleChats.walletLower; SampleChats.other])
      by (vm_compute; reflexivity).
    rewrite Hall in Ha.
    apply elem_of_cons in Ha as [-> | Ha]; [vm_compute; reflexivity|].
    apply list_elem_of_singleton in Ha as ->. vm_compute. reflexivity. }
  split; [exact H|].
  exact (checkWalletChanges_quiet
           Sample.readSymbol Sample.readName Sample.readDecimals
           Sample.newContract SamplePoll.swapTransaction SamplePoll.swapReceiptOf
           Sample.transferTopic Sample.getAddress Sample.BigInt
           SampleChats.toText SamplePoll.parseInt16 SamplePoll.getBlockNumber
           SamplePoll.alchemySent SamplePoll.alchemyReceived false
           SamplePoll.basescanTxList
           SamplePoll.settledBalance SamplePoll.settledTransactionCount
           "2024-05-01T10:00:00.000Z" SampleChats.busy Sample.w0 H).
Defined.

(** The sample swap is sent to the chat and then to the channel. *)
Lemma sendWalletNotification_delivers_witness :
  exists a,
    (sampleSwapAnalyze SamplePoll.hashB Sample.wallet Sample.w0).1 = Some a /\
    exists text tg',
      text <> ""%string /\
      sampleFormat (Some a) (Some (shortAddress Sample.wallet)) = Normal (Some text) /\
      sendWalletNotification Z Sample.parseFloat Sample.float_of_Z Sample.float_mul
        Sample.float_gt Sample.toFixed SamplePoll.channel SamplePoll.sendMessage
        SampleChats.alice Sample.wallet (Some a) SamplePoll.quietLine = Normal tg' /\
      delivered tg' =
        delivered SamplePoll.quietLine ++
        (if SamplePoll.sendMessage (attempts SamplePoll.quietLine)
              (ToChat SampleChats.alice) text
         then (ToChat SampleChats.alice, text) ::
              match SamplePoll.channel with
              | Some channel =>
                  if SamplePoll.sendMessage (S (attempts SamplePoll.quietLine))
                       (ToChannel channel) text
                  then [(ToChannel channel, text)] else []
              | None => []
              end
         else []).
Proof.
  eexists. split; [vm_compute; reflexivity|].
  apply (sendWalletNotification_delivers
           Sample.readSymbol Sample.readName Sample.readDecimals Sample.newContract
           SamplePoll.swapTransaction SamplePoll.swapReceiptOf
           Sample.transferTopic Sample.getAddress Sample.BigInt
           Z Sample.parseFloat Sample.float_of_Z Sample.float_mul Sample.float_gt
           Sample.toFixed SamplePoll.channel SamplePoll.sendMessage
           SampleChats.alice Sample.wallet SamplePoll.hashB Sample.wallet Sample.w0).
  vm_compute. reflexivity.
Defined.

(** The message of the sample swap, as the chat and the channel get it. *)
Example notification_scenario :
  exists a tg',
    (sampleSwapAnalyze SamplePoll.hashB Sample.wallet Sample.w0).1 = Some a /\
    sendWalletNotification Z Sample.parseFloat Sample.float_of_Z Sample.float_mul
      Sample.float_gt Sample.toFixed SamplePoll.channel SamplePoll.sendMessage
      SampleChats.alice Sample.wallet (Some a) SamplePoll.quietLine = Normal tg' /\
    (fst <$> delivered tg') = [ToChat SampleChats.alice; ToChannel "@base_swaps"%string] /\
    shortAddress Sample.wallet = "0x1111...1111"%string.
Proof.
  eexists. eexists. split; [vm_compute; reflexivity|].
  split; [vm_compute; reflexivity|]. split; vm_compute; reflexivity.
Qed.
